(** * The sales analytics and recommendation engine of the canteen
      management system ([analytics.py], class [AnalyticsEngine])

    The engine reads a ledger of sales records through its data manager and
    derives tables from it with pandas: a sales trend, a per-item
    performance ranking, weekday patterns, a flat demand forecast, a waste
    table and a list of recommendations.

    Conventions of the embedding.
    - A data frame is the list of its rows, in row order.
    - The columns of a ledger are numeric: the integer ones
      ([quantity_sold], [waste_quantity]) are [Z], the money ones
      ([revenue], [waste_cost]) are rationals [Q]; results are kept in
      lowest terms so that equal numbers are equal terms.  Arithmetic on
      finite numbers is exact; 64-bit overflow and binary rounding are not
      part of the model.
    - A value that pandas computes by a division, a mean or a quantile is a
      [float]: a finite rational, an infinity, or NaN, with the IEEE 754
      rules numpy follows for the special values.
    - [self.dm.load_sales_data()] is the data manager's: the embedding
      takes the frame it returns as given.  Reading the sheet, and the
      sample data the manager makes up when there is no sheet, are not
      the engine's.
    - [datetime.now()] reads the process clock.  The environment carries
      the successive readings of one call of the engine.
    - The code calls [sort_values] without a [kind], so pandas sorts with
      numpy's [argsort] of kind 'quicksort'.  The documentation of
      [sort_values] names 'mergesort' and 'stable' as the only stable
      kinds; which of two equal keys the default kind puts first depends
      on the numpy build.  The engine is therefore written over an
      arbitrary [argsort], and [argsort_spec] is what every kind
      guarantees. *)

From Stdlib Require Import ZArith QArith Qround Qreduction Qabs Lqa.
From Stdlib Require Import List String Ascii Bool Lia Permutation Sorted.
From Stdlib Require Import DecimalString OrderedTypeEx.
Import ListNotations.

Local Open Scope Z_scope.

(* ================================================================= *)
(** ** Numbers *)

(** A numpy [float64] value. *)
Inductive float : Type :=
| Fin (q : Q)
| PInf
| NInf
| NaN.

Definition Qltb (a b : Q) : bool := negb (Qle_bool b a).

Definition qsub (a b : Q) : Q := Qred (a - b).
Definition qmul (a b : Q) : Q := Qred (a * b).
Definition qdiv (a b : Q) : Q := Qred (a / b).

(** [x / y] on floats.  A finite nonzero number over zero is an infinity
    of its sign and zero over zero is NaN: numpy warns and does not raise. *)
Definition fdiv (x y : float) : float :=
  match x, y with
  | NaN, _ | _, NaN => NaN
  | Fin a, Fin b =>
      if Qeq_bool b 0 then
        if Qltb 0 a then PInf else if Qltb a 0 then NInf else NaN
      else Fin (qdiv a b)
  | Fin _, PInf | Fin _, NInf => Fin 0
  | PInf, Fin b => if Qltb b 0 then NInf else PInf
  | NInf, Fin b => if Qltb b 0 then PInf else NInf
  | PInf, PInf | PInf, NInf | NInf, PInf | NInf, NInf => NaN
  end.

(** [x * y] on floats. *)
Definition fmul (x y : float) : float :=
  match x, y with
  | NaN, _ | _, NaN => NaN
  | Fin a, Fin b => Fin (qmul a b)
  | Fin a, PInf | PInf, Fin a =>
      if Qltb 0 a then PInf else if Qltb a 0 then NInf else NaN
  | Fin a, NInf | NInf, Fin a =>
      if Qltb 0 a then NInf else if Qltb a 0 then PInf else NaN
  | PInf, PInf | NInf, NInf => PInf
  | PInf, NInf | NInf, PInf => NInf
  end.

(** [x < y] on floats; every comparison with NaN is false. *)
Definition flt (x y : float) : bool :=
  match x, y with
  | NaN, _ | _, NaN => false
  | Fin a, Fin b => Qltb a b
  | NInf, Fin _ | NInf, PInf | Fin _, PInf => true
  | _, _ => false
  end.

(** [x > y] on floats. *)
Definition fgt (x y : float) : bool := flt y x.

Inductive exn : Type :=
| ValueError
| OverflowError.

(** The outcome of a Python computation that may raise. *)
Inductive result (A : Type) : Type :=
| Ok (a : A)
| Raise (e : exn).

Arguments Ok {A} a.
Arguments Raise {A} e.

Definition bind {A B : Type} (m : result A) (k : A -> result B) : result B :=
  match m with
  | Ok a => k a
  | Raise e => Raise e
  end.

Notation "x <- m ;; k" := (bind m (fun x => k))
  (at level 61, m at next level, right associativity).

(** Python's [int(x)]: truncation towards zero; NaN and the infinities
    raise. *)
Definition int_of_float (x : float) : result Z :=
  match x with
  | Fin q => Ok (Z.quot (Qnum q) (Zpos (Qden q)))
  | NaN => Raise ValueError
  | PInf | NInf => Raise OverflowError
  end.

(** Rounding to the nearest integer, halves to the even neighbour
    (numpy's [rint]). *)
Definition rint (q : Q) : Z :=
  let f := Qfloor q in
  match Qcompare (q - inject_Z f) (1 # 2) with
  | Lt => f
  | Gt => f + 1
  | Eq => if Z.even f then f else f + 1
  end.

(** [round(2)] on a finite number: [rint (x * 100) / 100]. *)
Definition round2 (q : Q) : Q := Qred (Qmake (rint (q * 100)) 100).

Definition fround2 (x : float) : float :=
  match x with
  | Fin q => Fin (round2 q)
  | other => other
  end.

Definition sumZ (l : list Z) : Z := fold_left Z.add l 0.

Definition sumQ (l : list Q) : Q := Qred (fold_left Qplus l 0%Q).

(** [Series.mean()]: NaN on an empty series. *)
Definition mean (l : list Q) : float :=
  match l with
  | [] => NaN
  | _ :: _ => Fin (qdiv (sumQ l) (inject_Z (Z.of_nat (List.length l))))
  end.

(* ================================================================= *)
(** ** Text *)

Definition string_of_nonneg (z : Z) : string :=
  NilZero.string_of_uint (N.to_uint (Z.to_N z)).

(** The format specification [.1f]. *)
Definition format_1f (x : float) : string :=
  match x with
  | NaN => "nan"
  | PInf => "inf"
  | NInf => "-inf"
  | Fin q =>
      let n := rint (Qabs q * 10) in
      ((if Qltb q 0 then "-" else EmptyString) ++
       string_of_nonneg (n / 10) ++ "." ++ string_of_nonneg (n mod 10))%string
  end.

(* ================================================================= *)
(** ** Calendar *)

(** An instant is a number of microseconds since 1970-01-01T00:00, as a
    naive [datetime] or a pandas [Timestamp] holds it. *)
Definition instant : Type := Z.

Definition timedelta_days (n : Z) : Z := n * 86400000000.

(** The civil day an instant falls on, counted from 1970-01-01. *)
Definition day_number (t : instant) : Z := t / 86400000000.

Definition days_order : list string :=
  ["Monday"; "Tuesday"; "Wednesday"; "Thursday"; "Friday"; "Saturday";
   "Sunday"]%string.

(** [t.strftime('%A')]; 1970-01-01 was a Thursday. *)
Definition strftime_A (t : instant) : string :=
  nth (Z.to_nat ((day_number t + 3) mod 7)) days_order EmptyString.

(* ================================================================= *)
(** ** Grouping *)

(** Keys pandas can group by: comparable for equality and ordered, since
    [groupby] returns its groups in key order. *)
Class KeyOrder (K : Type) : Type := {
  k_eqb : K -> K -> bool;
  k_ltb : K -> K -> bool
}.

(** Text keys compare byte by byte, as Python compares [str]. *)
#[export] Instance string_key : KeyOrder string :=
  {| k_eqb := String.eqb; k_ltb := String.ltb |}.

(** Timestamps compare as numbers. *)
#[export] Instance instant_key : KeyOrder Z :=
  {| k_eqb := Z.eqb; k_ltb := Z.ltb |}.

Section GroupBy.
Context {R K : Type} `{KeyOrder K} (key : R -> K).

Fixpoint insert_key (k : K) (ks : list K) : list K :=
  match ks with
  | [] => [k]
  | k' :: rest =>
      if k_eqb k k' then ks
      else if k_ltb k k' then k :: ks
      else k' :: insert_key k rest
  end.

(** The distinct keys of a frame, ascending. *)
Definition group_keys (l : list R) : list K :=
  fold_right (fun r acc => insert_key (key r) acc) [] l.

(** [df.groupby(key)]: one group per distinct key, in key order, each
    holding its rows in frame order. *)
Definition groupby (l : list R) : list (K * list R) :=
  map (fun k => (k, filter (fun r => k_eqb (key r) k) l)) (group_keys l).
End GroupBy.

(* ================================================================= *)
(** ** Sorting *)

(** [frame.take(indexer)]: the rows at the given positions, in that
    order.  pandas raises on a position outside the frame; the indexers
    of [nargsort] hold none, and the model leaves such a position out. *)
Definition take {A : Type} (rows : list A) (indexer : list nat) : list A :=
  flat_map (fun i => match nth_error rows i with
                     | Some r => [r]
                     | None => []
                     end) indexer.

Definition is_nan (items : list (option Q)) (i : nat) : bool :=
  match nth i items None with
  | None => true
  | Some _ => false
  end.

Definition value_at (items : list (option Q)) (i : nat) : Q :=
  match nth i items None with
  | Some q => q
  | None => 0%Q
  end.

Section Sorting.
Variable argsort : list Q -> list nat.

(** [pandas.core.sorting.nargsort] with [na_position='last']: the missing
    values are set apart, the others are sorted by [argsort] (for a
    descending sort the array is reversed before and the result after),
    and the positions of the missing values are appended. *)
Definition nargsort (items : list (option Q)) (ascending : bool)
  : list nat :=
  let idx := seq 0 (List.length items) in
  let non_nan_idx := filter (fun i => negb (is_nan items i)) idx in
  let nan_idx := filter (is_nan items) idx in
  let non_nan_idx := if ascending then non_nan_idx else rev non_nan_idx in
  let non_nans := map (value_at items) non_nan_idx in
  let indexer := map (fun j => nth j non_nan_idx 0%nat) (argsort non_nans) in
  let indexer := if ascending then indexer else rev indexer in
  indexer ++ nan_idx.

(** [frame.sort_values(by, ascending=...)] on one column. *)
Definition sort_values {A : Type} (rows : list A) (by_ : A -> option Q)
    (ascending : bool) : list A :=
  take rows (nargsort (map by_ rows) ascending).
End Sorting.

(** What numpy promises of [argsort]: the result lists every position
    once, by ascending key. *)
Definition argsort_spec (argsort : list Q -> list nat) : Prop :=
  forall ks : list Q,
    Permutation (argsort ks) (seq 0 (List.length ks)) /\
    StronglySorted (fun i j => (nth i ks 0 <= nth j ks 0)%Q) (argsort ks).

(** What a stable [argsort] adds: equal keys keep their order. *)
Definition argsort_stable (argsort : list Q -> list nat) : Prop :=
  forall ks : list Q,
    StronglySorted
      (fun i j => (nth i ks 0 == nth j ks 0)%Q -> (i < j)%nat) (argsort ks).

Fixpoint insert_by (before : Q -> Q -> bool) (x : Q * nat)
    (l : list (Q * nat)) : list (Q * nat) :=
  match l with
  | [] => [x]
  | y :: rest =>
      if before (fst x) (fst y) then x :: l
      else y :: insert_by before x rest
  end.

(** Insertion sort of the positions by key; [before] decides whether a
    key goes in front of another one. *)
Definition insertion_argsort_by (before : Q -> Q -> bool) (ks : list Q)
  : list nat :=
  map snd (fold_right (insert_by before) []
                      (combine ks (seq 0 (List.length ks)))).

(** An [argsort] that keeps equal keys in their order *)
Definition insertion_argsort : list Q -> list nat :=
  insertion_argsort_by Qle_bool.

(** An [argsort] that puts equal keys in reverse order; it meets
    [argsort_spec] as the former does. *)
Definition reversing_argsort : list Q -> list nat :=
  insertion_argsort_by Qltb.

(** The values of a list, ascending. *)
Definition sort_Q (l : list Q) : list Q :=
  map fst (fold_right (insert_by Qle_bool) [] (combine l (seq 0 (List.length l)))).

(** [Series.quantile(q)] with the default linear interpolation between
    the two closest order statistics; NaN on an empty series. *)
Definition quantile (vals : list Q) (q : Q) : float :=
  match vals with
  | [] => NaN
  | _ :: _ =>
      let n := Z.of_nat (List.length vals) in
      let sorted := sort_Q vals in
      let h := (inject_Z (n - 1) * q)%Q in
      let lo := Qfloor h in
      let hi := Z.min (lo + 1) (n - 1) in
      let g := (h - inject_Z lo)%Q in
      let a := nth (Z.to_nat lo) sorted 0%Q in
      let b := nth (Z.to_nat hi) sorted 0%Q in
      Fin (Qred (a + (b - a) * g))
  end.

(** [frame.tail(n)] *)
Definition tail {A : Type} (n : nat) (l : list A) : list A :=
  skipn (List.length l - n) l.

(** [frame.head(n)] *)
Definition head {A : Type} (n : nat) (l : list A) : list A := firstn n l.

(* ================================================================= *)
(** ** The ledger *)

(** One row of the sales sheet, as [DataManager] writes it. *)
Record SalesRecord : Type := {
  date : instant;
  day_of_week : string;
  menu_item : string;
  quantity_sold : Z;
  price : Q;
  revenue : Q;
  waste_quantity : Z;
  waste_cost : Q;
  is_weekday : bool
}.

(** What a call of the engine reads from outside: the ledger its data
    manager hands out, and the readings of the process clock, [clock n]
    being what the call's [n]-th evaluation of [datetime.now()] returns. *)
Record Env : Type := {
  sales_data : list SalesRecord;
  clock : nat -> instant
}.

(** [self.dm.load_sales_data()] *)
Definition load_sales_data (e : Env) : list SalesRecord := sales_data e.

(* ================================================================= *)
(** ** Result tables *)

Record SalesTrend : Type := {
  st_date : instant;
  st_quantity_sold : Z;
  st_revenue : Q;
  st_waste_quantity : Z
}.

Record MenuPerformance : Type := {
  mp_menu_item : string;
  total_sold : Q;
  avg_daily_sold : float;
  total_revenue : Q;
  total_waste : Q;
  total_waste_cost : Q;
  mp_waste_percentage : float;
  profitability : Q
}.

(** [dp_day_of_week] is a categorical value: [None] is the missing value
    a label outside the categories turns into. *)
Record DailyPattern : Type := {
  dp_day_of_week : option string;
  dp_quantity_sold : float;
  dp_revenue : float;
  dp_waste_quantity : float
}.

Record Forecast : Type := {
  fc_date : instant;
  forecasted_demand : Z;
  fc_day_of_week : string
}.

Record WasteSummary : Type := {
  ws_menu_item : string;
  ws_waste_quantity : Z;
  ws_waste_cost : Q;
  ws_quantity_sold : Z;
  ws_waste_percentage : float
}.

Record Recommendation : Type := {
  rec_type : string;
  rec_message : string;
  rec_action : string
}.

Definition Z2Q (l : list Z) : list Q := map inject_Z l.

(** [pd.Categorical(values, categories=..., ordered=True)] on one label *)
Definition categorical (categories : list string) (v : string)
  : option string :=
  if existsb (String.eqb v) categories then Some v else None.

Fixpoint index_of (v : string) (l : list string) : option nat :=
  match l with
  | [] => None
  | x :: rest =>
      if String.eqb v x then Some O else option_map S (index_of v rest)
  end.

(** The code a categorical value is sorted by *)
Definition category_code (categories : list string) (c : option string)
  : option Q :=
  match c with
  | None => None
  | Some v =>
      option_map (fun n => inject_Z (Z.of_nat n)) (index_of v categories)
  end.

(* ================================================================= *)
(** ** The engine *)

(** [get_sales_trends(period_days)] *)
Definition get_sales_trends (e : Env) (period_days : Z) : list SalesTrend :=
  let data := load_sales_data e in
  let cutoff := clock e 0 - timedelta_days period_days in
  let recent_data := filter (fun r => cutoff <=? date r) data in
  map (fun g =>
         {| st_date := fst g;
            st_quantity_sold := sumZ (map quantity_sold (snd g));
            st_revenue := sumQ (map revenue (snd g));
            st_waste_quantity := sumZ (map waste_quantity (snd g)) |})
      (groupby date recent_data).

Definition forecast_row (e : Env) (forecast_value : float) (i : nat)
  : result Forecast :=
  let forecast_date := clock e (S i) + timedelta_days (Z.of_nat i + 1) in
  demand <- int_of_float forecast_value ;;
  Ok {| fc_date := forecast_date;
        forecasted_demand := demand;
        fc_day_of_week := strftime_A forecast_date |}.

(** The loop [for i in range(days)] of [forecast_demand], from [i] on *)
Fixpoint forecast_rows (e : Env) (forecast_value : float) (idxs : list nat)
  : result (list Forecast) :=
  match idxs with
  | [] => Ok []
  | i :: rest =>
      row <- forecast_row e forecast_value i ;;
      rows <- forecast_rows e forecast_value rest ;;
      Ok (row :: rows)
  end.

Definition daily_totals (recent_sales : list SalesRecord) : list (instant * Z) :=
  map (fun g => (fst g, sumZ (map quantity_sold (snd g))))
      (groupby date recent_sales).

(** The frame [recent_sales] of [forecast_demand]: the records of the 30
    days before the clock reading *)
Definition recent_sales (e : Env) : list SalesRecord :=
  let data := load_sales_data e in
  let cutoff := clock e 0 - timedelta_days 30 in
  filter (fun r => cutoff <=? date r) data.

(** [forecast_demand(days)] *)
Definition forecast_demand (e : Env) (days : Z) : result (list Forecast) :=
  let totals := daily_totals (recent_sales e) in
  let forecast_value := mean (Z2Q (map snd (tail 7 totals))) in
  forecast_rows e forecast_value (seq 0 (Z.to_nat days)).

Definition warning_rec (item : WasteSummary) : Recommendation :=
  {| rec_type := "warning";
     rec_message := ("High waste detected for " ++ ws_menu_item item ++ ": "
                     ++ format_1f (ws_waste_percentage item) ++ "%")%string;
     rec_action := ("Consider reducing portions or improving demand forecasting for "
                    ++ ws_menu_item item)%string |}.

Definition info_rec (item : MenuPerformance) : Recommendation :=
  {| rec_type := "info";
     rec_message := ("Low profitability for " ++ mp_menu_item item)%string;
     rec_action := ("Review pricing or consider replacing "
                    ++ mp_menu_item item ++ " on menu")%string |}.

Definition critical_rec (total_waste_percent : float) : Recommendation :=
  {| rec_type := "critical";
     rec_message := ("High overall waste: " ++ format_1f total_waste_percent
                     ++ "% of revenue")%string;
     rec_action := "Implement pre-ordering system and improve inventory management" |}.

(** The row of [get_menu_performance] for the group of an item: the
    aggregates, rounded, and the two columns derived from them *)
Definition menu_performance_row (g : string * list SalesRecord)
  : MenuPerformance :=
  let sold := round2 (inject_Z (sumZ (map quantity_sold (snd g)))) in
  let avg := fround2 (mean (Z2Q (map quantity_sold (snd g)))) in
  let rev := round2 (sumQ (map revenue (snd g))) in
  let waste := round2 (inject_Z (sumZ (map waste_quantity (snd g)))) in
  let cost := round2 (sumQ (map waste_cost (snd g))) in
  {| mp_menu_item := fst g;
     total_sold := sold;
     avg_daily_sold := avg;
     total_revenue := rev;
     total_waste := waste;
     total_waste_cost := cost;
     mp_waste_percentage := fmul (fdiv (Fin waste) (Fin sold)) (Fin 100);
     profitability := qsub rev cost |}.

(** The row of [get_daily_patterns] for the group of a label *)
Definition daily_pattern_row (g : string * list SalesRecord) : DailyPattern :=
  {| dp_day_of_week := categorical days_order (fst g);
     dp_quantity_sold := mean (Z2Q (map quantity_sold (snd g)));
     dp_revenue := mean (map revenue (snd g));
     dp_waste_quantity := mean (Z2Q (map waste_quantity (snd g))) |}.

(** The row of [get_waste_analysis] for the group of an item *)
Definition waste_summary_row (g : string * list SalesRecord) : WasteSummary :=
  let waste := sumZ (map waste_quantity (snd g)) in
  let sold := sumZ (map quantity_sold (snd g)) in
  {| ws_menu_item := fst g;
     ws_waste_quantity := waste;
     ws_waste_cost := sumQ (map waste_cost (snd g));
     ws_quantity_sold := sold;
     ws_waste_percentage :=
       fmul (fdiv (Fin (inject_Z waste)) (Fin (inject_Z sold))) (Fin 100) |}.

Section Engine.
Variable argsort : list Q -> list nat.

(** [get_menu_performance()] *)
Definition get_menu_performance (e : Env) : list MenuPerformance :=
  let data := load_sales_data e in
  let performance := map menu_performance_row (groupby menu_item data) in
  sort_values argsort performance (fun r => Some (profitability r)) false.

(** [get_daily_patterns()] *)
Definition get_daily_patterns (e : Env) : list DailyPattern :=
  let data := load_sales_data e in
  let daily_patterns := map daily_pattern_row (groupby day_of_week data) in
  sort_values argsort daily_patterns
              (fun r => category_code days_order (dp_day_of_week r)) true.

(** [get_waste_analysis()] *)
Definition get_waste_analysis (e : Env) : list WasteSummary :=
  let data := load_sales_data e in
  let waste_summary := map waste_summary_row (groupby menu_item data) in
  sort_values argsort waste_summary (fun r => Some (ws_waste_cost r)) false.

(** The rows rule 1 of [generate_recommendations] flags *)
Definition high_waste (e : Env) : list WasteSummary :=
  filter (fun r => fgt (ws_waste_percentage r) (Fin 15)) (get_waste_analysis e).

(** The rows rule 2 of [generate_recommendations] picks from *)
Definition low_performers (e : Env) : list MenuPerformance :=
  let menu_perf := get_menu_performance e in
  filter (fun r => flt (Fin (profitability r))
                       (quantile (map profitability menu_perf) (1 # 4)))
         menu_perf.

(** The ratio rule 3 of [generate_recommendations] tests *)
Definition total_waste_percent (e : Env) : float :=
  let data := load_sales_data e in
  fmul (fdiv (Fin (sumQ (map waste_cost data))) (Fin (sumQ (map revenue data))))
       (Fin 100).

(** [generate_recommendations()] *)
Definition generate_recommendations (e : Env) : list Recommendation :=
  let recommendations := [] in
  let recommendations :=
    recommendations ++ map warning_rec (high_waste e) in
  let recommendations :=
    recommendations ++ map info_rec (head 2 (low_performers e)) in
  let recommendations :=
    recommendations ++
    (if fgt (total_waste_percent e) (Fin 15)
     then [critical_rec (total_waste_percent e)]
     else []) in
  recommendations.
End Engine.

(* ================================================================= *)
(** ** Notions the statements use *)

(** The laws of a key order *)
Class KeyOrderLaws (K : Type) `{KeyOrder K} : Prop := {
  k_eqb_eq : forall a b : K, k_eqb a b = true <-> a = b;
  k_ltb_irrefl : forall a : K, k_ltb a a = false;
  k_ltb_trans : forall a b c : K,
      k_ltb a b = true -> k_ltb b c = true -> k_ltb a c = true;
  k_ltb_total : forall a b : K,
      k_eqb a b = false -> k_ltb a b = false -> k_ltb b a = true
}.

(** The positions [nargsort] sorts, in the order it gives them: its
    result without the positions of the missing values *)
Definition sorted_positions (argsort : list Q -> list nat)
    (items : list (option Q)) (ascending : bool) : list nat :=
  let non_nan_idx :=
    filter (fun i => negb (is_nan items i)) (seq 0 (List.length items)) in
  let non_nan_idx := if ascending then non_nan_idx else rev non_nan_idx in
  let indexer :=
    map (fun j => nth j non_nan_idx 0%nat)
        (argsort (map (value_at items) non_nan_idx)) in
  if ascending then indexer else rev indexer.

(** A comparison an insertion sort can run on *)
Definition sorts_ascending (before : Q -> Q -> bool) : Prop :=
  forall a b : Q,
    (before a b = true -> (a <= b)%Q) /\ (before a b = false -> (b <= a)%Q).

(** Equal keys in the order of their positions *)
Definition tie_order (p q : Q * nat) : Prop :=
  (fst p == fst q)%Q -> (snd p < snd q)%nat.

(** The order of two codes, both present *)
Definition code_le (x y : option Q) : Prop :=
  match x, y with
  | Some a, Some b => (a <= b)%Q
  | _, _ => False
  end.

(** The recommendations of one type, in list order *)
Definition of_type (t : string) (recs : list Recommendation)
  : list Recommendation :=
  filter (fun r => String.eqb (rec_type r) t) recs.

(** A rule-1 warning about an item is in a list of recommendations. *)
Definition warned_for (item : string) (recs : list Recommendation) : Prop :=
  exists row : WasteSummary,
    ws_menu_item row = item /\ In (warning_rec row) recs.

(** The position of a label among the weekday names; 7 for any other
    label *)
Definition day_index (d : string) : nat :=
  match index_of d days_order with
  | Some i => i
  | None => 7
  end.

(** The code [get_daily_patterns] sorts the group of a label by *)
Definition label_code (d : string) : option Q :=
  category_code days_order (categorical days_order d).

(** A record of the ledger bears the label. *)
Definition present (e : Env) (d : string) : bool :=
  existsb (fun r => String.eqb (day_of_week r) d) (load_sales_data e).

(** The labels of the ledger in the order [get_daily_patterns] gives
    their rows *)
Definition sorted_labels (argsort : list Q -> list nat) (e : Env)
  : list string :=
  sort_values argsort (group_keys day_of_week (load_sales_data e))
              label_code true.

(** The row of the forecast for the [i]-th day after the instant [now],
    with the demand [v] *)
Definition forecast_entry (now : instant) (v : Z) (i : nat) : Forecast :=
  let forecast_date := now + timedelta_days (Z.of_nat i + 1) in
  {| fc_date := forecast_date;
     forecasted_demand := v;
     fc_day_of_week := strftime_A forecast_date |}.

(* ================================================================= *)
(** ** Sample ledgers *)

(** The record [DataManager.add_sales_record] builds for a date, an item,
    the two quantities and the price of the item *)
Definition sales_record (d : instant) (item : string) (sold wasted : Z)
    (p : Q) : SalesRecord :=
  {| date := d;
     day_of_week := strftime_A d;
     menu_item := item;
     quantity_sold := sold;
     price := p;
     revenue := qmul (inject_Z sold) p;
     waste_quantity := wasted;
     waste_cost := qmul (qmul (inject_Z wasted) p) (3 # 10);
     is_weekday := (day_number d + 3) mod 7 <? 5 |}.

(** Monday 2025-11-03, 00:00 *)
Definition monday : instant := timedelta_days 20395.

(** An environment whose clock stands still *)
Definition at_instant (now : instant) (data : list SalesRecord) : Env :=
  {| sales_data := data; clock := fun _ => now |}.

(** Two records, both of the same Monday *)
Definition monday_only : Env :=
  at_instant (monday + timedelta_days 1)
    [sales_record monday "Rice & Stew" 40 2 120;
     sales_record monday "Tea & Mandazi" 25 1 50].

(** Tea was prepared and thrown away, none was sold *)
Definition unsold_tea : Env :=
  at_instant (monday + timedelta_days 1)
    [sales_record monday "Rice & Stew" 40 2 120;
     sales_record monday "Tea & Mandazi" 0 5 50].

(** A day on which nothing was sold and some food was wasted *)
Definition only_waste : Env :=
  at_instant (monday + timedelta_days 1)
    [sales_record monday "Tea & Mandazi" 0 5 50].

(** Ten items sold at 100 each, 1 to 10 of them, without waste *)
Definition ten_items : Env :=
  at_instant (monday + timedelta_days 1)
    [sales_record monday "Chapati & Beans" 1 0 100;
     sales_record monday "Chips & Chicken" 2 0 100;
     sales_record monday "Fruit Salad" 3 0 100;
     sales_record monday "Githeri" 4 0 100;
     sales_record monday "Juice" 5 0 100;
     sales_record monday "Pilau" 6 0 100;
     sales_record monday "Rice & Stew" 7 0 100;
     sales_record monday "Samosa" 8 0 100;
     sales_record monday "Tea & Mandazi" 9 0 100;
     sales_record monday "Ugali & Sukuma" 10 0 100].

(** Two items of the same profitability, 1200 *)
Definition tied_items : Env :=
  at_instant (monday + timedelta_days 1)
    [sales_record monday "Chapati & Beans" 15 0 80;
     sales_record monday "Rice & Stew" 10 0 120].

(** Noon of the Monday after a week whose daily totals were 10, 20, ...,
    70; the second day's total comes from two items *)
Definition week_history : Env :=
  at_instant (monday + timedelta_days 7 + 43200000000)
    [sales_record monday "Rice & Stew" 10 1 120;
     sales_record (monday + timedelta_days 1) "Rice & Stew" 12 1 120;
     sales_record (monday + timedelta_days 1) "Tea & Mandazi" 8 0 50;
     sales_record (monday + timedelta_days 2) "Rice & Stew" 30 2 120;
     sales_record (monday + timedelta_days 3) "Rice & Stew" 40 2 120;
     sales_record (monday + timedelta_days 4) "Rice & Stew" 50 3 120;
     sales_record (monday + timedelta_days 5) "Rice & Stew" 60 3 120;
     sales_record (monday + timedelta_days 6) "Rice & Stew" 70 4 120].


(** A ledger without records *)
Definition empty_ledger : Env := at_instant monday [].

(** A ledger read forty days after its last record *)
Definition stale_ledger : Env :=
  at_instant (monday + timedelta_days 40)
    [sales_record monday "Rice & Stew" 40 2 120;
     sales_record monday "Tea & Mandazi" 25 1 50].

(** A price that does not round: revenue 10.004, waste cost 1.5006 *)
Definition odd_price : Env :=
  at_instant (monday + timedelta_days 1)
    [sales_record monday "Juice" 2 1 (5002 # 1000)].

(** The row of the waste table for the tea nobody bought *)
Definition unsold_tea_row : WasteSummary :=
  {| ws_menu_item := "Tea & Mandazi";
     ws_waste_quantity := 5;
     ws_waste_cost := 75;
     ws_quantity_sold := 0;
     ws_waste_percentage := PInf |}.

(** The row of the performance table for the juice of the odd price *)
Definition odd_price_row : MenuPerformance :=
  {| mp_menu_item := "Juice";
     total_sold := 2;
     avg_daily_sold := Fin 2;
     total_revenue := 10;
     total_waste := 1;
     total_waste_cost := 3 # 2;
     mp_waste_percentage := Fin 50;
     profitability := 17 # 2 |}.

(* ================================================================= *)
(** ** The sales trend *)

(** The row of [get_sales_trends] for the group of a date *)
Definition sales_trend_row (g : instant * list SalesRecord) : SalesTrend :=
  {| st_date := fst g;
     st_quantity_sold := sumZ (map quantity_sold (snd g));
     st_revenue := sumQ (map revenue (snd g));
     st_waste_quantity := sumZ (map waste_quantity (snd g)) |}.

(** The records [get_sales_trends] keeps: those of the last
    [period_days] days before the clock reading *)
Definition recent_data (e : Env) (period_days : Z) : list SalesRecord :=
  filter (fun r => clock e 0 - timedelta_days period_days <=? date r)
         (load_sales_data e).

(** A rule-2 info recommendation about an item is in a list of
    recommendations. *)
Definition informed_for (item : string) (recs : list Recommendation) : Prop :=
  exists row : MenuPerformance,
    mp_menu_item row = item /\ In (info_rec row) recs.

(* ================================================================= *)
(** ** More about the forecast *)

(** The row of the forecast the [i]-th turn of the loop appends when the
    demand is [v]: its date comes from the clock reading of that turn *)
Definition forecast_row_at (e : Env) (v : Z) (i : nat) : Forecast :=
  let forecast_date := clock e (S i) + timedelta_days (Z.of_nat i + 1) in
  {| fc_date := forecast_date;
     forecasted_demand := v;
     fc_day_of_week := strftime_A forecast_date |}.

(** The mean [forecast_demand] projects *)
Definition forecast_value (e : Env) : float :=
  mean (Z2Q (map snd (tail 7 (daily_totals (recent_sales e))))).

(* ================================================================= *)
(** ** The data manager ([data_manager.py], class [DataManager]) *)

(** The system configuration: the menu and, position by position, the
    price of each item *)
Record Config : Type := {
  menu_items : list string;
  prices : list Q
}.

(** [add_sales_record(date, menu_item, quantity_sold, waste_quantity)] on
    the ledger [current_data]: whether it succeeded, and the ledger it
    leaves.  An item that is not on the menu ([list.index] raises) or has
    no price (the subscript raises) is caught by the [except] clause:
    nothing is saved and the result is [False].  Reading and writing the
    sheet are taken to succeed. *)
Definition add_sales_record (config : Config) (current_data : list SalesRecord)
    (d : instant) (item : string) (sold wasted : Z)
  : bool * list SalesRecord :=
  match index_of item (menu_items config) with
  | None => (false, current_data)
  | Some i =>
      match nth_error (prices config) i with
      | None => (false, current_data)
      | Some p =>
          let new_record := sales_record d item sold wasted p in
          (true, current_data ++ [new_record])
      end
  end.

(** The dictionary [get_sales_summary] returns *)
Record SalesSummary : Type := {
  ss_total_revenue : Q;
  ss_total_items_sold : Z;
  ss_total_waste_cost : Q;
  ss_average_daily_sales : float;
  ss_waste_percentage : float
}.

(** [get_sales_summary(start_date, end_date)]; [None] stands for a bound
    that is not given (or is empty).  The columns of the ledger are taken
    to be numeric, as those of a sheet that has records are. *)
Definition get_sales_summary (e : Env) (start_date end_date : option instant)
  : SalesSummary :=
  let data := load_sales_data e in
  let data := match start_date with
              | Some s => filter (fun r => s <=? date r) data
              | None => data
              end in
  let data := match end_date with
              | Some t => filter (fun r => date r <=? t) data
              | None => data
              end in
  {| ss_total_revenue := sumQ (map revenue data);
     ss_total_items_sold := sumZ (map quantity_sold data);
     ss_total_waste_cost := sumQ (map waste_cost data);
     ss_average_daily_sales := mean (Z2Q (map snd (daily_totals data)));
     ss_waste_percentage :=
       fmul (fdiv (Fin (sumQ (map waste_cost data)))
                  (Fin (sumQ (map revenue data)))) (Fin 100) |}.

(** The records [get_sales_summary] sums up *)
Definition summary_data (e : Env) (start_date end_date : option instant)
  : list SalesRecord :=
  let data := load_sales_data e in
  let data := match start_date with
              | Some s => filter (fun r => s <=? date r) data
              | None => data
              end in
  match end_date with
  | Some t => filter (fun r => date r <=? t) data
  | None => data
  end.


(** Every record bears the name of a weekday. *)
Definition weekday_labels (data : list SalesRecord) : Prop :=
  Forall (fun r => In (day_of_week r) days_order) data.

(** What holds of a record [add_sales_record] wrote *)
Definition record_consistent (config : Config) (r : SalesRecord) : Prop :=
  In (menu_item r) (menu_items config) /\
  In (price r) (prices config) /\
  (revenue r == inject_Z (quantity_sold r) * price r)%Q /\
  (waste_cost r == inject_Z (waste_quantity r) * price r * (3 # 10))%Q /\
  day_of_week r = strftime_A (date r) /\
  In (day_of_week r) days_order /\
  (is_weekday r = true <->
   In (day_of_week r)
      ["Monday"; "Tuesday"; "Wednesday"; "Thursday"; "Friday"]%string).

(* ----------------------------------------------------------------- *)

(** Whether a date passes the bounds of [get_sales_summary] *)
Definition in_range (start_date end_date : option instant) (d : instant)
  : bool :=
  match start_date with Some s => s <=? d | None => true end
  && match end_date with Some t => d <=? t | None => true end.

(* ================================================================= *)
(** ** The food items ([food_manager.py]) *)

(** The civil date (year, month, day) of a day counted from 1970-01-01 *)
Definition civil_of_day (day : Z) : Z * Z * Z :=
  let z := day + 719468 in
  let era := z / 146097 in
  let doe := z - era * 146097 in
  let yoe := (doe - doe / 1460 + doe / 36524 - doe / 146096) / 365 in
  let doy := doe - (365 * yoe + yoe / 4 - yoe / 100) in
  let mp := (5 * doy + 2) / 153 in
  let d := doy - (153 * mp + 2) / 5 + 1 in
  let m := if mp <? 10 then mp + 3 else mp - 9 in
  let y := yoe + era * 400 + (if m <=? 2 then 1 else 0) in
  (y, m, d).

(** A number in decimal, padded with zeros to a width *)
Definition zero_padded (width : nat) (z : Z) : string :=
  let s := string_of_nonneg z in
  (String.concat EmptyString (repeat "0"%string (width - String.length s))
   ++ s)%string.

(** [t.strftime("%Y-%m-%d")], for the four-digit years of a clock reading *)
Definition strftime_Ymd (t : instant) : string :=
  let '(y, m, d) := civil_of_day (day_number t) in
  (string_of_nonneg y ++ "-" ++ zero_padded 2 m ++ "-" ++ zero_padded 2 d)%string.

(** [t.strftime("%Y-%m-%d %H:%M:%S")] *)
Definition strftime_YmdHMS (t : instant) : string :=
  let s := (t mod 86400000000) / 1000000 in
  (strftime_Ymd t ++ " " ++ zero_padded 2 (s / 3600) ++ ":"
   ++ zero_padded 2 ((s / 60) mod 60) ++ ":" ++ zero_padded 2 (s mod 60))%string.

(** One entry of [self.food_items], as [add_food_item] writes it. *)
Record FoodItem : Type := {
  item_id : Z;
  name : string;
  category : string;
  selling_price : Q;
  cost_price : Q;
  profit_margin : Q;
  ingredients : list string;
  preparation_time : Z;
  dietary_tags : list string;
  is_active : bool;
  date_added : string;
  fi_total_sold : Z;
  popularity_score : Q
}.

(** [FoodItemManager.add_food_item]: the new item and the list after the
    call; [now] is the reading of the clock. *)
Definition add_food_item (now : instant) (food_items : list FoodItem)
    (name_ category_ : string) (selling_price_ cost_price_ : Q)
    (ingredients_ : list string) (preparation_time_ : Z)
    (dietary_tags_ : list string) : FoodItem * list FoodItem :=
  let new_item :=
    {| item_id := Z.of_nat (List.length food_items) + 1;
       name := name_;
       category := category_;
       selling_price := selling_price_;
       cost_price := cost_price_;
       profit_margin := qsub selling_price_ cost_price_;
       ingredients := ingredients_;
       preparation_time := preparation_time_;
       dietary_tags := dietary_tags_;
       is_active := true;
       date_added := strftime_Ymd now;
       fi_total_sold := 0;
       popularity_score := 0 |} in
  (new_item, food_items ++ [new_item]).

(** [FoodItemManager.get_active_items] *)
Definition get_active_items (food_items : list FoodItem) : list FoodItem :=
  filter is_active food_items.

(** [FoodItemManager.get_food_categories]: the set of the active items'
    categories, sorted *)
Definition get_food_categories (food_items : list FoodItem) : list string :=
  group_keys category (get_active_items food_items).

(** [min(total_sold / 100, 1.0)] *)
Definition popularity (total_sold_ : Z) : Q :=
  let x := qdiv (inject_Z total_sold_) 100 in
  if Qle_bool x 1 then x else 1%Q.

Definition sold_more (item : FoodItem) (quantity_sold_ : Z) : FoodItem :=
  {| item_id := item_id item;
     name := name item;
     category := category item;
     selling_price := selling_price item;
     cost_price := cost_price item;
     profit_margin := profit_margin item;
     ingredients := ingredients item;
     preparation_time := preparation_time item;
     dietary_tags := dietary_tags item;
     is_active := is_active item;
     date_added := date_added item;
     fi_total_sold := fi_total_sold item + quantity_sold_;
     popularity_score := popularity (fi_total_sold item + quantity_sold_) |}.

(** [FoodItemManager.update_item_sales]: the first active item of the name
    is updated, and the loop breaks. *)
Fixpoint update_item_sales (food_items : list FoodItem) (item_name : string)
    (quantity_sold_ : Z) : list FoodItem :=
  match food_items with
  | [] => []
  | item :: rest =>
      if (name item =? item_name)%string && is_active item
      then sold_more item quantity_sold_ :: rest
      else item :: update_item_sales rest item_name quantity_sold_
  end.

Definition deactivated (item : FoodItem) : FoodItem :=
  {| item_id := item_id item;
     name := name item;
     category := category item;
     selling_price := selling_price item;
     cost_price := cost_price item;
     profit_margin := profit_margin item;
     ingredients := ingredients item;
     preparation_time := preparation_time item;
     dietary_tags := dietary_tags item;
     is_active := false;
     date_added := date_added item;
     fi_total_sold := fi_total_sold item;
     popularity_score := popularity_score item |}.

(** [FoodItemManager.deactivate_item]: the first item of the id is switched
    off, and the loop breaks. *)
Fixpoint deactivate_item (food_items : list FoodItem) (item_id_ : Z)
    : list FoodItem :=
  match food_items with
  | [] => []
  | item :: rest =>
      if item_id item =? item_id_
      then deactivated item :: rest
      else item :: deactivate_item rest item_id_
  end.

(** The lists of food items a manager that started empty can hold: what
    [add_food_item], [update_item_sales] and [deactivate_item] make of the
    empty list. *)
Inductive managed : list FoodItem -> Prop :=
| managed_empty : managed []
| managed_add now items n c sp cp ing pt tags :
    managed items ->
    managed (snd (add_food_item now items n c sp cp ing pt tags))
| managed_update items n q :
    managed items -> managed (update_item_sales items n q)
| managed_deactivate items i :
    managed items -> managed (deactivate_item items i).

(* ================================================================= *)
(** ** Recording a sale from the application ([app.py]) *)

(** The price [add_new_sales_record] finds for an item: that of the first
    active food item of the name, else the one the configuration lists
    ([None] where the list of prices is too short, an IndexError), else 0. *)
Definition resolve_price (config : Config) (food_items : list FoodItem)
    (menu_item_ : string) : option Q :=
  match find (fun item => (name item =? menu_item_)%string)
             (get_active_items food_items) with
  | Some item => Some (selling_price item)
  | None =>
      match index_of menu_item_ (menu_items config) with
      | Some idx => nth_error (prices config) idx
      | None => Some 0%Q
      end
  end.

(** [CanteenManagementSystem.add_new_sales_record]: whether the record was
    added, the ledger and the food items after the call. *)
Definition add_new_sales_record (config : Config)
    (current_data : list SalesRecord) (food_items : list FoodItem)
    (d : instant) (menu_item_ : string) (quantity_sold_ waste_quantity_ : Z)
  : bool * list SalesRecord * list FoodItem :=
  match resolve_price config food_items menu_item_ with
  | None => (false, current_data, food_items)
  | Some p =>
      let new_record :=
        sales_record d menu_item_ quantity_sold_ waste_quantity_ p in
      (true, current_data ++ [new_record],
       update_item_sales food_items menu_item_ quantity_sold_)
  end.

(* ================================================================= *)
(** ** The food items *)

(** The ids a list of [n] items has when they were given in turn *)
Definition ids_in_turn (n : nat) : list Z := map Z.of_nat (seq 1 n).

(** What each item of a managed list satisfies *)
Definition item_consistent (item : FoodItem) : Prop :=
  profit_margin item = qsub (selling_price item) (cost_price item) /\
  popularity_score item = popularity (fi_total_sold item) /\
  (popularity_score item <= 1)%Q.

(* ----------------------------------------------------------------- *)

(** No active item of a list has the name *)
Definition none_active (n : string) (items : list FoodItem) : Prop :=
  forall item, In item items -> name item = n -> is_active item = false.

(* ================================================================= *)
(** ** SHA-256 ([hashlib.sha256], FIPS 180-4) *)

Module SHA256.

Definition w32 (x : Z) : Z := x mod 4294967296.

Definition rotr (n x : Z) : Z :=
  Z.lor (Z.shiftr x n) (w32 (Z.shiftl x (32 - n))).

Definition ch (x y z : Z) : Z :=
  Z.lxor (Z.land x y) (Z.land (4294967295 - x) z).

Definition maj (x y z : Z) : Z :=
  Z.lxor (Z.lxor (Z.land x y) (Z.land x z)) (Z.land y z).

Definition bsig0 (x : Z) : Z :=
  Z.lxor (Z.lxor (rotr 2 x) (rotr 13 x)) (rotr 22 x).

Definition bsig1 (x : Z) : Z :=
  Z.lxor (Z.lxor (rotr 6 x) (rotr 11 x)) (rotr 25 x).

Definition ssig0 (x : Z) : Z :=
  Z.lxor (Z.lxor (rotr 7 x) (rotr 18 x)) (Z.shiftr x 3).

Definition ssig1 (x : Z) : Z :=
  Z.lxor (Z.lxor (rotr 17 x) (rotr 19 x)) (Z.shiftr x 10).

(** Whether a number from 2 on is prime, by trial division *)
Definition is_prime (n : Z) : bool :=
  forallb (fun d => negb (n mod d =? 0))
          (map Z.of_nat (seq 2 (Z.to_nat n - 2))).

(** The first 64 primes: 2, 3, ..., 311 *)
Definition primes : list Z := filter is_prime (map Z.of_nat (seq 2 310)).

(** The greatest [r + k] with [k < 2 ^ bits] whose cube is at most [n],
    found bit by bit from the highest *)
Fixpoint cube_root (bits : nat) (n r : Z) : Z :=
  match bits with
  | O => r
  | S b =>
      let r' := r + 2 ^ Z.of_nat b in
      cube_root b n (if r' * r' * r' <=? n then r' else r)
  end.

(** The first 32 bits of the fractional parts of the cube roots of the
    first 64 primes *)
Definition round_constants : list Z :=
  Eval vm_compute in
    map (fun p => w32 (cube_root 36 (p * 2 ^ 96) 0)) primes.

(** The first 32 bits of the fractional parts of the square roots of the
    first 8 primes *)
Definition initial_hash : list Z :=
  Eval vm_compute in
    map (fun p => w32 (Z.sqrt (p * 2 ^ 64))) (firstn 8 primes).

(** The message, the byte 0x80, zero bytes up to 56 modulo 64, and the
    length in bits as eight bytes, high byte first *)
Definition pad (msg : list Z) : list Z :=
  let len := Z.of_nat (List.length msg) in
  let zeros := Z.to_nat ((55 - len) mod 64) in
  let bits := 8 * len in
  msg ++ [128] ++ repeat 0 zeros
      ++ map (fun i => Z.shiftr bits (8 * (7 - Z.of_nat i)) mod 256) (seq 0 8).

(** Groups of four bytes as words, high byte first *)
Fixpoint words (fuel : nat) (bytes : list Z) : list Z :=
  match fuel, bytes with
  | S fuel', a :: b :: c :: d :: rest =>
      (a * 16777216 + b * 65536 + c * 256 + d) :: words fuel' rest
  | _, _ => []
  end.

(** Groups of sixteen words *)
Fixpoint blocks (fuel : nat) (ws : list Z) : list (list Z) :=
  match fuel, ws with
  | _, [] => []
  | O, _ => []
  | S fuel', _ => firstn 16 ws :: blocks fuel' (skipn 16 ws)
  end.

(** The words 16 to 63 of the message schedule, from the sixteen before *)
Fixpoint schedule (n : nat) (window : list Z) : list Z :=
  match n with
  | O => []
  | S n' =>
      let w := w32 (ssig1 (nth 14 window 0) + nth 9 window 0
                    + ssig0 (nth 1 window 0) + nth 0 window 0) in
      w :: schedule n' (List.tl window ++ [w])
  end.

Definition state : Type := (Z * Z * Z * Z * Z * Z * Z * Z)%type.

Definition round (s : state) (kw : Z * Z) : state :=
  let '(a, b, c, d, e, f, g, h) := s in
  let t1 := h + bsig1 e + ch e f g + fst kw + snd kw in
  let t2 := bsig0 a + maj a b c in
  (w32 (t1 + t2), a, b, c, w32 (d + t1), e, f, g).

Definition compress (hs : list Z) (block : list Z) : list Z :=
  match hs with
  | [h0; h1; h2; h3; h4; h5; h6; h7] =>
      let w := block ++ schedule 48 block in
      let '(a, b, c, d, e, f, g, h) :=
        fold_left round (combine round_constants w)
                  (h0, h1, h2, h3, h4, h5, h6, h7) in
      [w32 (h0 + a); w32 (h1 + b); w32 (h2 + c); w32 (h3 + d);
       w32 (h4 + e); w32 (h5 + f); w32 (h6 + g); w32 (h7 + h)]
  | _ => hs
  end.

Definition digest (msg : list Z) : list Z :=
  let padded := pad msg in
  let ws := words (List.length padded) padded in
  fold_left compress (blocks (List.length ws) ws) initial_hash.

Definition hex_digit (d : Z) : ascii :=
  nth (Z.to_nat d) (list_ascii_of_string "0123456789abcdef") "0"%char.

(** A word as eight hexadecimal digits *)
Definition hex_word (w : Z) : string :=
  string_of_list_ascii
    (map (fun i => hex_digit (Z.shiftr w (4 * (7 - Z.of_nat i)) mod 16))
         (seq 0 8)).

Definition bytes_of_string (s : string) : list Z :=
  map (fun c => Z.of_N (N_of_ascii c)) (list_ascii_of_string s).

(** [hashlib.sha256(s).hexdigest()] *)
Definition hexdigest (s : string) : string :=
  String.concat EmptyString (map hex_word (digest (bytes_of_string s))).

End SHA256.

(* ================================================================= *)
(** ** Accounts ([simple_auth.py], class [SimpleAuth]) *)

(** One entry of [self.users] *)
Record User : Type := {
  user_id : Z;
  username : string;
  password : string;
  role : string;
  full_name : string;
  email : string;
  u_is_active : bool;
  date_created : string;
  last_login : option string
}.

(** The object: its users, and the current user, which is one of the
    entries of [self.users] itself and so is kept as its position there. *)
Record SimpleAuth : Type := {
  users : list User;
  current_user : option nat
}.

(** [SimpleAuth.hash_password]; a text is the sequence of its bytes. *)
Definition hash_password (password_ : string) : string :=
  SHA256.hexdigest password_.

(** [ROLE_LABELS.get(role, role)] *)
Definition display_role (role_ : string) : string :=
  if (role_ =? "admin")%string then "System Administrator"%string
  else if (role_ =? "user")%string then "Regular User"%string
  else role_.

(** [SimpleAuth.create_default_admin] *)
Definition create_default_admin (now : instant) : list User :=
  [ {| user_id := 1;
       username := "admin";
       password := hash_password "admin";
       role := "admin";
       full_name := "System Administrator";
       email := "admin@canteen.com";
       u_is_active := true;
       date_created := strftime_YmdHMS now;
       last_login := None |} ].

(** The object after [__init__] where no users file exists *)
Definition new_auth (now : instant) : SimpleAuth :=
  {| users := create_default_admin now; current_user := None |}.

(** [SimpleAuth.get_current_user] *)
Definition get_current_user (a : SimpleAuth) : option User :=
  match current_user a with
  | Some i => nth_error (users a) i
  | None => None
  end.

(** [user['last_login'] = ...], on the entry itself *)
Definition logged_in_at (now : instant) (user : User) : User :=
  {| user_id := user_id user;
     username := username user;
     password := password user;
     role := role user;
     full_name := full_name user;
     email := email user;
     u_is_active := u_is_active user;
     date_created := date_created user;
     last_login := Some (strftime_YmdHMS now) |}.

Fixpoint set_nth {A : Type} (i : nat) (x : A) (l : list A) : list A :=
  match l, i with
  | [], _ => []
  | _ :: rest, O => x :: rest
  | y :: rest, S j => y :: set_nth j x rest
  end.

(** The loop of [login] over the users from position [i] on *)
Fixpoint login_users (now : instant) (a : SimpleAuth)
    (username_ password_ : string) (rest : list User) (i : nat)
  : bool * string * SimpleAuth :=
  match rest with
  | [] => (false, "Invalid username or password"%string, a)
  | user :: rest' =>
      if (username user =? username_)%string && u_is_active user then
        if (password user =? hash_password password_)%string then
          (true,
           ("Login successful as " ++ display_role (role user))%string,
           {| users := set_nth i (logged_in_at now user) (users a);
              current_user := Some i |})
        else (false, "Invalid password"%string, a)
      else login_users now a username_ password_ rest' (S i)
  end.

(** [SimpleAuth.login]: the answer and the object after the call *)
Definition login (now : instant) (a : SimpleAuth)
    (username_ password_ : string) : bool * string * SimpleAuth :=
  if (username_ =? EmptyString)%string || (password_ =? EmptyString)%string
  then (false, "Username and password are required"%string, a)
  else login_users now a username_ password_ (users a) 0.

(** [SimpleAuth.logout] *)
Definition logout (a : SimpleAuth) : SimpleAuth :=
  {| users := users a; current_user := None |}.

(** [SimpleAuth.is_admin] *)
Definition is_admin (a : SimpleAuth) : bool :=
  match get_current_user a with
  | None => false
  | Some user => (role user =? "admin")%string
  end.

(** [SimpleAuth.add_user] *)
Definition add_user (now : instant) (a : SimpleAuth)
    (username_ password_ role_ full_name_ email_ : string)
  : bool * string * SimpleAuth :=
  if negb (is_admin a)
  then (false, "Only admin users can add accounts"%string, a)
  else if (username_ =? EmptyString)%string
          || (password_ =? EmptyString)%string
          || (role_ =? EmptyString)%string
          || (full_name_ =? EmptyString)%string
  then (false, "All fields are required"%string, a)
  else if existsb (fun user => (username user =? username_)%string) (users a)
  then (false, "Username already exists"%string, a)
  else
    let new_user :=
      {| user_id := Z.of_nat (List.length (users a)) + 1;
         username := username_;
         password := hash_password password_;
         role := role_;
         full_name := full_name_;
         email := email_;
         u_is_active := true;
         date_created := strftime_YmdHMS now;
         last_login := None |} in
    (true,
     ("User '" ++ username_ ++ "' added successfully as "
      ++ display_role role_)%string,
     {| users := users a ++ [new_user]; current_user := current_user a |}).

(** [SimpleAuth.get_all_users] *)
Definition get_all_users (a : SimpleAuth) : list User :=
  if is_admin a then users a else [].

(** The objects a fresh [SimpleAuth] can become through its methods *)
Inductive reachable : SimpleAuth -> Prop :=
| reach_new now : reachable (new_auth now)
| reach_login now a n p : reachable a -> reachable (snd (login now a n p))
| reach_logout a : reachable a -> reachable (logout a)
| reach_add_user now a n p r f e :
    reachable a -> reachable (snd (add_user now a n p r f e)).

(* ================================================================= *)
(** ** Accounts *)

(** No active user of a list has the name *)
Definition no_active_user (n : string) (l : list User) : Prop :=
  forall user, In user l -> username user = n -> u_is_active user = false.

(** What holds of every object a fresh [SimpleAuth] can become *)
Definition auth_consistent (a : SimpleAuth) : Prop :=
  map user_id (users a) = ids_in_turn (List.length (users a)) /\
  NoDup (map username (users a)) /\
  Forall (fun user => u_is_active user = true) (users a) /\
  (forall i, current_user a = Some i -> (i < List.length (users a))%nat) /\
  exists user rest,
    users a = user :: rest /\ username user = "admin"%string /\
    role user = "admin"%string /\ password user = hash_password "admin".

(* ================================================================= *)
(** ** Sample configuration, food items and accounts *)

(** The configuration [load_config] falls back to *)
Definition default_config : Config :=
  {| menu_items := ["Chapati & Beans"; "Rice & Stew"; "Ugali & Sukuma";
                    "Tea & Mandazi"; "Chips & Chicken"; "Fruit Salad";
                    "Juice"; "Samosa"]%string;
     prices := [80; 120; 100; 50; 150; 80; 60; 40]%Q |}.

(** The row of the waste table for the juice of the odd price *)
Definition odd_price_waste_row : WasteSummary :=
  {| ws_menu_item := "Juice";
     ws_waste_quantity := 1;
     ws_waste_cost := 7503 # 5000;
     ws_quantity_sold := 2;
     ws_waste_percentage := Fin 50 |}.

(** The most profitable of the ten items *)
Definition best_of_ten : MenuPerformance :=
  {| mp_menu_item := "Ugali & Sukuma";
     total_sold := 10;
     avg_daily_sold := Fin 10;
     total_revenue := 1000;
     total_waste := 0;
     total_waste_cost := 0;
     mp_waste_percentage := Fin 0;
     profitability := 1000 |}.

(** Pilau, added to an empty manager *)
Definition pilau_added : list FoodItem :=
  snd (add_food_item monday [] "Pilau" "lunch" 150 90 ["rice"; "beef"]%string
         25 ["non_vegetarian"]%string).

(** Pilau and porridge, five pilau sold *)
Definition two_food_items : list FoodItem :=
  update_item_sales
    (snd (add_food_item (monday + timedelta_days 1) pilau_added
            "Porridge" "breakfast" 30 (25 # 2) [] 10 []))
    "Pilau" 5.

(** A pilau that was switched off, and the pilau sold now at 180 *)
Definition old_pilau : FoodItem :=
  {| item_id := 1; name := "Pilau"; category := "lunch";
     selling_price := 150; cost_price := 90; profit_margin := 60;
     ingredients := []; preparation_time := 25; dietary_tags := [];
     is_active := false; date_added := "2025-11-03";
     fi_total_sold := 40; popularity_score := 2 # 5 |}.

Definition new_pilau : FoodItem :=
  {| item_id := 2; name := "Pilau"; category := "lunch";
     selling_price := 180; cost_price := 100; profit_margin := 80;
     ingredients := []; preparation_time := 25; dietary_tags := [];
     is_active := true; date_added := "2025-11-04";
     fi_total_sold := 0; popularity_score := 0 |}.

(** The default admin, logged in *)
Definition admin_session : SimpleAuth :=
  snd (login (monday + 28800000000) (new_auth monday) "admin" "admin").

(** The admin has added the cashier Mary *)
Definition mary_added : SimpleAuth :=
  snd (add_user (monday + 30000000000) admin_session
         "mary" "s3cret" "user" "Mary Wanjiru" "mary@canteen.com").

(* ================================================================= *)
(** ** Facts about lists *)

Lemma take_app {A : Type} (rows : list A) (i1 i2 : list nat) :
  take rows (i1 ++ i2) = take rows i1 ++ take rows i2.
Proof. unfold take. apply flat_map_app. Qed.

Lemma take_rev {A : Type} (rows : list A) (idx : list nat) :
  take rows (rev idx) = rev (take rows idx).
Proof.
  induction idx as [|i idx IH]; simpl; [reflexivity|].
  rewrite take_app, IH. unfold take at 2. simpl. rewrite app_nil_r.
  destruct (nth_error rows i); simpl; [reflexivity|apply app_nil_r].
Qed.

Lemma take_map {A B : Type} (f : A -> B) (rows : list A) (idx : list nat) :
  take (map f rows) idx = map f (take rows idx).
Proof.
  induction idx as [|i idx IH]; simpl; [reflexivity|].
  rewrite map_app, IH, nth_error_map.
  destruct (nth_error rows i); reflexivity.
Qed.

Lemma take_seq_from {A : Type} (pre rows : list A) :
  take (pre ++ rows) (seq (List.length pre) (List.length rows)) = rows.
Proof.
  revert pre. induction rows as [|r rows IH]; intros pre; simpl; [reflexivity|].
  rewrite nth_error_app2 by lia. rewrite Nat.sub_diag. simpl.
  f_equal.
  specialize (IH (pre ++ [r])).
  rewrite <- app_assoc, length_app in IH. simpl in IH.
  rewrite Nat.add_1_r in IH. exact IH.
Qed.

Lemma take_seq {A : Type} (rows : list A) :
  take rows (seq 0 (List.length rows)) = rows.
Proof. exact (take_seq_from [] rows). Qed.

Lemma take_Permutation {A : Type} (rows : list A) (idx : list nat) :
  Permutation idx (seq 0 (List.length rows)) ->
  Permutation (take rows idx) rows.
Proof.
  intros Hp. rewrite <- (take_seq rows) at 2.
  unfold take. apply Permutation_flat_map, Hp.
Qed.

(** Taking rows at positions that exist is a [map]. *)
Lemma take_in_range {A : Type} (rows : list A) (d : A) (idx : list nat) :
  Forall (fun i => (i < List.length rows)%nat) idx ->
  take rows idx = map (fun i => nth i rows d) idx.
Proof.
  induction 1 as [|i idx Hi _ IH]; simpl; [reflexivity|].
  rewrite IH, (nth_error_nth' rows d Hi). reflexivity.
Qed.

Lemma map_nth_seq {A : Type} (l : list A) (d : A) :
  map (fun i => nth i l d) (seq 0 (List.length l)) = l.
Proof.
  rewrite <- take_in_range.
  - apply take_seq.
  - apply Forall_forall. intros i Hi. apply in_seq in Hi. lia.
Qed.

Lemma filter_partition_Permutation {A : Type} (f : A -> bool) (l : list A) :
  Permutation (filter (fun x => negb (f x)) l ++ filter f l) l.
Proof.
  induction l as [|x l IH]; simpl; [constructor|].
  destruct (f x); simpl.
  - apply Permutation_sym, Permutation_cons_app, Permutation_sym, IH.
  - constructor. exact IH.
Qed.

Lemma StronglySorted_map {A B : Type} (R : B -> B -> Prop) (f : A -> B)
    (l : list A) :
  StronglySorted (fun a b => R (f a) (f b)) l <-> StronglySorted R (map f l).
Proof.
  induction l as [|a l IH]; simpl.
  - split; constructor.
  - split; intros Hs; apply StronglySorted_inv in Hs as [Hs Hall];
      constructor; try (apply IH; exact Hs).
    + rewrite Forall_forall in *. intros b Hb.
      apply in_map_iff in Hb as (x & <- & Hx). apply Hall, Hx.
    + rewrite Forall_forall in *. intros b Hb.
      apply Hall, in_map, Hb.
Qed.

Lemma StronglySorted_app {A : Type} (R : A -> A -> Prop) (l1 l2 : list A) :
  StronglySorted R l1 -> StronglySorted R l2 ->
  (forall a b, In a l1 -> In b l2 -> R a b) ->
  StronglySorted R (l1 ++ l2).
Proof.
  induction l1 as [|a l1 IH]; simpl; intros H1 H2 H12; [exact H2|].
  apply StronglySorted_inv in H1 as [H1 Ha].
  constructor.
  - apply IH; auto.
  - apply Forall_app. split; [exact Ha|].
    apply Forall_forall. intros b Hb. apply H12; auto.
Qed.

Lemma StronglySorted_rev {A : Type} (R : A -> A -> Prop) (l : list A) :
  StronglySorted R l -> StronglySorted (fun a b => R b a) (rev l).
Proof.
  induction 1 as [|a l Hs IH Ha]; simpl; [constructor|].
  apply StronglySorted_app; [exact IH|repeat constructor|].
  intros x y Hx [<-|[]]. apply in_rev in Hx.
  rewrite Forall_forall in Ha. apply Ha, Hx.
Qed.

Lemma StronglySorted_weaken {A : Type} (R S : A -> A -> Prop) (l : list A) :
  (forall a b, In a l -> In b l -> R a b -> S a b) ->
  StronglySorted R l -> StronglySorted S l.
Proof.
  intros HRS Hs. induction Hs as [|a l Hs IH Ha]; [constructor|].
  constructor.
  - apply IH. intros x y Hx Hy. apply HRS; now right.
  - rewrite Forall_forall in *. intros b Hb.
    apply HRS; [now left|now right|apply Ha, Hb].
Qed.

Lemma StronglySorted_filter {A : Type} (R : A -> A -> Prop) (f : A -> bool)
    (l : list A) :
  StronglySorted R l -> StronglySorted R (filter f l).
Proof.
  induction 1 as [|a l Hs IH Ha]; simpl; [constructor|].
  destruct (f a); [|exact IH].
  constructor; [exact IH|].
  rewrite Forall_forall in *. intros b Hb. apply filter_In in Hb as [Hb _].
  apply Ha, Hb.
Qed.

(** In a sorted list every element of a prefix stands in the relation to
    every element of the rest. *)
Lemma StronglySorted_split {A : Type} (R : A -> A -> Prop) (l1 l2 : list A) :
  StronglySorted R (l1 ++ l2) ->
  forall a b, In a l1 -> In b l2 -> R a b.
Proof.
  induction l1 as [|x l1 IH]; simpl; intros Hs a b Ha Hb; [contradiction|].
  apply StronglySorted_inv in Hs as [Hs Hx].
  destruct Ha as [<-|Ha].
  - rewrite Forall_forall in Hx. apply Hx, in_or_app. now right.
  - eapply IH; eauto.
Qed.

(* ================================================================= *)
(** ** Sorting a frame *)

Section SortingFacts.
Variable argsort : list Q -> list nat.
Hypothesis Hspec : argsort_spec argsort.

Lemma argsort_in_range (ks : list Q) :
  Forall (fun a => (a < List.length ks)%nat) (argsort ks).
Proof.
  apply Forall_forall. intros a Ha.
  destruct (Hspec ks) as [Hp _].
  apply (Permutation_in _ Hp) in Ha. apply in_seq in Ha. lia.
Qed.

Lemma nargsort_eq (items : list (option Q)) (ascending : bool) :
  nargsort argsort items ascending =
  sorted_positions argsort items ascending
  ++ filter (is_nan items) (seq 0 (List.length items)).
Proof. reflexivity. Qed.

Lemma indexer_Permutation (idx : list nat) (f : nat -> Q) :
  Permutation (map (fun j => nth j idx 0%nat) (argsort (map f idx))) idx.
Proof.
  destruct (Hspec (map f idx)) as [Hp _].
  rewrite length_map in Hp.
  rewrite (Permutation_map _ Hp). rewrite map_nth_seq. reflexivity.
Qed.

Lemma sorted_positions_Permutation (items : list (option Q)) (asc : bool) :
  Permutation (sorted_positions argsort items asc)
    (filter (fun i => negb (is_nan items i)) (seq 0 (List.length items))).
Proof.
  unfold sorted_positions. destruct asc.
  - apply indexer_Permutation.
  - rewrite <- Permutation_rev, indexer_Permutation.
    apply Permutation_sym, Permutation_rev.
Qed.

Lemma nargsort_Permutation (items : list (option Q)) (asc : bool) :
  Permutation (nargsort argsort items asc) (seq 0 (List.length items)).
Proof.
  rewrite nargsort_eq, sorted_positions_Permutation.
  apply filter_partition_Permutation.
Qed.

(** [sort_values] rearranges the rows and neither drops nor adds one. *)
Lemma sort_values_Permutation {A : Type} (rows : list A)
    (by_ : A -> option Q) (asc : bool) :
  Permutation (sort_values argsort rows by_ asc) rows.
Proof.
  unfold sort_values. apply take_Permutation.
  rewrite <- (length_map by_). apply nargsort_Permutation.
Qed.

Lemma nth_error_not_nan (items : list (option Q)) (i : nat) :
  (i < List.length items)%nat -> is_nan items i = false ->
  nth_error items i = Some (Some (value_at items i)).
Proof.
  intros Hi Hn. rewrite (nth_error_nth' items None Hi).
  unfold is_nan, value_at in *. destruct (nth i items None); [reflexivity|discriminate].
Qed.

Lemma take_indexer (items : list (option Q)) (idx : list nat) :
  Forall (fun i => (i < List.length items)%nat /\ is_nan items i = false) idx ->
  take items (map (fun j => nth j idx 0%nat) (argsort (map (value_at items) idx)))
  = map Some (map (fun a => nth a (map (value_at items) idx) 0%Q)
                  (argsort (map (value_at items) idx))).
Proof.
  intros Hidx.
  pose proof (argsort_in_range (map (value_at items) idx)) as Hr.
  rewrite length_map in Hr.
  induction Hr as [|a l Ha _ IH]; simpl; [reflexivity|].
  rewrite <- IH. clear IH.
  rewrite Forall_forall in Hidx.
  destruct (Hidx (nth a idx 0%nat) (nth_In _ _ Ha)) as [Hi Hn].
  rewrite (nth_error_not_nan _ _ Hi Hn). simpl. do 2 f_equal.
  rewrite (nth_indep _ 0%Q (value_at items 0%nat)) by now rewrite length_map.
  symmetry. apply map_nth.
Qed.

Lemma take_nan_positions (items : list (option Q)) :
  Forall (eq None)
    (take items (filter (is_nan items) (seq 0 (List.length items)))).
Proof.
  apply Forall_forall. intros x Hx. unfold take in Hx.
  apply in_flat_map in Hx as (i & Hi & Hx).
  apply filter_In in Hi as [Hi Hn]. apply in_seq in Hi.
  rewrite (nth_error_nth' items None) in Hx by lia.
  destruct Hx as [<-|[]]. unfold is_nan in Hn.
  destruct (nth i items None); [discriminate|reflexivity].
Qed.

(** The keys of a sorted frame: the present ones in order, then the
    missing ones. *)
Lemma nargsort_keys (items : list (option Q)) (asc : bool) :
  exists (vs : list Q) (nans : list (option Q)),
    take items (nargsort argsort items asc) = map Some vs ++ nans /\
    Forall (eq None) nans /\
    StronglySorted (fun x y => if asc then (x <= y)%Q else (y <= x)%Q) vs.
Proof.
  rewrite nargsort_eq, take_app.
  set (pos := filter (fun i => negb (is_nan items i)) (seq 0 (List.length items))).
  assert (Hpos : Forall (fun i => (i < List.length items)%nat /\ is_nan items i = false) pos).
  { apply Forall_forall. intros i Hi. apply filter_In in Hi as [Hi Hn].
    apply in_seq in Hi. split; [lia|]. now apply negb_true_iff. }
  unfold sorted_positions. fold pos.
  destruct asc.
  - eexists. eexists. split; [|split].
    + rewrite (take_indexer items pos Hpos). reflexivity.
    + apply take_nan_positions.
    + apply (proj1 (StronglySorted_map Qle _ _)).
      apply (Hspec (map (value_at items) pos)).
  - assert (Hrev : Forall (fun i => (i < List.length items)%nat /\ is_nan items i = false) (rev pos))
      by now apply Forall_rev.
    eexists. eexists. split; [|split].
    + rewrite take_rev, (take_indexer items (rev pos) Hrev), <- map_rev.
      reflexivity.
    + apply take_nan_positions.
    + apply (StronglySorted_rev Qle), (proj1 (StronglySorted_map Qle _ _)).
      apply (Hspec (map (value_at items) (rev pos))).
Qed.

(** A descending sort by a column without missing values. *)
Lemma sort_values_descending {A : Type} (rows : list A) (f : A -> Q) :
  StronglySorted (fun a b => (f b <= f a)%Q)
    (sort_values argsort rows (fun r => Some (f r)) false).
Proof.
  destruct (nargsort_keys (map (fun r => Some (f r)) rows) false)
    as (vs & nans & Hk & Hn & Hs).
  unfold sort_values. rewrite take_map in Hk.
  set (out := take rows _) in *.
  assert (nans = []) as ->.
  { destruct nans as [|x nans]; [reflexivity|].
    apply Forall_inv in Hn. subst x.
    assert (Hin : In None (map (fun r => Some (f r)) out))
      by (rewrite Hk; apply in_or_app; right; now left).
    apply in_map_iff in Hin as (? & Hd & _). discriminate. }
  rewrite app_nil_r, <- (map_map f Some) in Hk.
  assert (Hv : map f out = vs).
  { clear Hs. revert Hk. generalize (map f out). intros l. revert vs.
    induction l as [|x l IH]; intros [|v vs]; simpl; intros Hk;
      try discriminate; [reflexivity|].
    injection Hk as -> Hk. f_equal. now apply IH. }
  apply (proj2 (StronglySorted_map (fun x y => (y <= x)%Q) f out)).
  rewrite Hv. exact Hs.
Qed.
End SortingFacts.

(* ================================================================= *)
(** ** The insertion sorts meet numpy's promise *)

Lemma Qltb_lt (a b : Q) : Qltb a b = true <-> (a < b)%Q.
Proof.
  unfold Qltb. rewrite negb_true_iff. split.
  - intros Hf. apply Qnot_le_lt. intros Hle.
    apply Qle_bool_iff in Hle. congruence.
  - intros Hlt. destruct (Qle_bool b a) eqn:E; [|reflexivity].
    apply Qle_bool_iff in E. exfalso. exact (Qlt_not_le _ _ Hlt E).
Qed.

Lemma Qltb_ge (a b : Q) : Qltb a b = false <-> (b <= a)%Q.
Proof.
  unfold Qltb. rewrite negb_false_iff. apply Qle_bool_iff.
Qed.

Lemma Qle_bool_false (a b : Q) : Qle_bool a b = false -> (b < a)%Q.
Proof.
  intros Hf. apply Qltb_lt. unfold Qltb. now rewrite Hf.
Qed.

Lemma Qle_bool_sorts : sorts_ascending Qle_bool.
Proof.
  intros a b. split.
  - apply Qle_bool_imp_le.
  - intros Hf. apply Qlt_le_weak, Qle_bool_false, Hf.
Qed.

Lemma Qltb_sorts : sorts_ascending Qltb.
Proof.
  intros a b. split.
  - intros Ht. apply Qlt_le_weak, Qltb_lt, Ht.
  - apply Qltb_ge.
Qed.

Section InsertionSort.
Variable before : Q -> Q -> bool.
Hypothesis Hbefore : sorts_ascending before.

Lemma insert_by_Permutation (x : Q * nat) (l : list (Q * nat)) :
  Permutation (insert_by before x l) (x :: l).
Proof.
  induction l as [|y l IH]; simpl; [reflexivity|].
  destruct (before (fst x) (fst y)); [reflexivity|].
  rewrite IH. apply perm_swap.
Qed.

Lemma insertion_Permutation (l : list (Q * nat)) :
  Permutation (fold_right (insert_by before) [] l) l.
Proof.
  induction l as [|x l IH]; simpl; [reflexivity|].
  rewrite insert_by_Permutation. now constructor.
Qed.

Lemma insert_by_sorted (x : Q * nat) (l : list (Q * nat)) :
  StronglySorted (fun p q => (fst p <= fst q)%Q) l ->
  StronglySorted (fun p q => (fst p <= fst q)%Q) (insert_by before x l).
Proof.
  induction 1 as [|y l Hs IH Hy]; simpl; [repeat constructor|].
  destruct (before (fst x) (fst y)) eqn:E.
  - apply (proj1 (Hbefore _ _)) in E.
    constructor; [now constructor|].
    constructor; [exact E|].
    rewrite Forall_forall in *. intros z Hz.
    eapply Qle_trans; [exact E|apply Hy, Hz].
  - apply (proj2 (Hbefore _ _)) in E.
    constructor; [exact IH|].
    rewrite Forall_forall in *. intros z Hz.
    apply (Permutation_in _ (insert_by_Permutation x l)) in Hz.
    destruct Hz as [<-|Hz]; [exact E|apply Hy, Hz].
Qed.

Lemma insertion_sorted (l : list (Q * nat)) :
  StronglySorted (fun p q => (fst p <= fst q)%Q)
    (fold_right (insert_by before) [] l).
Proof.
  induction l as [|x l IH]; simpl; [constructor|].
  apply insert_by_sorted, IH.
Qed.
End InsertionSort.

Lemma combine_seq_nth (pre ks : list Q) (k : Q) (i : nat) :
  In (k, i) (combine ks (seq (List.length pre) (List.length ks))) ->
  nth i (pre ++ ks) 0%Q = k /\ (List.length pre <= i)%nat.
Proof.
  revert pre. induction ks as [|x ks IH]; intros pre; simpl; [contradiction|].
  intros [Heq|Hin].
  - injection Heq as -> <-. split; [|lia].
    rewrite app_nth2, Nat.sub_diag by lia. reflexivity.
  - specialize (IH (pre ++ [x])).
    rewrite length_app, Nat.add_1_r, <- app_assoc in IH. simpl in IH.
    destruct (IH Hin). split; [assumption|lia].
Qed.

Lemma map_snd_combine_seq (ks : list Q) (s : nat) :
  map snd (combine ks (seq s (List.length ks))) = seq s (List.length ks).
Proof.
  revert s. induction ks as [|x ks IH]; intros s; simpl; [reflexivity|].
  now rewrite IH.
Qed.

Lemma map_fst_combine_seq (ks : list Q) (s : nat) :
  map fst (combine ks (seq s (List.length ks))) = ks.
Proof.
  revert s. induction ks as [|x ks IH]; intros s; simpl; [reflexivity|].
  now rewrite IH.
Qed.

Lemma insertion_argsort_by_spec (before : Q -> Q -> bool) :
  sorts_ascending before -> argsort_spec (insertion_argsort_by before).
Proof.
  intros Hb ks. unfold insertion_argsort_by.
  set (pairs := combine ks (seq 0 (List.length ks))).
  pose proof (insertion_Permutation before pairs) as Hp.
  split.
  - rewrite (Permutation_map snd Hp). unfold pairs.
    now rewrite map_snd_combine_seq.
  - apply (proj1 (StronglySorted_map
                    (fun i j => (nth i ks 0 <= nth j ks 0)%Q) snd _)).
    eapply StronglySorted_weaken; [|apply (insertion_sorted before Hb)].
    intros [k i] [k' i'] Hin Hin' Hle. simpl in *.
    apply (Permutation_in _ Hp) in Hin, Hin'.
    apply (combine_seq_nth []) in Hin as [Hk _].
    apply (combine_seq_nth []) in Hin' as [Hk' _].
    simpl in Hk, Hk'. now rewrite Hk, Hk'.
Qed.

Lemma insertion_argsort_spec : argsort_spec insertion_argsort.
Proof. apply insertion_argsort_by_spec, Qle_bool_sorts. Qed.

Lemma reversing_argsort_spec : argsort_spec reversing_argsort.
Proof. apply insertion_argsort_by_spec, Qltb_sorts. Qed.

Lemma sort_Q_Permutation (l : list Q) : Permutation (sort_Q l) l.
Proof.
  unfold sort_Q.
  rewrite (Permutation_map fst (insertion_Permutation Qle_bool _)).
  now rewrite map_fst_combine_seq.
Qed.

Lemma sort_Q_sorted (l : list Q) : StronglySorted Qle (sort_Q l).
Proof.
  unfold sort_Q. apply (proj1 (StronglySorted_map Qle fst _)).
  apply insertion_sorted, Qle_bool_sorts.
Qed.

(* ================================================================= *)
(** ** Grouping *)

Lemma string_ltb_lt (a b : string) :
  String.ltb a b = true <-> String_as_OT.lt a b.
Proof.
  rewrite <- String_as_OT.cmp_lt. unfold String.ltb, String_as_OT.cmp.
  destruct (String.compare a b); split; congruence.
Qed.

#[export] Instance string_key_laws : KeyOrderLaws string.
Proof.
  split; simpl.
  - apply String.eqb_eq.
  - intros a. destruct (String.ltb a a) eqn:E; [|reflexivity].
    apply string_ltb_lt in E.
    exfalso. exact (String_as_OT.lt_not_eq _ _ E eq_refl).
  - intros a b c Hab Hbc. apply string_ltb_lt in Hab, Hbc.
    apply string_ltb_lt. eapply String_as_OT.lt_trans; eauto.
  - intros a b Hne Hlt. unfold String.ltb in *.
    rewrite String.compare_antisym.
    destruct (String.compare a b) eqn:E; simpl; try reflexivity; try discriminate.
    apply String.compare_eq_iff in E. subst.
    now rewrite String.eqb_refl in Hne.
Qed.

#[export] Instance instant_key_laws : KeyOrderLaws Z.
Proof.
  split; simpl; intros.
  - apply Z.eqb_eq.
  - apply Z.ltb_irrefl.
  - apply Z.ltb_lt. apply Z.ltb_lt in H, H0. lia.
  - apply Z.ltb_lt. apply Z.eqb_neq in H. apply Z.ltb_ge in H0. lia.
Qed.

Section GroupByFacts.
Context {R K : Type} `{KeyOrderLaws K} (key : R -> K).

Lemma k_eqb_refl (a : K) : k_eqb a a = true.
Proof. now apply k_eqb_eq. Qed.

Lemma insert_key_In (k k' : K) (ks : list K) :
  In k' (insert_key k ks) <-> k' = k \/ In k' ks.
Proof.
  induction ks as [|x ks IH]; simpl.
  - intuition.
  - destruct (k_eqb k x) eqn:E.
    + apply k_eqb_eq in E. subst. simpl. intuition.
    + destruct (k_ltb k x); simpl; [intuition|].
      rewrite IH. intuition.
Qed.

Lemma insert_key_sorted (k : K) (ks : list K) :
  StronglySorted (fun a b => k_ltb a b = true) ks ->
  StronglySorted (fun a b => k_ltb a b = true) (insert_key k ks).
Proof.
  induction 1 as [|x ks Hs IH Hx]; simpl; [repeat constructor|].
  destruct (k_eqb k x) eqn:E; [now constructor|].
  destruct (k_ltb k x) eqn:L.
  - constructor; [now constructor|].
    constructor; [exact L|].
    rewrite Forall_forall in *. intros y Hy.
    eapply k_ltb_trans; [exact L|apply Hx, Hy].
  - constructor; [exact IH|].
    rewrite Forall_forall in *. intros y Hy.
    apply insert_key_In in Hy as [->|Hy]; [|apply Hx, Hy].
    apply k_ltb_total; [|exact L]. exact E.
Qed.

(** The keys of the groups are strictly ascending. *)
Lemma group_keys_sorted (l : list R) :
  StronglySorted (fun a b => k_ltb a b = true) (group_keys key l).
Proof.
  induction l as [|r l IH]; simpl; [constructor|].
  apply insert_key_sorted, IH.
Qed.

(** There is a group for a key exactly when a row has that key. *)
Lemma group_keys_In (l : list R) (k : K) :
  In k (group_keys key l) <-> exists r, In r l /\ key r = k.
Proof.
  induction l as [|r l IH]; simpl.
  - split; [contradiction|]. intros (r & [] & _).
  - rewrite insert_key_In, IH. split.
    + intros [->|(r' & Hr' & Hk)]; eauto.
    + intros (r' & [<-|Hr'] & Hk); [now left|right; eauto].
Qed.

Lemma sorted_ltb_NoDup (ks : list K) :
  StronglySorted (fun a b => k_ltb a b = true) ks -> NoDup ks.
Proof.
  induction 1 as [|x ks Hs IH Hx]; constructor; [|exact IH].
  intros Hin. rewrite Forall_forall in Hx. specialize (Hx x Hin).
  now rewrite k_ltb_irrefl in Hx.
Qed.

Lemma group_keys_NoDup (l : list R) : NoDup (group_keys key l).
Proof. apply sorted_ltb_NoDup, group_keys_sorted. Qed.

Lemma groupby_keys (l : list R) :
  map fst (groupby key l) = group_keys key l.
Proof. unfold groupby. rewrite map_map. simpl. apply map_id. Qed.

(** A group holds the rows of its key, and holds one at least. *)
Lemma groupby_In (l : list R) (k : K) (g : list R) :
  In (k, g) (groupby key l) ->
  g = filter (fun r => k_eqb (key r) k) l /\ g <> [].
Proof.
  unfold groupby. intros Hin.
  apply in_map_iff in Hin as (k' & Heq & Hk).
  injection Heq as Hk' Hg. subst k' g. split; [reflexivity|].
  apply group_keys_In in Hk as (r & Hr & Hkr).
  intros Hnil.
  assert (Hin : In r (filter (fun r => k_eqb (key r) k) l)).
  { apply filter_In. split; [exact Hr|]. now apply k_eqb_eq. }
  now rewrite Hnil in Hin.
Qed.
End GroupByFacts.

(* ================================================================= *)
(** ** The recommendation list *)

Lemma take_In {A : Type} (rows : list A) (idx : list nat) (x : A) :
  In x (take rows idx) -> In x rows.
Proof.
  unfold take. intros Hin. apply in_flat_map in Hin as (i & _ & Hx).
  destruct (nth_error rows i) eqn:E; [|contradiction].
  destruct Hx as [<-|[]]. eapply nth_error_In, E.
Qed.

Lemma sort_values_In {A : Type} (argsort : list Q -> list nat) (rows : list A)
    (by_ : A -> option Q) (asc : bool) (x : A) :
  In x (sort_values argsort rows by_ asc) -> In x rows.
Proof. apply take_In. Qed.

(** The three segments of the list, one per rule *)
Lemma generate_recommendations_eq (argsort : list Q -> list nat) (e : Env) :
  generate_recommendations argsort e =
  map warning_rec (high_waste argsort e)
  ++ map info_rec (head 2 (low_performers argsort e))
  ++ (if fgt (total_waste_percent e) (Fin 15)
      then [critical_rec (total_waste_percent e)] else []).
Proof.
  unfold generate_recommendations. simpl. now rewrite <- app_assoc.
Qed.

Lemma of_type_all (t : string) (recs : list Recommendation) :
  Forall (fun r => rec_type r = t) recs -> of_type t recs = recs.
Proof.
  induction 1 as [|r recs Hr _ IH]; simpl; [reflexivity|].
  rewrite Hr, String.eqb_refl. f_equal. exact IH.
Qed.

Lemma of_type_none (t : string) (recs : list Recommendation) :
  Forall (fun r => rec_type r <> t) recs -> of_type t recs = [].
Proof.
  induction 1 as [|r recs Hr _ IH]; simpl; [reflexivity|].
  apply String.eqb_neq in Hr. now rewrite Hr.
Qed.

Lemma Forall_map_type {A : Type} (f : A -> Recommendation) (P : string -> Prop)
    (l : list A) :
  (forall a, P (rec_type (f a))) -> Forall (fun r => P (rec_type r)) (map f l).
Proof.
  intros Hf. apply Forall_forall. intros r Hr.
  apply in_map_iff in Hr as (a & <- & _). apply Hf.
Qed.


Lemma warnings_of_recommendations (argsort : list Q -> list nat) (e : Env) :
  of_type "warning" (generate_recommendations argsort e)
  = map warning_rec (high_waste argsort e).
Proof.
  rewrite generate_recommendations_eq. unfold of_type.
  rewrite !filter_app.
  fold (of_type "warning" (map warning_rec (high_waste argsort e))).
  fold (of_type "warning" (map info_rec (head 2 (low_performers argsort e)))).
  rewrite of_type_all, of_type_none.
  - destruct (fgt (total_waste_percent e) (Fin 15)); simpl;
      apply app_nil_r.
  - apply (Forall_map_type info_rec (fun t => t <> "warning"%string)).
    intros a. discriminate.
  - apply (Forall_map_type warning_rec (fun t => t = "warning"%string)).
    reflexivity.
Qed.

Lemma infos_of_recommendations (argsort : list Q -> list nat) (e : Env) :
  of_type "info" (generate_recommendations argsort e)
  = map info_rec (head 2 (low_performers argsort e)).
Proof.
  rewrite generate_recommendations_eq. unfold of_type.
  rewrite !filter_app.
  fold (of_type "info" (map warning_rec (high_waste argsort e))).
  fold (of_type "info" (map info_rec (head 2 (low_performers argsort e)))).
  rewrite (of_type_none "info" (map warning_rec _)),
          (of_type_all "info" (map info_rec _)).
  - generalize (head 2 (low_performers argsort e)). intros l.
    destruct (fgt (total_waste_percent e) (Fin 15)); simpl;
      apply app_nil_r.
  - apply (Forall_map_type info_rec (fun t => t = "info"%string)).
    reflexivity.
  - apply (Forall_map_type warning_rec (fun t => t <> "info"%string)).
    intros a. discriminate.
Qed.


(* ================================================================= *)
(** ** Percentages *)


(** The percentage of a zero denominator *)
Lemma percentage_of_zero (a b : Q) :
  (b == 0)%Q ->
  fmul (fdiv (Fin a) (Fin b)) (Fin 100) =
  if Qltb 0 a then PInf else if Qltb a 0 then NInf else NaN.
Proof.
  intros Hb. apply Qeq_bool_iff in Hb. unfold fdiv. rewrite Hb.
  destruct (Qltb 0 a); [reflexivity|]. now destruct (Qltb a 0).
Qed.

(* ================================================================= *)
(** ** Rule 3: the ledger-wide waste ratio *)


(* ================================================================= *)
(** ** Rule 1: items with a high waste percentage *)

Lemma get_waste_analysis_eq (argsort : list Q -> list nat) (e : Env) :
  get_waste_analysis argsort e =
  sort_values argsort
    (map waste_summary_row (groupby menu_item (load_sales_data e)))
    (fun r => Some (ws_waste_cost r)) false.
Proof. reflexivity. Qed.

Lemma waste_analysis_row (argsort : list Q -> list nat) (e : Env)
    (row : WasteSummary) :
  In row (get_waste_analysis argsort e) ->
  row = waste_summary_row
          (ws_menu_item row,
           filter (fun r => String.eqb (menu_item r) (ws_menu_item row))
                  (load_sales_data e)).
Proof.
  rewrite get_waste_analysis_eq. intros Hin.
  apply sort_values_In, in_map_iff in Hin as ([k g] & <- & Hg).
  apply (groupby_In menu_item) in Hg as [-> _]. reflexivity.
Qed.

(** The waste table has one row per item. *)
Lemma waste_analysis_same_item (argsort : list Q -> list nat) (e : Env)
    (r1 r2 : WasteSummary) :
  In r1 (get_waste_analysis argsort e) ->
  In r2 (get_waste_analysis argsort e) ->
  ws_menu_item r1 = ws_menu_item r2 -> r1 = r2.
Proof.
  intros H1 H2 Heq.
  rewrite (waste_analysis_row _ _ _ H1), (waste_analysis_row _ _ _ H2), Heq.
  reflexivity.
Qed.

Lemma append_cancel_l (p a b : string) :
  (p ++ a)%string = (p ++ b)%string -> a = b.
Proof.
  induction p as [|c p IH]; simpl; intros Heq; [exact Heq|].
  injection Heq as Heq. apply IH, Heq.
Qed.

Lemma warning_rec_item (r1 r2 : WasteSummary) :
  warning_rec r1 = warning_rec r2 -> ws_menu_item r1 = ws_menu_item r2.
Proof.
  intros Heq. apply (f_equal rec_action) in Heq.
  unfold warning_rec in Heq. cbn [rec_action] in Heq.
  exact (append_cancel_l _ _ _ Heq).
Qed.

(** A warning about an item is in the list exactly when the item's row of
    the waste table passes the threshold. *)
Lemma warned_for_iff (argsort : list Q -> list nat) (e : Env)
    (row : WasteSummary) :
  In row (get_waste_analysis argsort e) ->
  warned_for (ws_menu_item row) (generate_recommendations argsort e) <->
  fgt (ws_waste_percentage row) (Fin 15) = true.
Proof.
  intros Hrow. split.
  - intros (row' & Hitem & Hin).
    assert (Hw : In (warning_rec row')
                    (of_type "warning" (generate_recommendations argsort e))).
    { apply filter_In. split; [exact Hin|reflexivity]. }
    rewrite warnings_of_recommendations in Hw.
    apply in_map_iff in Hw as (r & Heq & Hr).
    apply warning_rec_item in Heq.
    apply filter_In in Hr as [Hr Hgt].
    rewrite (waste_analysis_same_item argsort e row r); auto; congruence.
  - intros Hgt. exists row. split; [reflexivity|].
    assert (Hw : In (warning_rec row)
                    (of_type "warning" (generate_recommendations argsort e))).
    { rewrite warnings_of_recommendations. apply in_map, filter_In. now split. }
    apply filter_In in Hw. apply Hw.
Qed.

(** C2, as the code has it: for an item whose summed [quantity_sold] is
    0 the waste percentage is NaN when its summed [waste_quantity] is 0
    too, and no warning is emitted for the item; when the summed
    [waste_quantity] is positive the percentage is plus infinity and the
    item does get a high-waste warning. *)
Theorem zero_sold_waste_percentage (argsort : list Q -> list nat) (e : Env)
    (row : WasteSummary) :
  In row (get_waste_analysis argsort e) ->
  ws_quantity_sold row = 0 ->
  (ws_waste_quantity row = 0 ->
   ws_waste_percentage row = NaN /\
   ~ warned_for (ws_menu_item row) (generate_recommendations argsort e)) /\
  (0 < ws_waste_quantity row ->
   ws_waste_percentage row = PInf /\
   warned_for (ws_menu_item row) (generate_recommendations argsort e) /\
   In (warning_rec row) (generate_recommendations argsort e)).
Proof.
  intros Hrow Hsold.
  pose proof (warned_for_iff argsort e row Hrow) as Hw.
  pose proof (waste_analysis_row argsort e row Hrow) as Heq.
  set (g := filter _ _) in Heq.
  assert (Hpct : ws_waste_percentage row =
                 fmul (fdiv (Fin (inject_Z (ws_waste_quantity row)))
                            (Fin (inject_Z (ws_quantity_sold row)))) (Fin 100)).
  { rewrite Heq. reflexivity. }
  rewrite Hsold, percentage_of_zero in Hpct by reflexivity.
  split.
  - intros Hz. rewrite Hz in Hpct. simpl in Hpct. split; [exact Hpct|].
    rewrite Hw, Hpct. discriminate.
  - intros Hpos.
    assert (Hq : Qltb 0 (inject_Z (ws_waste_quantity row)) = true).
    { apply Qltb_lt. rewrite <- (Zlt_Qlt 0). exact Hpos. }
    rewrite Hq in Hpct.
    assert (Hwarn : warned_for (ws_menu_item row)
                      (generate_recommendations argsort e)).
    { apply Hw. now rewrite Hpct. }
    repeat split; [exact Hpct|exact Hwarn|].
    assert (Hin : In (warning_rec row)
                     (of_type "warning" (generate_recommendations argsort e))).
    { rewrite warnings_of_recommendations. apply in_map, filter_In.
      split; [exact Hrow|]. now rewrite Hpct. }
    apply filter_In in Hin. apply Hin.
Qed.

Lemma sort_values_map {A B : Type} (argsort : list Q -> list nat) (f : A -> B)
    (rows : list A) (by_ : B -> option Q) (asc : bool) :
  sort_values argsort (map f rows) by_ asc =
  map f (sort_values argsort rows (fun a => by_ (f a)) asc).
Proof.
  unfold sort_values. now rewrite map_map, take_map.
Qed.

(** Two strictly ascending lists with the same elements are the same. *)
Lemma strictly_sorted_unique {A : Type} (lt : A -> A -> Prop) :
  (forall a, ~ lt a a) -> (forall a b c, lt a b -> lt b c -> lt a c) ->
  forall l1 l2 : list A,
    StronglySorted lt l1 -> StronglySorted lt l2 ->
    (forall x, In x l1 <-> In x l2) -> l1 = l2.
Proof.
  intros Hirr Htr l1. induction l1 as [|a l1 IH]; intros l2 H1 H2 Hin.
  - destruct l2 as [|b l2]; [reflexivity|].
    destruct (proj2 (Hin b)). now left.
  - destruct l2 as [|b l2]; [destruct (proj1 (Hin a)); now left|].
    apply StronglySorted_inv in H1 as [H1 Ha], H2 as [H2 Hb].
    rewrite Forall_forall in Ha, Hb.
    assert (Hab : a = b).
    { destruct (proj1 (Hin a) (or_introl eq_refl)) as [Hba|Hal2]; [now symmetry|].
      destruct (proj2 (Hin b) (or_introl eq_refl)) as [Hab|Hbl1]; [assumption|].
      destruct (Hirr a). eapply Htr; [apply Ha, Hbl1|apply Hb, Hal2]. }
    subst b. f_equal. apply IH; auto.
    intros x. split; intros Hx.
    + destruct (proj1 (Hin x) (or_intror Hx)) as [<-|Hx2]; [|exact Hx2].
      destruct (Hirr a). apply Ha, Hx.
    + destruct (proj2 (Hin x) (or_intror Hx)) as [<-|Hx1]; [|exact Hx1].
      destruct (Hirr a). apply Hb, Hx.
Qed.

Lemma StronglySorted_NoDup_strict {A : Type} (R : A -> A -> Prop) (l : list A) :
  StronglySorted R l -> NoDup l ->
  StronglySorted (fun a b => R a b /\ a <> b) l.
Proof.
  induction 1 as [|a l Hs IH Ha]; intros Hnd; [constructor|].
  apply NoDup_cons_iff in Hnd as [Hnot Hnd].
  constructor; [apply IH, Hnd|].
  rewrite Forall_forall in *. intros b Hb. split; [apply Ha, Hb|].
  intros ->. contradiction.
Qed.

Lemma Forall_eq_repeat {A : Type} (x : A) (l : list A) :
  Forall (eq x) l -> l = repeat x (List.length l).
Proof.
  induction 1 as [|y l Hy _ IH]; simpl; [reflexivity|].
  subst y. f_equal. exact IH.
Qed.

(* ================================================================= *)
(** ** Weekday labels *)

Lemma index_of_In (v : string) (l : list string) :
  In v l <-> exists i, index_of v l = Some i.
Proof.
  induction l as [|x l IH]; simpl.
  - split; [contradiction|]. intros (i & Hi). discriminate.
  - destruct (String.eqb v x) eqn:E.
    + apply String.eqb_eq in E. subst. split; eauto.
    + apply String.eqb_neq in E. rewrite IH. split.
      * intros [Hx|(i & Hi)]; [now destruct E|]. rewrite Hi. simpl. eauto.
      * intros (i & Hi). right. destruct (index_of v l); [eauto|discriminate].
Qed.

Lemma index_of_nth (v : string) (l : list string) (i : nat) :
  index_of v l = Some i -> nth i l EmptyString = v.
Proof.
  revert i. induction l as [|x l IH]; simpl; intros i; [discriminate|].
  destruct (String.eqb v x) eqn:E.
  - apply String.eqb_eq in E. intros [= <-]. now subst.
  - destruct (index_of v l) as [j|]; [|discriminate].
    intros [= <-]. now apply IH.
Qed.

Lemma existsb_eqb_In (v : string) (l : list string) :
  existsb (String.eqb v) l = true <-> In v l.
Proof.
  rewrite existsb_exists. split.
  - intros (x & Hx & E). apply String.eqb_eq in E. now subst.
  - intros Hin. exists v. split; [exact Hin|apply String.eqb_refl].
Qed.

Lemma label_code_known (d : string) :
  In d days_order ->
  categorical days_order d = Some d /\
  label_code d = Some (inject_Z (Z.of_nat (day_index d))).
Proof.
  intros Hin. unfold label_code, categorical, day_index.
  rewrite (proj2 (existsb_eqb_In d days_order) Hin).
  apply index_of_In in Hin as (i & Hi).
  unfold category_code. rewrite Hi. now split.
Qed.

Lemma label_code_unknown (d : string) :
  ~ In d days_order ->
  categorical days_order d = None /\ label_code d = None.
Proof.
  intros Hnot. unfold label_code, categorical.
  destruct (existsb (String.eqb d) days_order) eqn:E.
  - apply existsb_eqb_In in E. contradiction.
  - now split.
Qed.

Lemma In_days_order_dec (d : string) : In d days_order \/ ~ In d days_order.
Proof.
  destruct (existsb (String.eqb d) days_order) eqn:E.
  - left. now apply existsb_eqb_In.
  - right. intros Hin. apply existsb_eqb_In in Hin. congruence.
Qed.

Lemma day_index_inj (a b : string) :
  In a days_order -> In b days_order -> day_index a = day_index b -> a = b.
Proof.
  intros Ha Hb. unfold day_index.
  apply index_of_In in Ha as (i & Hi), Hb as (j & Hj).
  rewrite Hi, Hj. intros ->.
  apply index_of_nth in Hi, Hj. congruence.
Qed.

Lemma days_order_sorted :
  StronglySorted (fun a b => (day_index a < day_index b)%nat) days_order.
Proof.
  unfold days_order.
  repeat first [ apply SSorted_nil
               | apply SSorted_cons
               | apply Forall_nil
               | apply Forall_cons; [vm_compute; lia|] ].
Qed.

Lemma present_iff (e : Env) (d : string) :
  present e d = true <-> In d (group_keys day_of_week (load_sales_data e)).
Proof.
  unfold present. rewrite existsb_exists, (group_keys_In day_of_week).
  split; intros (r & Hr & E); exists r; (split; [exact Hr|]).
  - now apply String.eqb_eq.
  - subst. apply String.eqb_refl.
Qed.

Lemma get_daily_patterns_eq (argsort : list Q -> list nat) (e : Env) :
  get_daily_patterns argsort e =
  sort_values argsort
    (map daily_pattern_row (groupby day_of_week (load_sales_data e)))
    (fun r => category_code days_order (dp_day_of_week r)) true.
Proof. reflexivity. Qed.

(** The labels of the weekday table are the sorted labels of the ledger,
    made categorical. *)
Lemma daily_pattern_labels (argsort : list Q -> list nat) (e : Env) :
  map dp_day_of_week (get_daily_patterns argsort e) =
  map (categorical days_order) (sorted_labels argsort e).
Proof.
  unfold sorted_labels.
  rewrite get_daily_patterns_eq, sort_values_map, map_map.
  rewrite <- (groupby_keys day_of_week), sort_values_map, map_map.
  reflexivity.
Qed.

Section DailyPatterns.
Variable argsort : list Q -> list nat.
Hypothesis Hspec : argsort_spec argsort.
Variable e : Env.

Lemma sorted_keys_split :
  exists known unknown : list string,
    sorted_labels argsort e = known ++ unknown /\
    Forall (fun d => In d days_order) known /\
    Forall (fun d => ~ In d days_order) unknown /\
    StronglySorted (fun a b => (day_index a <= day_index b)%nat) known.
Proof.
  destruct (nargsort_keys argsort Hspec
              (map label_code (group_keys day_of_week (load_sales_data e))) true)
    as (vs & nans & Hk & Hn & Hs).
  rewrite take_map in Hk.
  change (map label_code (sorted_labels argsort e) = map Some vs ++ nans) in Hk.
  apply map_eq_app in Hk as (known & unknown & Hsplit & Hknown & Hunknown).
  exists known, unknown.
  assert (Hka : Forall (fun d => In d days_order) known).
  { apply Forall_forall. intros d Hd.
    destruct (In_days_order_dec d) as [Hin|Hnot]; [exact Hin|].
    apply label_code_unknown in Hnot as [_ Hc].
    assert (Hm : In (label_code d) (map Some vs))
      by (rewrite <- Hknown; now apply in_map).
    rewrite Hc in Hm. apply in_map_iff in Hm as (? & ? & _). discriminate. }
  assert (Hun : Forall (fun d => ~ In d days_order) unknown).
  { apply Forall_forall. intros d Hd Hin.
    apply label_code_known in Hin as [_ Hc].
    assert (Hm : In (label_code d) nans)
      by (rewrite <- Hunknown; now apply in_map).
    rewrite Forall_forall in Hn. specialize (Hn _ Hm). congruence. }
  repeat split; try assumption.
  assert (Hc : StronglySorted code_le (map label_code known)).
  { rewrite Hknown. apply (proj1 (StronglySorted_map code_le Some vs)).
    exact Hs. }
  apply (proj2 (StronglySorted_map code_le label_code known)) in Hc.
  eapply StronglySorted_weaken; [|exact Hc].
  rewrite Forall_forall in Hka.
  intros a b Ha Hb. simpl.
  destruct (label_code_known a (Hka a Ha)) as [_ ->].
  destruct (label_code_known b (Hka b Hb)) as [_ ->].
  simpl. rewrite <- Zle_Qle. lia.
Qed.

Lemma sorted_keys_Permutation :
  Permutation (sorted_labels argsort e)
              (group_keys day_of_week (load_sales_data e)).
Proof. apply sort_values_Permutation, Hspec. Qed.

(** The recognised labels come out in the order of [days_order], each
    once, and no other does. *)
Lemma sorted_keys_known :
  exists unknown : list string,
    sorted_labels argsort e = filter (present e) days_order ++ unknown /\
    Forall (fun d => ~ In d days_order) unknown.
Proof.
  destruct sorted_keys_split as (known & unknown & Hsplit & Hka & Hun & Hs).
  exists unknown. split; [|exact Hun].
  rewrite Hsplit. f_equal.
  assert (Hnd : NoDup known).
  { assert (Hn : NoDup (sorted_labels argsort e)).
    { eapply Permutation_NoDup; [apply Permutation_sym, sorted_keys_Permutation|].
      apply (group_keys_NoDup day_of_week). }
    rewrite Hsplit in Hn. eapply NoDup_app_remove_r, Hn. }
  apply (strictly_sorted_unique
           (fun a b => (day_index a < day_index b)%nat)).
  - intros a. lia.
  - intros a b c. lia.
  - eapply StronglySorted_weaken;
      [|apply StronglySorted_NoDup_strict; [exact Hs|exact Hnd]].
    rewrite Forall_forall in Hka.
    intros a b Ha Hb [Hle Hne].
    destruct (Nat.eq_dec (day_index a) (day_index b)) as [Heq|Hneq]; [|lia].
    destruct Hne. apply day_index_inj; auto.
  - apply StronglySorted_filter, days_order_sorted.
  - intros d. rewrite filter_In, present_iff.
    rewrite Forall_forall in Hka, Hun. split.
    + intros Hd. split; [apply Hka, Hd|].
      apply (Permutation_in _ sorted_keys_Permutation).
      rewrite Hsplit. apply in_or_app. now left.
    + intros [Hin Hkey].
      apply (Permutation_in _ (Permutation_sym sorted_keys_Permutation)) in Hkey.
      rewrite Hsplit in Hkey. apply in_app_or in Hkey as [Hk|Hu]; [exact Hk|].
      destruct (Hun d Hu Hin).
Qed.
End DailyPatterns.

(** C1, as the code has it: the weekday table has one row for each
    distinct [day_of_week] label of the ledger and none for a weekday
    without a record.  The rows of the weekday names that occur come
    first, in the order Monday to Sunday; a label that is no weekday name
    gives a row whose label is the missing value, after them. *)
Theorem daily_patterns_rows (argsort : list Q -> list nat) (e : Env) :
  argsort_spec argsort ->
  exists k : nat,
    map dp_day_of_week (get_daily_patterns argsort e) =
    map Some (filter (present e) days_order) ++ repeat None k /\
    List.length (get_daily_patterns argsort e) =
    List.length (group_keys day_of_week (load_sales_data e)).
Proof.
  intros Hspec.
  destruct (sorted_keys_known argsort Hspec e) as (unknown & Hk & Hun).
  exists (List.length unknown). split.
  - rewrite daily_pattern_labels, Hk, map_app. f_equal.
    + apply map_ext_in. intros d Hd. apply filter_In in Hd as [Hd _].
      now apply label_code_known.
    + rewrite <- (length_map (categorical days_order)).
      apply Forall_eq_repeat, Forall_forall. intros c Hc.
      apply in_map_iff in Hc as (d & <- & Hd).
      rewrite Forall_forall in Hun. symmetry.
      now apply label_code_unknown, Hun.
  - rewrite get_daily_patterns_eq.
    rewrite (Permutation_length (sort_values_Permutation argsort Hspec _ _ _)).
    rewrite length_map. unfold groupby. apply length_map.
Qed.

Lemma StronglySorted_nth {A : Type} (R : A -> A -> Prop) (l : list A) (d : A)
    (a b : nat) :
  StronglySorted R l -> (a < b)%nat -> (b < List.length l)%nat ->
  R (nth a l d) (nth b l d).
Proof.
  intros Hs. revert a b. induction Hs as [|x l Hs IH Hx]; intros a b Hab Hb.
  - simpl in Hb. lia.
  - destruct b as [|b]; [lia|]. simpl in Hb.
    destruct a as [|a]; simpl.
    + rewrite Forall_forall in Hx. apply Hx, nth_In. lia.
    + apply IH; lia.
Qed.

Lemma seq_sorted (s n : nat) : StronglySorted lt (seq s n).
Proof.
  revert s. induction n as [|n IH]; intros s; simpl; constructor; [apply IH|].
  apply Forall_forall. intros x Hx. apply in_seq in Hx. lia.
Qed.

Section StableSort.
Variable argsort : list Q -> list nat.
Hypothesis Hspec : argsort_spec argsort.
Hypothesis Hstable : argsort_stable argsort.

(** With a stable [argsort], a descending sort leaves rows of equal key
    in the order they had. *)
Lemma sorted_positions_stable (items : list (option Q)) :
  StronglySorted
    (fun i j => (value_at items i == value_at items j)%Q -> (i < j)%nat)
    (sorted_positions argsort items false).
Proof.
  unfold sorted_positions.
  set (pos := rev (filter (fun i => negb (is_nan items i))
                          (seq 0 (List.length items)))).
  assert (Hdec : StronglySorted (fun i j => (j < i)%nat) pos).
  { apply (StronglySorted_rev lt), StronglySorted_filter, seq_sorted. }
  set (nn := map (value_at items) pos).
  apply (StronglySorted_rev
           (fun x y => (value_at items y == value_at items x)%Q -> (y < x)%nat)).
  apply (proj1 (StronglySorted_map
                  (fun x y => (value_at items y == value_at items x)%Q -> (y < x)%nat)
                  (fun a => nth a pos 0%nat) (argsort nn))).
  pose proof (argsort_in_range argsort Hspec nn) as Hr.
  unfold nn in Hr at 1. rewrite length_map in Hr. rewrite Forall_forall in Hr.
  eapply StronglySorted_weaken; [|apply (Hstable nn)].
  intros a b Ha Hb Hst Heq. simpl in Hst.
  assert (Hva : nth a nn 0%Q = value_at items (nth a pos 0%nat)).
  { unfold nn. rewrite (nth_indep _ 0%Q (value_at items 0%nat))
      by (rewrite length_map; apply Hr, Ha). apply map_nth. }
  assert (Hvb : nth b nn 0%Q = value_at items (nth b pos 0%nat)).
  { unfold nn. rewrite (nth_indep _ 0%Q (value_at items 0%nat))
      by (rewrite length_map; apply Hr, Hb). apply map_nth. }
  rewrite Hva, Hvb in Hst. symmetry in Heq. specialize (Hst Heq).
  apply (StronglySorted_nth _ pos 0%nat a b Hdec Hst), Hr, Hb.
Qed.

Lemma sort_values_stable {A : Type} (rows : list A) (f : A -> Q)
    (before : A -> A -> Prop) (d : A) :
  StronglySorted before rows ->
  StronglySorted (fun a b => (f a == f b)%Q -> before a b)
    (sort_values argsort rows (fun r => Some (f r)) false).
Proof.
  intros Hrows. unfold sort_values.
  set (items := map (fun r => Some (f r)) rows).
  assert (Hlen : List.length items = List.length rows) by apply length_map.
  assert (Hnan : forall i, is_nan items i = false \/ (List.length rows <= i)%nat).
  { intros i. destruct (Nat.lt_ge_cases i (List.length rows)) as [Hi|Hi];
      [left|now right].
    unfold is_nan, items.
    rewrite (nth_indep _ None (Some (f d))) by (rewrite length_map; exact Hi).
    now rewrite (map_nth (fun r => Some (f r))). }
  assert (Hval : forall i, (i < List.length rows)%nat ->
                           value_at items i = f (nth i rows d)).
  { intros i Hi. unfold value_at, items.
    rewrite (nth_indep _ None (Some (f d))) by (rewrite length_map; exact Hi).
    now rewrite (map_nth (fun r => Some (f r))). }
  rewrite nargsort_eq.
  assert (Hno : filter (is_nan items) (seq 0 (List.length items)) = []).
  { destruct (filter (is_nan items) (seq 0 (List.length items)))
      as [|i l] eqn:E; [reflexivity|].
    assert (Hi : In i (filter (is_nan items) (seq 0 (List.length items))))
      by (rewrite E; now left).
    apply filter_In in Hi as [Hi Hn]. apply in_seq in Hi.
    destruct (Hnan i) as [Hf|Hge]; [congruence|lia]. }
  rewrite Hno, app_nil_r.
  assert (Hrange : Forall (fun i => (i < List.length rows)%nat)
                          (sorted_positions argsort items false)).
  { apply Forall_forall. intros i Hi.
    apply (Permutation_in _ (sorted_positions_Permutation argsort Hspec items false)) in Hi.
    apply filter_In in Hi as [Hi _]. apply in_seq in Hi. lia. }
  rewrite (take_in_range rows d _ Hrange).
  apply (proj1 (StronglySorted_map
                  (fun a b => (f a == f b)%Q -> before a b)
                  (fun i => nth i rows d) _)).
  eapply StronglySorted_weaken; [|apply (sorted_positions_stable items)].
  rewrite Forall_forall in Hrange.
  intros i j Hi Hj Hst Heq. simpl in Hst.
  rewrite <- !Hval in Heq by (apply Hrange; assumption).
  apply StronglySorted_nth; auto.
Qed.
End StableSort.

(* ================================================================= *)
(** ** The insertion sort with [<=] is stable *)

Lemma insert_by_stable (x : Q * nat) (l : list (Q * nat)) :
  StronglySorted tie_order l ->
  Forall (fun y => (snd x < snd y)%nat) l ->
  StronglySorted tie_order (insert_by Qle_bool x l).
Proof.
  induction 1 as [|y l Hs IH Hy]; intros Hx; simpl; [repeat constructor|].
  destruct (Qle_bool (fst x) (fst y)) eqn:E.
  - constructor; [now constructor|].
    rewrite Forall_forall in *. intros z Hz _. apply Hx, Hz.
  - apply Qle_bool_false in E.
    apply Forall_cons_iff in Hx as [_ Hx].
    constructor; [apply IH, Hx|].
    rewrite Forall_forall in *. intros z Hz.
    apply (Permutation_in _ (insert_by_Permutation Qle_bool x l)) in Hz.
    destruct Hz as [<-|Hz]; [|apply Hy, Hz].
    intros Heq. rewrite Heq in E. destruct (Qlt_irrefl _ E).
Qed.

Lemma insertion_stable (ks : list Q) (s : nat) :
  StronglySorted tie_order
    (fold_right (insert_by Qle_bool) [] (combine ks (seq s (List.length ks)))).
Proof.
  revert s. induction ks as [|k ks IH]; intros s; simpl; [constructor|].
  apply insert_by_stable; [apply IH|].
  apply Forall_forall. intros [q i] Hy.
  apply (Permutation_in _ (insertion_Permutation Qle_bool _)) in Hy.
  apply in_combine_r, in_seq in Hy. simpl. lia.
Qed.

Lemma insertion_argsort_stable : argsort_stable insertion_argsort.
Proof.
  intros ks. unfold insertion_argsort, insertion_argsort_by.
  apply (proj1 (StronglySorted_map
                  (fun i j => (nth i ks 0 == nth j ks 0)%Q -> (i < j)%nat)
                  snd _)).
  eapply StronglySorted_weaken; [|apply (insertion_stable ks 0)].
  intros [k i] [k' i'] Hin Hin' Hst. unfold tie_order in Hst. simpl in *.
  apply (Permutation_in _ (insertion_Permutation Qle_bool _)) in Hin, Hin'.
  apply (combine_seq_nth []) in Hin as [Hk _].
  apply (combine_seq_nth []) in Hin' as [Hk' _].
  simpl in Hk, Hk'. now rewrite Hk, Hk'.
Qed.

(* ================================================================= *)
(** ** The performance table *)

Lemma get_menu_performance_eq (argsort : list Q -> list nat) (e : Env) :
  get_menu_performance argsort e =
  sort_values argsort
    (map menu_performance_row (groupby menu_item (load_sales_data e)))
    (fun r => Some (profitability r)) false.
Proof. reflexivity. Qed.

Lemma menu_performance_row_of (argsort : list Q -> list nat) (e : Env)
    (row : MenuPerformance) :
  In row (get_menu_performance argsort e) ->
  In (mp_menu_item row) (group_keys menu_item (load_sales_data e)) /\
  row = menu_performance_row
          (mp_menu_item row,
           filter (fun r => String.eqb (menu_item r) (mp_menu_item row))
                  (load_sales_data e)).
Proof.
  rewrite get_menu_performance_eq. intros Hin.
  apply sort_values_In, in_map_iff in Hin as ([k g] & <- & Hg).
  split.
  - rewrite <- (groupby_keys menu_item). now apply (in_map fst) in Hg.
  - apply (groupby_In menu_item) in Hg as [-> _]. reflexivity.
Qed.

Lemma menu_performance_items (argsort : list Q -> list nat) (e : Env) :
  argsort_spec argsort ->
  Permutation (map mp_menu_item (get_menu_performance argsort e))
              (group_keys menu_item (load_sales_data e)).
Proof.
  intros Hspec. rewrite get_menu_performance_eq.
  rewrite (Permutation_map mp_menu_item
             (sort_values_Permutation argsort Hspec _ _ _)).
  rewrite map_map, <- (groupby_keys menu_item). apply Permutation_refl.
Qed.

(** Before the sort the rows are in ascending order of their item. *)
Lemma menu_performance_rows_by_item (e : Env) :
  StronglySorted
    (fun a b => String.ltb (mp_menu_item a) (mp_menu_item b) = true)
    (map menu_performance_row (groupby menu_item (load_sales_data e))).
Proof.
  apply (proj2 (StronglySorted_map
                  (fun a b => String.ltb a b = true) mp_menu_item _)).
  rewrite map_map.
  change (StronglySorted (fun a b => String.ltb a b = true)
            (map fst (groupby menu_item (load_sales_data e)))).
  rewrite (groupby_keys menu_item).
  exact (group_keys_sorted menu_item (load_sales_data e)).
Qed.

(** C5, as the code has it: the performance table has one row per menu
    item, in descending (non-increasing) order of profitability.  The
    code sorts by profitability alone and leaves rows of equal
    profitability to the sorting routine: a stable one keeps them in
    the ascending item order of the grouping, the default one need
    not. *)
Theorem menu_performance_sorted (argsort : list Q -> list nat) (e : Env) :
  argsort_spec argsort ->
  StronglySorted (fun a b => (profitability b <= profitability a)%Q)
                 (get_menu_performance argsort e) /\
  Permutation (map mp_menu_item (get_menu_performance argsort e))
              (group_keys menu_item (load_sales_data e)) /\
  (argsort_stable argsort ->
   StronglySorted
     (fun a b => (profitability a == profitability b)%Q ->
                 String.ltb (mp_menu_item a) (mp_menu_item b) = true)
     (get_menu_performance argsort e)).
Proof.
  intros Hspec. split; [|split].
  - apply sort_values_descending, Hspec.
  - apply menu_performance_items, Hspec.
  - intros Hstable. rewrite get_menu_performance_eq.
    apply (sort_values_stable argsort Hspec Hstable _ profitability
             (fun a b => String.ltb (mp_menu_item a) (mp_menu_item b) = true)
             (menu_performance_row (EmptyString, []))).
    apply menu_performance_rows_by_item.
Qed.

(* ================================================================= *)
(** ** Rounding *)



(* ================================================================= *)
(** ** Rule 2: items of low profitability *)

Lemma quantile_cases (vals : list Q) (q : Q) :
  quantile vals q = NaN \/ exists x : Q, quantile vals q = Fin x.
Proof.
  destruct vals as [|v vals]; [now left|right]. unfold quantile. eauto.
Qed.

(** C3, as the code has it: the info recommendations are for the first
    two (or fewer) rows, in the order of the performance table, among the
    rows whose profitability is strictly below the 25th percentile of the
    profitabilities.  The table being in descending order, these are the
    qualifying items of HIGHEST profitability: any qualifying item left
    out has a profitability that is lower or equal. *)
Theorem low_profit_infos (argsort : list Q -> list nat) (e : Env) :
  argsort_spec argsort ->
  let menu_perf := get_menu_performance argsort e in
  let threshold := quantile (map profitability menu_perf) (1 # 4) in
  let qualifying := low_performers argsort e in
  (forall r, In r qualifying <->
             In r menu_perf /\
             exists q : Q, threshold = Fin q /\ (profitability r < q)%Q) /\
  exists chosen rest : list MenuPerformance,
    qualifying = chosen ++ rest /\
    of_type "info" (generate_recommendations argsort e) = map info_rec chosen /\
    List.length chosen = Nat.min 2 (List.length qualifying) /\
    (forall c r, In c chosen -> In r rest ->
                 (profitability r <= profitability c)%Q).
Proof.
  intros Hspec menu_perf threshold qualifying. split.
  - intros r. unfold qualifying, low_performers. fold menu_perf threshold.
    rewrite filter_In. split; intros [Hin Hlt]; (split; [exact Hin|]).
    + destruct (quantile_cases (map profitability menu_perf) (1 # 4))
        as [Hn|(x & Hx)]; fold threshold in Hn || fold threshold in Hx.
      * rewrite Hn in Hlt. discriminate.
      * exists x. split; [exact Hx|]. rewrite Hx in Hlt. now apply Qltb_lt.
    + destruct Hlt as (x & -> & Hlt). now apply Qltb_lt.
  - exists (head 2 qualifying), (skipn 2 qualifying). repeat split.
    + symmetry. apply firstn_skipn.
    + apply infos_of_recommendations.
    + apply length_firstn.
    + intros c r Hc Hr.
      assert (Hs : StronglySorted
                     (fun a b => (profitability b <= profitability a)%Q)
                     (head 2 qualifying ++ skipn 2 qualifying)).
      { unfold head. rewrite firstn_skipn.
        apply StronglySorted_filter, sort_values_descending, Hspec. }
      exact (StronglySorted_split _ _ _ Hs c r Hc Hr).
Qed.

(* ================================================================= *)
(** ** The order of the recommendations *)


(* ================================================================= *)
(** ** The forecast *)


Lemma tail_nonempty {A : Type} (n : nat) (l : list A) :
  l <> [] -> (0 < n)%nat -> tail n l <> [].
Proof.
  intros Hl Hn Ht. apply (f_equal (@List.length A)) in Ht.
  unfold tail in Ht. rewrite length_skipn in Ht.
  assert (Hpos : (0 < List.length l)%nat)
    by (destruct l; [now destruct Hl|simpl; lia]).
  change (List.length (@nil A)) with 0%nat in Ht. lia.
Qed.

Lemma mean_finite (l : list Q) :
  l <> [] -> exists q : Q, mean l = Fin q.
Proof. destruct l; [now intros []|]. intros _. unfold mean. eauto. Qed.



(* ================================================================= *)
(** ** A forecast without history *)

(** C4, the failing case: when no record falls in the 30 days before the
    clock reading (an empty ledger, or one whose records are all older),
    [forecast_demand] raises [ValueError] for every horizon of one day or
    more, where the specification promises rows with a forecast of 0.
    The mean of no daily totals is NaN and [int] refuses it; only a
    horizon of no day returns, and returns no row. *)
Theorem forecast_demand_no_history (e : Env) (days : Z) :
  recent_sales e = [] ->
  (0 < days -> forecast_demand e days = Raise ValueError) /\
  (days <= 0 -> forecast_demand e days = Ok []).
Proof.
  intros Hempty.
  assert (Hfv : forecast_demand e days
                = forecast_rows e NaN (seq 0 (Z.to_nat days))).
  { unfold forecast_demand. now rewrite Hempty. }
  split.
  - intros Hpos. rewrite Hfv.
    destruct (Z.to_nat days) as [|n] eqn:E; [lia|]. reflexivity.
  - intros Hle. rewrite Hfv.
    replace (Z.to_nat days) with 0%nat by lia. reflexivity.
Qed.

(* ================================================================= *)
(** ** What the results depend on *)

Lemma forecast_rows_ext (e1 e2 : Env) (fv : float) (idxs : list nat) :
  (forall i, In i idxs -> clock e1 (S i) = clock e2 (S i)) ->
  forecast_rows e1 fv idxs = forecast_rows e2 fv idxs.
Proof.
  induction idxs as [|i idxs IH]; intros Hc; simpl; [reflexivity|].
  rewrite IH by (intros j Hj; apply Hc; now right).
  unfold forecast_row. rewrite (Hc i) by now left. reflexivity.
Qed.

(** C6, as the code has it: the instant "now" is no parameter;
    [get_sales_trends] and [forecast_demand] read the process clock.
    [generate_recommendations] and the three tables it is built on do
    not read it and are functions of the ledger alone; the results of
    [get_sales_trends] and [forecast_demand] are functions of the ledger,
    the parameter and the clock readings, and agree for two runs only as
    far as those readings agree. *)
Theorem results_depend_on (argsort : list Q -> list nat) (e1 e2 : Env) :
  load_sales_data e1 = load_sales_data e2 ->
  generate_recommendations argsort e1 = generate_recommendations argsort e2 /\
  get_menu_performance argsort e1 = get_menu_performance argsort e2 /\
  get_daily_patterns argsort e1 = get_daily_patterns argsort e2 /\
  get_waste_analysis argsort e1 = get_waste_analysis argsort e2 /\
  (forall period_days : Z,
      clock e1 0 = clock e2 0 ->
      get_sales_trends e1 period_days = get_sales_trends e2 period_days) /\
  (forall days : Z,
      (forall n, (n <= Z.to_nat days)%nat -> clock e1 n = clock e2 n) ->
      forecast_demand e1 days = forecast_demand e2 days).
Proof.
  intros Hdata.
  assert (Hmp : get_menu_performance argsort e1 = get_menu_performance argsort e2)
    by (now rewrite !get_menu_performance_eq, Hdata).
  assert (Hwa : get_waste_analysis argsort e1 = get_waste_analysis argsort e2)
    by (now rewrite !get_waste_analysis_eq, Hdata).
  repeat split.
  - rewrite !generate_recommendations_eq.
    unfold high_waste, low_performers, total_waste_percent.
    now rewrite Hmp, Hwa, Hdata.
  - exact Hmp.
  - now rewrite !get_daily_patterns_eq, Hdata.
  - exact Hwa.
  - intros period_days Hc. unfold get_sales_trends. now rewrite Hdata, Hc.
  - intros days Hc. unfold forecast_demand, recent_sales.
    rewrite Hdata, (Hc 0%nat) by lia.
    apply forecast_rows_ext. intros i Hi. apply in_seq in Hi.
    apply Hc. lia.
Qed.

(* ================================================================= *)
(** ** The theorems at sample ledgers *)

(** C1 does not hold as stated: a ledger with records of one Monday only
    gives a weekday table of one row, not seven. *)
Lemma daily_patterns_one_weekday :
  map dp_day_of_week (get_daily_patterns insertion_argsort monday_only)
  = [Some "Monday"%string] /\
  List.length (get_daily_patterns insertion_argsort monday_only) <> 7%nat.
Proof. split; [reflexivity|discriminate]. Qed.

Lemma daily_patterns_rows_witness :
  argsort_spec insertion_argsort /\
  exists k : nat,
    map dp_day_of_week (get_daily_patterns insertion_argsort monday_only) =
    map Some (filter (present monday_only) days_order) ++ repeat None k /\
    List.length (get_daily_patterns insertion_argsort monday_only) =
    List.length (group_keys day_of_week (load_sales_data monday_only)).
Proof.
  split; [exact insertion_argsort_spec|].
  exact (daily_patterns_rows insertion_argsort monday_only
           insertion_argsort_spec).
Defined.

(** C2 does not hold as stated: an item sold 0 times and wasted 5 times
    has the waste percentage plus infinity, and a high-waste warning is
    emitted for it. *)
Lemma unsold_item_is_warned :
  In unsold_tea_row (get_waste_analysis insertion_argsort unsold_tea) /\
  ws_quantity_sold unsold_tea_row = 0 /\
  ws_waste_percentage unsold_tea_row = PInf /\
  In {| rec_type := "warning";
        rec_message := "High waste detected for Tea & Mandazi: inf%";
        rec_action := "Consider reducing portions or improving demand forecasting for Tea & Mandazi" |}
     (generate_recommendations insertion_argsort unsold_tea).
Proof.
  repeat split; try reflexivity; vm_compute; now left.
Qed.

Lemma zero_sold_waste_percentage_witness :
  In unsold_tea_row (get_waste_analysis insertion_argsort unsold_tea) /\
  ws_quantity_sold unsold_tea_row = 0 /\
  0 < ws_waste_quantity unsold_tea_row /\
  ws_waste_percentage unsold_tea_row = PInf /\
  warned_for (ws_menu_item unsold_tea_row)
             (generate_recommendations insertion_argsort unsold_tea).
Proof.
  assert (Hin : In unsold_tea_row (get_waste_analysis insertion_argsort unsold_tea))
    by (vm_compute; now left).
  assert (Hsold : ws_quantity_sold unsold_tea_row = 0) by reflexivity.
  assert (Hpos : 0 < ws_waste_quantity unsold_tea_row) by (simpl; lia).
  destruct (zero_sold_waste_percentage insertion_argsort unsold_tea
              unsold_tea_row Hin Hsold) as [_ Hw].
  destruct (Hw Hpos) as (Hpct & Hwarn & _).
  split; [exact Hin|]. split; [exact Hsold|]. split; [exact Hpos|].
  split; [exact Hpct|exact Hwarn].
Defined.


(** C3 does not hold as stated: of the three items below the 25th
    percentile (325), with profitabilities 300, 200 and 100, the two
    info recommendations are for those of 300 and 200; the item of the
    lowest profitability gets none. *)
Lemma infos_skip_the_lowest :
  quantile (map profitability (get_menu_performance insertion_argsort ten_items))
           (1 # 4) = Fin 325 /\
  map (fun r => (mp_menu_item r, profitability r))
      (low_performers insertion_argsort ten_items)
  = [("Fruit Salad", 300); ("Chips & Chicken", 200);
     ("Chapati & Beans", 100)]%string%Q /\
  map rec_message
      (of_type "info" (generate_recommendations insertion_argsort ten_items))
  = ["Low profitability for Fruit Salad";
     "Low profitability for Chips & Chicken"]%string.
Proof. repeat split; reflexivity. Qed.

Lemma low_profit_infos_witness :
  argsort_spec insertion_argsort /\
  exists chosen rest : list MenuPerformance,
    low_performers insertion_argsort ten_items = chosen ++ rest /\
    of_type "info" (generate_recommendations insertion_argsort ten_items)
    = map info_rec chosen /\
    List.length chosen = 2%nat /\
    (forall c r, In c chosen -> In r rest ->
                 (profitability r <= profitability c)%Q).
Proof.
  split; [exact insertion_argsort_spec|].
  destruct (low_profit_infos insertion_argsort ten_items insertion_argsort_spec)
    as (_ & chosen & rest & Hsplit & Hinfo & Hlen & Hord).
  exists chosen, rest.
  split; [exact Hsplit|]. split; [exact Hinfo|]. split; [exact Hlen|exact Hord].
Defined.

(** C5 does not hold as stated: two items of the same profitability
    give two rows of the same profitability, and which of them comes
    first is up to the sorting routine.  Of two routines that both meet
    numpy's promise, the one that keeps ties in place gives the items in
    ascending order of their names, the one that reverses ties gives
    them in descending order. *)
Lemma ties_in_descending_item_order :
  argsort_spec insertion_argsort /\
  argsort_spec reversing_argsort /\
  map (fun r => (mp_menu_item r, profitability r))
      (get_menu_performance insertion_argsort tied_items)
  = [("Chapati & Beans", 1200); ("Rice & Stew", 1200)]%string%Q /\
  map (fun r => (mp_menu_item r, profitability r))
      (get_menu_performance reversing_argsort tied_items)
  = [("Rice & Stew", 1200); ("Chapati & Beans", 1200)]%string%Q /\
  String.ltb "Chapati & Beans" "Rice & Stew" = true.
Proof.
  split; [exact insertion_argsort_spec|].
  split; [exact reversing_argsort_spec|].
  repeat split; reflexivity.
Qed.

Lemma menu_performance_sorted_witness :
  argsort_spec insertion_argsort /\
  StronglySorted (fun a b => (profitability b <= profitability a)%Q)
                 (get_menu_performance insertion_argsort ten_items) /\
  StronglySorted
    (fun a b => (profitability a == profitability b)%Q ->
                String.ltb (mp_menu_item a) (mp_menu_item b) = true)
    (get_menu_performance insertion_argsort tied_items).
Proof.
  split; [exact insertion_argsort_spec|]. split.
  - exact (proj1 (menu_performance_sorted insertion_argsort ten_items
                    insertion_argsort_spec)).
  - exact (proj2 (proj2 (menu_performance_sorted insertion_argsort tied_items
                           insertion_argsort_spec))
                 insertion_argsort_stable).
Defined.




Lemma forecast_demand_no_history_witness :
  recent_sales empty_ledger = [] /\
  forecast_demand empty_ledger 7 = Raise ValueError /\
  recent_sales stale_ledger = [] /\
  forecast_demand stale_ledger 7 = Raise ValueError.
Proof.
  assert (Hempty : recent_sales empty_ledger = []) by reflexivity.
  assert (Hstale : recent_sales stale_ledger = []) by reflexivity.
  split; [exact Hempty|]. split.
  - apply (forecast_demand_no_history empty_ledger 7 Hempty). lia.
  - split; [exact Hstale|].
    apply (forecast_demand_no_history stale_ledger 7 Hstale). lia.
Defined.

(** C6 does not hold as stated: two runs on the same ledger, one a day
    after its only record and one forty days after it, differ in their
    sales trend and in their forecast. *)
Lemma results_differ_with_the_clock :
  let early := at_instant (monday + timedelta_days 1) (sales_data only_waste) in
  let late := at_instant (monday + timedelta_days 40) (sales_data only_waste) in
  load_sales_data early = load_sales_data late /\
  get_sales_trends early 30 <> get_sales_trends late 30 /\
  forecast_demand early 7 <> forecast_demand late 7.
Proof.
  repeat split; vm_compute; discriminate.
Qed.

Lemma results_depend_on_witness :
  let early := at_instant (monday + timedelta_days 1) (sales_data unsold_tea) in
  let late := at_instant (monday + timedelta_days 40) (sales_data unsold_tea) in
  load_sales_data early = load_sales_data late /\
  generate_recommendations insertion_argsort early
  = generate_recommendations insertion_argsort late.
Proof.
  intros early late.
  assert (Hdata : load_sales_data early = load_sales_data late) by reflexivity.
  split; [exact Hdata|].
  exact (proj1 (results_depend_on insertion_argsort early late Hdata)).
Defined.

(* ================================================================= *)
(** ** More about grouping *)

Section GroupByMore.
Context {R K : Type} `{KeyOrderLaws K} (key : R -> K).

Lemma k_ltb_strict_order :
  (forall a : K, ~ k_ltb a a = true) /\
  (forall a b c : K, k_ltb a b = true -> k_ltb b c = true -> k_ltb a c = true).
Proof.
  split.
  - intros a Ha. rewrite k_ltb_irrefl in Ha. discriminate.
  - apply k_ltb_trans.
Qed.

(** Grouping the rows whose key passes a test gives the groups whose key
    passes it. *)
Lemma group_keys_filter (P : K -> bool) (l : list R) :
  group_keys key (filter (fun r => P (key r)) l) = filter P (group_keys key l).
Proof.
  destruct k_ltb_strict_order as [Hirr Htr].
  apply (strictly_sorted_unique (fun a b => k_ltb a b = true) Hirr Htr).
  - apply group_keys_sorted.
  - apply StronglySorted_filter, group_keys_sorted.
  - intros k. rewrite filter_In, !(group_keys_In key). split.
    + intros (r & Hr & Hk). apply filter_In in Hr as [Hr HP].
      split; [eauto|]. now rewrite <- Hk.
    + intros [(r & Hr & Hk) HP]. exists r. split; [|exact Hk].
      apply filter_In. split; [exact Hr|]. now rewrite Hk.
Qed.

Lemma filter_group_of_filter (P : K -> bool) (l : list R) (k : K) :
  P k = true ->
  filter (fun r => k_eqb (key r) k) (filter (fun r => P (key r)) l)
  = filter (fun r => k_eqb (key r) k) l.
Proof.
  intros HP. induction l as [|r l IHl]; simpl; [reflexivity|].
  destruct (P (key r)) eqn:HPr; simpl; destruct (k_eqb (key r) k) eqn:E;
    try (now rewrite IHl).
  apply k_eqb_eq in E. congruence.
Qed.

Lemma groupby_filter (P : K -> bool) (l : list R) :
  groupby key (filter (fun r => P (key r)) l)
  = filter (fun g => P (fst g)) (groupby key l).
Proof.
  unfold groupby. rewrite group_keys_filter.
  induction (group_keys key l) as [|k ks IH]; simpl; [reflexivity|].
  destruct (P k) eqn:HP; simpl; rewrite ?HP; [|exact IH].
  now rewrite IH, filter_group_of_filter.
Qed.



End GroupByMore.

(* ================================================================= *)
(** ** Sums *)

Lemma fold_left_Zadd (l : list Z) (a : Z) :
  fold_left Z.add l a = a + fold_left Z.add l 0.
Proof.
  revert a. induction l as [|x l IH]; intros a; simpl; [lia|].
  rewrite (IH (a + x)), (IH x). lia.
Qed.

Lemma sumZ_cons (x : Z) (l : list Z) : sumZ (x :: l) = x + sumZ l.
Proof. unfold sumZ. simpl. apply fold_left_Zadd. Qed.




Lemma fold_left_Qplus (l : list Q) (a : Q) :
  (fold_left Qplus l a == a + fold_left Qplus l 0)%Q.
Proof.
  revert a. induction l as [|x l IH]; intros a; simpl.
  - now rewrite Qplus_0_r.
  - rewrite (IH (a + x)%Q), (IH (0 + x)%Q). ring.
Qed.


Lemma sumQ_cons (x : Q) (l : list Q) : (sumQ (x :: l) == x + sumQ l)%Q.
Proof.
  unfold sumQ. rewrite !Qred_correct. simpl.
  rewrite fold_left_Qplus. ring.
Qed.






Lemma get_sales_trends_eq (e : Env) (period_days : Z) :
  get_sales_trends e period_days
  = map sales_trend_row (groupby date (recent_data e period_days)).
Proof. reflexivity. Qed.

Lemma sales_trend_dates (e : Env) (period_days : Z) :
  map st_date (get_sales_trends e period_days)
  = group_keys date (recent_data e period_days).
Proof.
  rewrite get_sales_trends_eq, map_map. simpl.
  change (map (fun x => fst x) (groupby date (recent_data e period_days)))
    with (map fst (groupby date (recent_data e period_days))).
  apply (groupby_keys date).
Qed.

(** X1: the sales trend has one row per date that has a record in the
    window, and no other; its rows are in strictly ascending order of
    their dates. *)
Theorem sales_trends_dates_ascending (e : Env) (period_days : Z) :
  StronglySorted (fun a b => st_date a < st_date b)
                 (get_sales_trends e period_days) /\
  (forall d : instant,
      In d (map st_date (get_sales_trends e period_days)) <->
      clock e 0 - timedelta_days period_days <= d /\
      exists r, In r (load_sales_data e) /\ date r = d).
Proof.
  split.
  - apply (proj2 (StronglySorted_map Z.lt st_date _)).
    rewrite sales_trend_dates.
    eapply StronglySorted_weaken;
      [|exact (group_keys_sorted date (recent_data e period_days))].
    intros a b _ _ Hlt. now apply Z.ltb_lt.
  - intros d. rewrite sales_trend_dates, (group_keys_In date). split.
    + intros (r & Hr & Hd). apply filter_In in Hr as [Hr Hc].
      apply Z.leb_le in Hc. subst d. split; [exact Hc|eauto].
    + intros (Hc & r & Hr & Hd). exists r. split; [|exact Hd].
      apply filter_In. split; [exact Hr|]. apply Z.leb_le. now rewrite Hd.
Qed.


(** X3: the trend of a shorter period is the trend of a longer one
    without the rows before the shorter window: widening the period
    adds older days and changes no row. *)
Theorem sales_trends_shorter_period (e : Env) (p1 p2 : Z) :
  p1 <= p2 ->
  get_sales_trends e p1 =
  filter (fun row => clock e 0 - timedelta_days p1 <=? st_date row)
         (get_sales_trends e p2).
Proof.
  intros Hle. rewrite !get_sales_trends_eq.
  assert (Hrecent : recent_data e p1 =
                    filter (fun r => clock e 0 - timedelta_days p1 <=? date r)
                           (recent_data e p2)).
  { unfold recent_data.
    induction (load_sales_data e) as [|r l IH]; simpl; [reflexivity|].
    destruct (clock e 0 - timedelta_days p2 <=? date r) eqn:E2; simpl;
      destruct (clock e 0 - timedelta_days p1 <=? date r) eqn:E1;
      rewrite ?IH; try reflexivity.
    apply Z.leb_le in E1. apply Z.leb_gt in E2.
    unfold timedelta_days in *. lia. }
  rewrite Hrecent.
  rewrite (groupby_filter date
             (fun d => clock e 0 - timedelta_days p1 <=? d) (recent_data e p2)).
  induction (groupby date (recent_data e p2)) as [|g gs IH]; simpl;
    [reflexivity|].
  destruct (clock e 0 - timedelta_days p1 <=? fst g); simpl; now rewrite IH.
Qed.

(* ================================================================= *)
(** ** The waste table *)


(* ================================================================= *)
(** ** Rounding whole numbers *)

Lemma Qred_inject_Z (z : Z) : Qred (inject_Z z) = inject_Z z.
Proof.
  unfold Qred, inject_Z.
  pose proof (Z.ggcd_gcd z 1) as Hg.
  pose proof (Z.ggcd_correct_divisors z 1) as Hd.
  destruct (Z.ggcd z 1) as [g [aa bb]]. simpl in *.
  rewrite Z.gcd_1_r in Hg. subst g. destruct Hd as [Ha Hb].
  rewrite Z.mul_1_l in Ha, Hb. subst aa bb. reflexivity.
Qed.

(** [round(2)] leaves a whole number as it is. *)
Lemma round2_inject_Z (z : Z) : round2 (inject_Z z) = inject_Z z.
Proof.
  unfold round2.
  assert (Hq : (inject_Z z * 100 == inject_Z (z * 100))%Q)
    by (rewrite inject_Z_mult; reflexivity).
  assert (Hr : rint (inject_Z z * 100) = z * 100).
  { unfold rint. rewrite (Qfloor_comp _ _ Hq), Qfloor_Z.
    assert (Hc : Qcompare (inject_Z z * 100 - inject_Z (z * 100)) (1 # 2) = Lt).
    { apply Qlt_alt. rewrite Hq.
      setoid_replace (inject_Z (z * 100) - inject_Z (z * 100))%Q
        with 0%Q by ring. reflexivity. }
    now rewrite Hc. }
  rewrite Hr, <- Qred_inject_Z. apply Qred_complete.
  unfold Qeq, inject_Z. simpl. lia.
Qed.

(** X5: the performance table and the waste table give every menu item
    the same waste percentage.  The first computes it from the rounded
    sums and the second from the sums themselves, and rounding leaves the
    whole quantities as they are. *)
Theorem waste_percentage_agrees (argsort : list Q -> list nat) (e : Env)
    (perf : MenuPerformance) (waste : WasteSummary) :
  In perf (get_menu_performance argsort e) ->
  In waste (get_waste_analysis argsort e) ->
  mp_menu_item perf = ws_menu_item waste ->
  mp_waste_percentage perf = ws_waste_percentage waste.
Proof.
  intros Hp Hw Hitem.
  destruct (menu_performance_row_of argsort e perf Hp) as [_ Hperf].
  pose proof (waste_analysis_row argsort e waste Hw) as Hwaste.
  rewrite Hperf, Hwaste, Hitem.
  unfold menu_performance_row, waste_summary_row.
  cbn [mp_waste_percentage ws_waste_percentage fst snd].
  now rewrite !round2_inject_Z.
Qed.

(* ================================================================= *)
(** ** The percentile and the best item *)

Lemma length_sort_Q (l : list Q) : List.length (sort_Q l) = List.length l.
Proof. apply Permutation_length, sort_Q_Permutation. Qed.

(** A quantile is no greater than an upper bound of the values. *)
Lemma quantile_upper_bound (vals : list Q) (q hi : Q) :
  (0 <= q)%Q -> (q <= 1)%Q ->
  Forall (fun x => (x <= hi)%Q) vals ->
  forall x : Q, quantile vals q = Fin x -> (x <= hi)%Q.
Proof.
  intros Hq0 Hq1 Hall x. destruct vals as [|v vals]; [discriminate|].
  unfold quantile.
  set (l := v :: vals) in *.
  set (n := Z.of_nat (List.length l)).
  set (h := (inject_Z (n - 1) * q)%Q).
  assert (Hn : 1 <= n) by (unfold n, l; simpl; lia).
  assert (Hn1 : (0 <= inject_Z (n - 1))%Q)
    by (rewrite <- (Zle_Qle 0); lia).
  assert (Hh0 : (0 <= h)%Q) by (unfold h; nra).
  assert (Hh1 : (h <= inject_Z (n - 1))%Q) by (unfold h; nra).
  assert (Hlo0 : 0 <= Qfloor h).
  { rewrite <- (Qfloor_Z 0). now apply Qfloor_resp_le. }
  assert (Hlo1 : Qfloor h <= n - 1).
  { rewrite <- (Qfloor_Z (n - 1)). now apply Qfloor_resp_le. }
  assert (Hg0 : (0 <= h - inject_Z (Qfloor h))%Q).
  { pose proof (Qfloor_le h). lra. }
  assert (Hg1 : (h - inject_Z (Qfloor h) <= 1)%Q).
  { pose proof (Qlt_floor h) as Hlt. rewrite inject_Z_plus in Hlt.
    change (inject_Z 1) with 1%Q in Hlt. lra. }
  assert (Hsorted : forall i, (i < List.length l)%nat ->
                              (nth i (sort_Q l) 0 <= hi)%Q).
  { intros i Hi. rewrite Forall_forall in Hall. apply Hall.
    apply (Permutation_in _ (sort_Q_Permutation l)).
    apply nth_In. now rewrite length_sort_Q. }
  intros Hx.
  assert (Hfin : forall a b : Q, Fin a = Fin b -> a = b)
    by (intros a b Hab; now inversion Hab).
  apply Hfin in Hx. rewrite <- Hx. cbv zeta.
  fold l n h. rewrite Qred_correct.
  assert (Ha := Hsorted (Z.to_nat (Qfloor h)) ltac:(unfold n in *; lia)).
  assert (Hb := Hsorted (Z.to_nat (Z.min (Qfloor h + 1) (n - 1)))
                        ltac:(unfold n in *; lia)).
  nra.
Qed.

Lemma head_In {A : Type} (n : nat) (l : list A) (x : A) :
  In x (head n l) -> In x l.
Proof.
  intros Hx. rewrite <- (firstn_skipn n l). apply in_or_app. now left.
Qed.

Lemma info_rec_item (r1 r2 : MenuPerformance) :
  info_rec r1 = info_rec r2 -> mp_menu_item r1 = mp_menu_item r2.
Proof.
  intros Heq. apply (f_equal rec_message) in Heq.
  unfold info_rec in Heq. cbn [rec_message] in Heq.
  exact (append_cancel_l _ _ _ Heq).
Qed.

Lemma menu_performance_same_item (argsort : list Q -> list nat) (e : Env)
    (r1 r2 : MenuPerformance) :
  In r1 (get_menu_performance argsort e) ->
  In r2 (get_menu_performance argsort e) ->
  mp_menu_item r1 = mp_menu_item r2 -> r1 = r2.
Proof.
  intros H1 H2 Heq.
  destruct (menu_performance_row_of _ _ _ H1) as [_ E1].
  destruct (menu_performance_row_of _ _ _ H2) as [_ E2].
  rewrite E1, E2, Heq. reflexivity.
Qed.

Lemma best_item_not_low (argsort : list Q -> list nat) (e : Env)
    (row : MenuPerformance) :
  (forall r, In r (get_menu_performance argsort e) ->
             (profitability r <= profitability row)%Q) ->
  ~ In row (low_performers argsort e).
Proof.
  intros Hbest Hin. unfold low_performers in Hin.
  apply filter_In in Hin as [Hin Hlt].
  destruct (quantile_cases
              (map profitability (get_menu_performance argsort e)) (1 # 4))
    as [Hq|(x & Hq)]; rewrite Hq in Hlt; [discriminate|].
  apply Qltb_lt in Hlt.
  assert (Hall : Forall (fun p => (p <= profitability row)%Q)
                        (map profitability (get_menu_performance argsort e))).
  { apply Forall_forall. intros p Hp.
    apply in_map_iff in Hp as (r & <- & Hr). now apply Hbest. }
  assert (Hx : (x <= profitability row)%Q).
  { apply (quantile_upper_bound _ (1 # 4) (profitability row)
             ltac:(discriminate) ltac:(discriminate) Hall x Hq). }
  exact (Qlt_not_le _ _ Hlt Hx).
Qed.

(** X6: an item whose profitability no other item exceeds never gets a
    low-profitability recommendation; and when every item has that same
    profitability (a ledger of one item, for one), no low-profitability
    recommendation is emitted at all. *)
Theorem best_item_never_informed (argsort : list Q -> list nat) (e : Env)
    (row : MenuPerformance) :
  In row (get_menu_performance argsort e) ->
  (forall r, In r (get_menu_performance argsort e) ->
             (profitability r <= profitability row)%Q) ->
  ~ informed_for (mp_menu_item row) (generate_recommendations argsort e) /\
  ((forall r, In r (get_menu_performance argsort e) ->
              (profitability r == profitability row)%Q) ->
   of_type "info" (generate_recommendations argsort e) = []).
Proof.
  intros Hrow Hbest. split.
  - intros (row' & Hitem & Hin).
    assert (Hi : In (info_rec row')
                    (of_type "info" (generate_recommendations argsort e))).
    { apply filter_In. split; [exact Hin|reflexivity]. }
    rewrite infos_of_recommendations in Hi.
    apply in_map_iff in Hi as (r & Heq & Hr).
    apply info_rec_item in Heq.
    apply head_In in Hr.
    assert (Hperf : In r (get_menu_performance argsort e)).
    { unfold low_performers in Hr. now apply filter_In in Hr. }
    assert (r = row)
      by (apply (menu_performance_same_item argsort e); auto; congruence).
    subst r. exact (best_item_not_low argsort e row Hbest Hr).
  - intros Hsame. rewrite infos_of_recommendations.
    destruct (low_performers argsort e) as [|r l] eqn:E; [reflexivity|].
    assert (Hr : In r (low_performers argsort e)) by (rewrite E; now left).
    exfalso. apply (best_item_not_low argsort e r); [|exact Hr].
    assert (Hperf : In r (get_menu_performance argsort e)).
    { unfold low_performers in Hr. now apply filter_In in Hr. }
    intros r' Hr'. rewrite (Hsame r' Hr'), (Hsame r Hperf). apply Qle_refl.
Qed.

Lemma forecast_rows_Fin (e : Env) (q : Q) (idxs : list nat) :
  forecast_rows e (Fin q) idxs =
  Ok (map (forecast_row_at e (Z.quot (Qnum q) (Zpos (Qden q)))) idxs).
Proof.
  induction idxs as [|i idxs IH]; simpl; [reflexivity|].
  rewrite IH. reflexivity.
Qed.

Lemma daily_totals_nil (l : list SalesRecord) :
  daily_totals l = [] <-> l = [].
Proof.
  unfold daily_totals. split.
  - intros Hnil. apply map_eq_nil in Hnil.
    destruct l as [|r l]; [reflexivity|].
    assert (Hk : In (date r) (group_keys date (r :: l)))
      by (apply (group_keys_In date); exists r; split; [now left|reflexivity]).
    rewrite <- (groupby_keys date), Hnil in Hk. destruct Hk.
  - intros ->. reflexivity.
Qed.

Lemma forecast_value_cases (e : Env) :
  (recent_sales e = [] /\ forecast_value e = NaN) \/
  (recent_sales e <> [] /\ exists q : Q, forecast_value e = Fin q).
Proof.
  destruct (recent_sales e) as [|r l] eqn:E.
  - left. split; [reflexivity|]. unfold forecast_value. now rewrite E.
  - right. split; [discriminate|]. unfold forecast_value. rewrite E.
    apply mean_finite. intros Hnil. apply map_eq_nil, map_eq_nil in Hnil.
    revert Hnil. apply tail_nonempty; [|lia].
    intros Hd. apply daily_totals_nil in Hd. discriminate.
Qed.


Lemma sumQ_Z2Q (l : list Z) : (sumQ (Z2Q l) == inject_Z (sumZ l))%Q.
Proof.
  induction l as [|x l IH].
  - reflexivity.
  - unfold Z2Q in *. simpl map. rewrite sumQ_cons, sumZ_cons, IH, inject_Z_plus.
    reflexivity.
Qed.

Lemma sumZ_between (l : list Z) (lo hi : Z) :
  Forall (fun t => lo <= t <= hi) l ->
  lo * Z.of_nat (List.length l) <= sumZ l <= hi * Z.of_nat (List.length l).
Proof.
  induction 1 as [|x l Hx _ IH]; [unfold sumZ; simpl; lia|].
  rewrite sumZ_cons. cbn [List.length]. lia.
Qed.

(** Cutting a number to an integer keeps it between two whole bounds. *)
Lemma int_of_float_between (q : Q) (lo hi : Z) :
  (inject_Z lo <= q)%Q -> (q <= inject_Z hi)%Q ->
  lo <= Z.quot (Qnum q) (Zpos (Qden q)) <= hi.
Proof.
  unfold Qle, inject_Z. simpl. intros Hlo Hhi. split.
  - apply Z.quot_le_lower_bound; lia.
  - apply Z.quot_le_upper_bound; lia.
Qed.

Lemma mean_between (l : list Z) (lo hi : Z) (q : Q) :
  Forall (fun t => lo <= t <= hi) l ->
  mean (Z2Q l) = Fin q ->
  (inject_Z lo <= q)%Q /\ (q <= inject_Z hi)%Q.
Proof.
  intros Hall Hmean. destruct l as [|x l]; [discriminate|].
  pose proof (sumZ_between _ lo hi Hall) as [Hlo Hhi].
  set (xs := x :: l) in *.
  assert (Hfin : forall a b : Q, Fin a = Fin b -> a = b)
    by (intros a b Hab; now inversion Hab).
  apply Hfin in Hmean. rewrite <- Hmean. unfold qdiv.
  rewrite Qred_correct.
  assert (Hlen : List.length (Z2Q xs) = List.length xs) by apply length_map.
  rewrite Hlen, sumQ_Z2Q.
  set (n := Z.of_nat (List.length xs)) in *.
  assert (Hn : 0 < n) by (unfold n, xs; simpl; lia).
  assert (HnQ : (0 < inject_Z n)%Q) by (rewrite <- (Zlt_Qlt 0); exact Hn).
  split.
  - apply Qle_shift_div_l; [exact HnQ|].
    rewrite <- inject_Z_mult, <- Zle_Qle. exact Hlo.
  - apply Qle_shift_div_r; [exact HnQ|].
    rewrite <- inject_Z_mult, <- Zle_Qle. exact Hhi.
Qed.

(** X8: the forecast lies between the smallest and the greatest of the
    daily totals it averages (the last seven, or fewer): no forecast row
    exceeds the busiest of these days or falls below the quietest. *)
Theorem forecast_between_extremes (e : Env) (days lo hi : Z)
    (rows : list Forecast) :
  forecast_demand e days = Ok rows ->
  Forall (fun t => lo <= t <= hi)
         (map snd (tail 7 (daily_totals (recent_sales e)))) ->
  Forall (fun row => lo <= forecasted_demand row <= hi) rows.
Proof.
  change (forecast_demand e days)
    with (forecast_rows e (forecast_value e) (seq 0 (Z.to_nat days))).
  intros Hok Hall.
  destruct (forecast_value e) as [q| | |] eqn:Hv.
  - rewrite forecast_rows_Fin in Hok. injection Hok as <-.
    destruct (mean_between _ lo hi q Hall Hv) as [Hlo Hhi].
    apply Forall_forall. intros row Hrow.
    apply in_map_iff in Hrow as (i & <- & _).
    cbn [forecast_row_at forecasted_demand].
    now apply int_of_float_between.
  - destruct (forecast_value_cases e) as [[_ Hn]|[_ (q & Hq)]]; congruence.
  - destruct (forecast_value_cases e) as [[_ Hn]|[_ (q & Hq)]]; congruence.
  - destruct (seq 0 (Z.to_nat days)); simpl in Hok; [|discriminate].
    injection Hok as <-. constructor.
Qed.

(* ----------------------------------------------------------------- *)

Lemma index_of_first (v : string) (l : list string) (i : nat) :
  index_of v l = Some i ->
  nth_error l i = Some v /\
  forall j, (j < i)%nat -> nth_error l j <> Some v.
Proof.
  revert i. induction l as [|x l IH]; simpl; intros i; [discriminate|].
  destruct (String.eqb v x) eqn:E.
  - apply String.eqb_eq in E. intros [= <-]. subst. split; [reflexivity|].
    intros j Hj. lia.
  - apply String.eqb_neq in E.
    destruct (index_of v l) as [k|]; [|discriminate].
    intros [= <-]. destruct (IH k eq_refl) as [Hk Hfirst]. split; [exact Hk|].
    intros [|j] Hj; simpl; [congruence|]. apply Hfirst. lia.
Qed.

(** X9: [add_sales_record] refuses an item that is not on the menu and
    leaves the ledger as it was.  For an item of the menu (the price list
    being as long as the menu) it succeeds and appends one record, built
    with the price at the item's first position in the menu; the records
    that were there stay, in their order. *)
Theorem add_sales_record_outcome (config : Config)
    (current_data : list SalesRecord) (d : instant) (item : string)
    (sold wasted : Z) :
  (List.length (menu_items config) <= List.length (prices config))%nat ->
  (~ In item (menu_items config) ->
   add_sales_record config current_data d item sold wasted
   = (false, current_data)) /\
  (In item (menu_items config) ->
   exists (i : nat) (p : Q),
     nth_error (menu_items config) i = Some item /\
     (forall j, (j < i)%nat -> nth_error (menu_items config) j <> Some item) /\
     nth_error (prices config) i = Some p /\
     add_sales_record config current_data d item sold wasted
     = (true, current_data ++ [sales_record d item sold wasted p])).
Proof.
  intros Hlen. unfold add_sales_record. split.
  - intros Hnot. destruct (index_of item (menu_items config)) as [i|] eqn:E;
      [|reflexivity].
    destruct Hnot. apply index_of_In. eauto.
  - intros Hin. apply index_of_In in Hin as (i & Hi). rewrite Hi.
    destruct (index_of_first _ _ _ Hi) as [Hnth Hfirst].
    assert (Hlt : (i < List.length (prices config))%nat).
    { assert (i < List.length (menu_items config))%nat
        by (apply nth_error_Some; congruence). lia. }
    destruct (nth_error (prices config) i) as [p|] eqn:Hp.
    + exists i, p. repeat split; assumption.
    + apply nth_error_None in Hp. lia.
Qed.

Lemma strftime_A_weekday (t : instant) : In (strftime_A t) days_order.
Proof.
  unfold strftime_A. apply nth_In.
  assert (0 <= (day_number t + 3) mod 7 < 7) by (apply Z.mod_pos_bound; lia).
  simpl. lia.
Qed.

Lemma add_sales_record_weekday_labels (config : Config)
    (data : list SalesRecord) (d : instant) (item : string) (sold wasted : Z) :
  weekday_labels data ->
  weekday_labels (snd (add_sales_record config data d item sold wasted)).
Proof.
  intros Hw. unfold add_sales_record.
  destruct (index_of item (menu_items config)) as [i|]; [|exact Hw].
  destruct (nth_error (prices config) i) as [p|]; [|exact Hw].
  simpl. apply Forall_app. split; [exact Hw|].
  constructor; [|constructor]. simpl. apply strftime_A_weekday.
Qed.

Lemma is_weekday_iff (t : instant) :
  ((day_number t + 3) mod 7 <? 5) = true <->
  In (strftime_A t)
     ["Monday"; "Tuesday"; "Wednesday"; "Thursday"; "Friday"]%string.
Proof.
  unfold strftime_A.
  assert (Hb : 0 <= (day_number t + 3) mod 7 < 7)
    by (apply Z.mod_pos_bound; lia).
  set (k := (day_number t + 3) mod 7) in *.
  assert (Hk : k = 0 \/ k = 1 \/ k = 2 \/ k = 3 \/ k = 4 \/ k = 5 \/ k = 6)
    by lia.
  destruct Hk as [->|[->|[->|[->|[->|[->| ->]]]]]]; simpl;
    split; intros Hx; try reflexivity; try discriminate; auto 10;
    repeat (destruct Hx as [Hx|Hx]; [discriminate|]); destruct Hx.
Qed.

Lemma sales_record_consistent (config : Config) (d : instant) (item : string)
    (sold wasted : Z) (i : nat) (p : Q) :
  index_of item (menu_items config) = Some i ->
  nth_error (prices config) i = Some p ->
  record_consistent config (sales_record d item sold wasted p).
Proof.
  intros Hi Hp. unfold record_consistent, sales_record. simpl.
  split; [apply index_of_In; eauto|].
  split; [eapply nth_error_In, Hp|].
  unfold qmul. rewrite !Qred_correct.
  split; [reflexivity|]. split; [reflexivity|]. split; [reflexivity|].
  split; [apply strftime_A_weekday|apply is_weekday_iff].
Qed.

(** X10: [add_sales_record] keeps a ledger consistent.  Where every
    record has an item of the menu, a price of the price list, the
    quantity sold times the price as its revenue, 0.3 times the wasted
    quantity times the price as its waste cost, the weekday name of its
    date, and an [is_weekday] that says whether that name is Monday to
    Friday, the same holds after the call, whether it added a record or
    refused. *)
Theorem add_sales_record_consistent (config : Config)
    (data : list SalesRecord) (d : instant) (item : string)
    (sold wasted : Z) :
  Forall (record_consistent config) data ->
  Forall (record_consistent config)
         (snd (add_sales_record config data d item sold wasted)).
Proof.
  intros IH. unfold add_sales_record.
  destruct (index_of item (menu_items config)) as [i|] eqn:Hi; [|exact IH].
  destruct (nth_error (prices config) i) as [p|] eqn:Hp; [|exact IH].
  simpl. apply Forall_app. split; [exact IH|].
  constructor; [|constructor].
  eapply sales_record_consistent; eassumption.
Qed.

(** X11: for a ledger that has records, all bearing a weekday name as
    the records written by [add_sales_record] do, every row of the weekday
    table is labelled with a weekday that has a record, in the order
    Monday to Sunday, and the table has seven rows at most. *)
Theorem daily_patterns_of_weekday_labels (argsort : list Q -> list nat)
    (e : Env) :
  argsort_spec argsort ->
  load_sales_data e <> [] ->
  weekday_labels (load_sales_data e) ->
  map dp_day_of_week (get_daily_patterns argsort e)
  = map Some (filter (present e) days_order) /\
  (List.length (get_daily_patterns argsort e) <= 7)%nat.
Proof.
  intros Hspec _ Hw.
  destruct (sorted_keys_known argsort Hspec e) as (unknown & Hk & Hun).
  assert (Hnone : unknown = []).
  { destruct unknown as [|d rest]; [reflexivity|]. exfalso.
    apply Forall_inv in Hun. apply Hun.
    assert (Hin : In d (sorted_labels argsort e))
      by (rewrite Hk; apply in_or_app; right; now left).
    apply (Permutation_in _ (sorted_keys_Permutation argsort Hspec e)) in Hin.
    apply (group_keys_In day_of_week) in Hin as (r & Hr & <-).
    unfold weekday_labels in Hw. rewrite Forall_forall in Hw. now apply Hw. }
  rewrite Hnone, app_nil_r in Hk.
  assert (Hlabels : map dp_day_of_week (get_daily_patterns argsort e)
                    = map Some (filter (present e) days_order)).
  { rewrite daily_pattern_labels, Hk.
    apply map_ext_in. intros d Hd. apply filter_In in Hd as [Hd _].
    now apply label_code_known. }
  split; [exact Hlabels|].
  rewrite <- (length_map dp_day_of_week), Hlabels, length_map.
  apply (Nat.le_trans _ _ _ (filter_length_le _ _)). simpl. lia.
Qed.

Lemma get_sales_summary_eq (e : Env) (s t : option instant) :
  get_sales_summary e s t =
  let data := summary_data e s t in
  {| ss_total_revenue := sumQ (map revenue data);
     ss_total_items_sold := sumZ (map quantity_sold data);
     ss_total_waste_cost := sumQ (map waste_cost data);
     ss_average_daily_sales := mean (Z2Q (map snd (daily_totals data)));
     ss_waste_percentage :=
       fmul (fdiv (Fin (sumQ (map waste_cost data)))
                  (Fin (sumQ (map revenue data)))) (Fin 100) |}.
Proof. reflexivity. Qed.

Lemma filter_filter {A : Type} (f g : A -> bool) (l : list A) :
  filter g (filter f l) = filter (fun x => f x && g x) l.
Proof.
  induction l as [|x l IH]; simpl; [reflexivity|].
  destruct (f x); simpl; [destruct (g x)|]; now rewrite IH.
Qed.

Lemma filter_true {A : Type} (l : list A) : filter (fun _ => true) l = l.
Proof. induction l as [|x l IH]; simpl; [reflexivity|now rewrite IH]. Qed.

Lemma summary_data_filter (e : Env) (s t : option instant) :
  summary_data e s t
  = filter (fun r => in_range s t (date r)) (load_sales_data e).
Proof.
  unfold summary_data, in_range. destruct s as [a|], t as [b|]; cbv zeta.
  - apply filter_filter.
  - apply filter_ext. intros r. now rewrite andb_true_r.
  - apply filter_ext. intros r. reflexivity.
  - symmetry. apply filter_true.
Qed.



(** X14: over a range that ends before it starts, the summary of a
    ledger that has records has zero totals, and its average and its waste
    percentage are NaN; nothing is raised. *)
Theorem summary_of_empty_range (e : Env) (s t : instant) :
  load_sales_data e <> [] ->
  t < s ->
  get_sales_summary e (Some s) (Some t)
  = {| ss_total_revenue := 0;
       ss_total_items_sold := 0;
       ss_total_waste_cost := 0;
       ss_average_daily_sales := NaN;
       ss_waste_percentage := NaN |}.
Proof.
  intros _ Hlt. rewrite get_sales_summary_eq.
  assert (Hnil : summary_data e (Some s) (Some t) = []).
  { rewrite summary_data_filter. unfold in_range.
    induction (load_sales_data e) as [|r l IH]; simpl; [reflexivity|].
    destruct (s <=? date r) eqn:E1; simpl; [|exact IH].
    destruct (date r <=? t) eqn:E2; [|exact IH].
    apply Z.leb_le in E1, E2. lia. }
  rewrite Hnil. reflexivity.
Qed.

Lemma popularity_le_1 (n : Z) : (popularity n <= 1)%Q.
Proof.
  unfold popularity. cbv zeta.
  destruct (Qle_bool (qdiv (inject_Z n) 100) 1) eqn:E.
  - now apply Qle_bool_iff.
  - apply Qle_refl.
Qed.

Lemma update_item_sales_map {A : Type} (f : FoodItem -> A)
    (Hf : forall item q, f (sold_more item q) = f item)
    (items : list FoodItem) (n : string) (q : Z) :
  map f (update_item_sales items n q) = map f items.
Proof.
  induction items as [|item rest IH]; simpl; [reflexivity|].
  destruct ((name item =? n)%string && is_active item); simpl.
  - now rewrite Hf.
  - now rewrite IH.
Qed.

Lemma deactivate_item_map {A : Type} (f : FoodItem -> A)
    (Hf : forall item, f (deactivated item) = f item)
    (items : list FoodItem) (i : Z) :
  map f (deactivate_item items i) = map f items.
Proof.
  induction items as [|item rest IH]; simpl; [reflexivity|].
  destruct (item_id item =? i); simpl.
  - now rewrite Hf.
  - now rewrite IH.
Qed.

Lemma update_item_sales_length (items : list FoodItem) (n : string) (q : Z) :
  List.length (update_item_sales items n q) = List.length items.
Proof.
  rewrite <- (length_map item_id), update_item_sales_map, length_map;
    reflexivity.
Qed.

Lemma deactivate_item_length (items : list FoodItem) (i : Z) :
  List.length (deactivate_item items i) = List.length items.
Proof.
  rewrite <- (length_map item_id), deactivate_item_map, length_map;
    reflexivity.
Qed.

Lemma ids_in_turn_S (n : nat) :
  ids_in_turn (S n) = ids_in_turn n ++ [Z.of_nat n + 1].
Proof.
  unfold ids_in_turn. rewrite seq_S, map_app. simpl. do 2 f_equal. lia.
Qed.

Lemma ids_in_turn_In (n : nat) (i : Z) :
  In i (ids_in_turn n) <-> 1 <= i <= Z.of_nat n.
Proof.
  unfold ids_in_turn. rewrite in_map_iff. split.
  - intros (k & <- & Hk). apply in_seq in Hk. lia.
  - intros Hi. exists (Z.to_nat i). split; [lia|]. apply in_seq. lia.
Qed.

Lemma ids_in_turn_NoDup (n : nat) : NoDup (ids_in_turn n).
Proof.
  unfold ids_in_turn. apply Finite.Injective_map_NoDup.
  - intros a b Hab. lia.
  - apply seq_NoDup.
Qed.

Lemma managed_ids (items : list FoodItem) :
  managed items -> map item_id items = ids_in_turn (List.length items).
Proof.
  induction 1 as [|now items n c sp cp ing pt tags _ IH|items n q _ IH
                 |items i _ IH].
  - reflexivity.
  - simpl. rewrite map_app, length_app, IH. simpl.
    rewrite Nat.add_1_r, ids_in_turn_S. reflexivity.
  - rewrite update_item_sales_map, update_item_sales_length by reflexivity.
    exact IH.
  - rewrite deactivate_item_map, deactivate_item_length by reflexivity.
    exact IH.
Qed.

Lemma managed_consistent (items : list FoodItem) :
  managed items -> Forall item_consistent items.
Proof.
  induction 1 as [|now items n c sp cp ing pt tags _ IH|items n q _ IH
                 |items i _ IH].
  - constructor.
  - simpl. apply Forall_app. split; [exact IH|]. constructor; [|constructor].
    repeat split. simpl. discriminate.
  - induction IH as [|item rest Hitem Hrest IHrest]; simpl; [constructor|].
    destruct ((name item =? n)%string && is_active item).
    + constructor; [|assumption]. destruct Hitem as (Hp & _ & _).
      repeat split; simpl; [exact Hp|apply popularity_le_1].
    + constructor; assumption.
  - induction IH as [|item rest Hitem Hrest IHrest]; simpl; [constructor|].
    destruct (item_id item =? i).
    + constructor; [|assumption]. exact Hitem.
    + constructor; assumption.
Qed.

(** X15: The items of a manager that started empty carry the ids 1, 2, ...
    in the order of the list, so no two share an id; the profit margin of
    each is its selling price less its cost price, and its popularity score
    is the smaller of a hundredth of its total sold and 1. *)
Theorem managed_food_items_invariant (items : list FoodItem) :
  managed items ->
  map item_id items = ids_in_turn (List.length items) /\
  NoDup (map item_id items) /\
  Forall item_consistent items.
Proof.
  intros H. split; [now apply managed_ids|]. split.
  - rewrite (managed_ids _ H). apply ids_in_turn_NoDup.
  - now apply managed_consistent.
Qed.

(* ----------------------------------------------------------------- *)

Lemma deactivate_item_absent (items : list FoodItem) (i : Z) :
  ~ In i (map item_id items) -> deactivate_item items i = items.
Proof.
  induction items as [|item rest IH]; simpl; intros Hn; [reflexivity|].
  destruct (Z.eqb_spec (item_id item) i) as [E|E]; [tauto|].
  rewrite IH; tauto.
Qed.

Lemma filter_absent_id (items : list FoodItem) (i : Z) :
  ~ In i (map item_id items) ->
  filter (fun item => negb (item_id item =? i)) items = items.
Proof.
  induction items as [|item rest IH]; simpl; intros Hn; [reflexivity|].
  destruct (Z.eqb_spec (item_id item) i) as [E|E]; [tauto|]. simpl.
  rewrite IH; tauto.
Qed.

Lemma deactivate_item_active (items : list FoodItem) (i : Z) :
  NoDup (map item_id items) ->
  get_active_items (deactivate_item items i) =
  filter (fun item => negb (item_id item =? i)) (get_active_items items).
Proof.
  unfold get_active_items.
  induction items as [|item rest IH]; simpl; intros Hnd; [reflexivity|].
  apply NoDup_cons_iff in Hnd as [Hnotin Hnd].
  destruct (Z.eqb_spec (item_id item) i) as [E|E]; simpl.
  - subst i.
    assert (Hrest : filter (fun x => negb (item_id x =? item_id item))
                      (filter is_active rest) = filter is_active rest).
    { apply filter_absent_id. intros Hin. apply Hnotin.
      apply in_map_iff in Hin as (x & Hx & Hin). apply filter_In in Hin.
      apply in_map_iff. exists x. tauto. }
    destruct (is_active item); simpl.
    + rewrite Z.eqb_refl. simpl. now rewrite Hrest.
    + now rewrite Hrest.
  - rewrite (IH Hnd). destruct (is_active item); simpl; [|reflexivity].
    destruct (Z.eqb_spec (item_id item) i) as [E'|E']; [contradiction|].
    reflexivity.
Qed.

(** X16: Where no two items share an id, [deactivate_item] takes the item
    of the id out of the active items and leaves every other active item in
    place; an id no item has changes nothing, and so does a second call. *)
Theorem deactivate_item_removes_one (items : list FoodItem) (i : Z) :
  NoDup (map item_id items) ->
  get_active_items (deactivate_item items i) =
    filter (fun item => negb (item_id item =? i)) (get_active_items items) /\
  (~ In i (map item_id items) -> deactivate_item items i = items) /\
  get_active_items (deactivate_item (deactivate_item items i) i) =
    get_active_items (deactivate_item items i).
Proof.
  intros Hnd. split; [now apply deactivate_item_active|].
  split; [apply deactivate_item_absent|].
  rewrite (deactivate_item_active (deactivate_item items i)).
  - rewrite (deactivate_item_active items i Hnd), filter_filter.
    apply filter_ext. intros x. now rewrite andb_diag.
  - rewrite deactivate_item_map by reflexivity. exact Hnd.
Qed.

Lemma update_item_sales_none (items : list FoodItem) (n : string) (q : Z) :
  none_active n items -> update_item_sales items n q = items.
Proof.
  induction items as [|item rest IH]; simpl; intros Hn; [reflexivity|].
  destruct (String.eqb_spec (name item) n) as [E|E]; simpl.
  - rewrite (Hn item (or_introl eq_refl) E). f_equal. apply IH.
    intros x Hx. apply Hn. now right.
  - f_equal. apply IH. intros x Hx. apply Hn. now right.
Qed.

Lemma update_item_sales_first (pre post : list FoodItem) (item : FoodItem)
    (n : string) (q : Z) :
  none_active n pre -> name item = n -> is_active item = true ->
  update_item_sales (pre ++ item :: post) n q =
  pre ++ sold_more item q :: post.
Proof.
  intros Hpre Hname Hact.
  induction pre as [|x pre IH]; simpl.
  - rewrite Hname, String.eqb_refl, Hact. reflexivity.
  - destruct (String.eqb_spec (name x) n) as [E|E]; simpl.
    + rewrite (Hpre x (or_introl eq_refl) E). f_equal. apply IH.
      intros y Hy. apply Hpre. now right.
    + f_equal. apply IH. intros y Hy. apply Hpre. now right.
Qed.

(** X17: [update_item_sales] adds the quantity to the first active item of
    the name and to no other item, also where more items share the name;
    with no active item of the name it changes nothing.  The active items
    keep their names and the categories stay as they were. *)
Theorem update_item_sales_first_active (items : list FoodItem) (n : string)
    (q : Z) :
  (none_active n items -> update_item_sales items n q = items) /\
  (forall pre item post,
      items = pre ++ item :: post ->
      none_active n pre -> name item = n -> is_active item = true ->
      update_item_sales items n q = pre ++ sold_more item q :: post) /\
  map name (get_active_items (update_item_sales items n q)) =
    map name (get_active_items items) /\
  get_food_categories (update_item_sales items n q) =
    get_food_categories items.
Proof.
  split; [apply update_item_sales_none|]. split.
  { intros pre item post ->. apply update_item_sales_first. }
  assert (Hsame : forall (A : Type) (f : FoodItem -> A),
             (forall item k, f (sold_more item k) = f item) ->
             map f (get_active_items (update_item_sales items n q)) =
             map f (get_active_items items)).
  { intros A f Hf. unfold get_active_items.
    induction items as [|item rest IH]; simpl; [reflexivity|].
    destruct ((name item =? n)%string && is_active item); simpl.
    - destruct (is_active item); simpl; [now rewrite Hf|reflexivity].
    - destruct (is_active item); simpl; now rewrite IH. }
  split; [now apply Hsame|].
  unfold get_food_categories.
  assert (Hkeys : forall l : list FoodItem,
             group_keys category l = group_keys (fun c : string => c)
                                       (map category l)).
  { induction l as [|x l IH]; simpl; [reflexivity|]. now rewrite IH. }
  rewrite !Hkeys, Hsame; reflexivity.
Qed.

(* ----------------------------------------------------------------- *)

(** X18: [get_food_categories] lists, in ascending order and once each, the
    categories that an active item has: a category whose items are all
    switched off is not listed. *)
Theorem food_categories_of_active_items (items : list FoodItem) :
  StronglySorted (fun a b => String.ltb a b = true)
    (get_food_categories items) /\
  NoDup (get_food_categories items) /\
  forall c, In c (get_food_categories items) <->
            exists item, In item items /\ is_active item = true /\
                         category item = c.
Proof.
  unfold get_food_categories.
  split; [exact (group_keys_sorted category _)|].
  split; [apply group_keys_NoDup|].
  intros c. rewrite group_keys_In. unfold get_active_items. split.
  - intros (item & Hin & Hc). apply filter_In in Hin. exists item. tauto.
  - intros (item & Hin & Hact & Hc). exists item. split; [|exact Hc].
    apply filter_In. tauto.
Qed.

(* ----------------------------------------------------------------- *)

(** X19: An item added to a managed list comes last among the active items
    with an id that no other item has, and its category is listed;
    deactivating it by its id gives back the active items of before. *)
Theorem add_food_item_then_deactivate (now : instant)
    (items : list FoodItem) (n c : string) (sp cp : Q) (ing : list string)
    (pt : Z) (tags : list string) :
  managed items ->
  let '(new_item, items') := add_food_item now items n c sp cp ing pt tags in
  get_active_items items' = get_active_items items ++ [new_item] /\
  ~ In (item_id new_item) (map item_id items) /\
  In c (get_food_categories items') /\
  get_active_items (deactivate_item items' (item_id new_item)) =
    get_active_items items.
Proof.
  intros Hm. unfold add_food_item. cbv zeta.
  set (new_item := {| item_id := Z.of_nat (List.length items) + 1;
                      name := n |}).
  assert (Hfresh : ~ In (item_id new_item) (map item_id items)).
  { rewrite (managed_ids _ Hm), ids_in_turn_In. simpl. lia. }
  assert (Hact : get_active_items (items ++ [new_item]) =
                 get_active_items items ++ [new_item]).
  { unfold get_active_items. now rewrite filter_app. }
  split; [exact Hact|]. split; [exact Hfresh|]. split.
  - unfold get_food_categories. apply group_keys_In. exists new_item.
    split; [|reflexivity]. rewrite Hact. apply in_or_app. right. now left.
  - rewrite deactivate_item_active.
    + rewrite Hact, filter_app. simpl. rewrite Z.eqb_refl. simpl.
      rewrite app_nil_r. apply filter_absent_id. intros Hin. apply Hfresh.
      apply in_map_iff in Hin as (x & Hx & Hin). apply filter_In in Hin.
      apply in_map_iff. exists x. tauto.
    + rewrite map_app. simpl.
      change (NoDup (map item_id items ++ [Z.of_nat (List.length items) + 1])).
      rewrite (managed_ids _ Hm), <- ids_in_turn_S. apply ids_in_turn_NoDup.
Qed.

(* ================================================================= *)
(** ** Recording a sale from the application *)

Lemma find_active_none (n : string) (items : list FoodItem) :
  find (fun item => (name item =? n)%string) (get_active_items items) = None
  <-> none_active n items.
Proof.
  unfold get_active_items, none_active.
  induction items as [|x items IH]; simpl.
  - split; [intros _ item []|reflexivity].
  - destruct (is_active x) eqn:Hact; simpl.
    + destruct (String.eqb_spec (name x) n) as [E|E].
      * split; [discriminate|]. intros Hn.
        specialize (Hn x (or_introl eq_refl) E). congruence.
      * rewrite IH. split.
        -- intros Hn item [<-|Hin] Hname; [contradiction|now apply Hn].
        -- intros Hn item Hin. apply Hn. now right.
    + rewrite IH. split.
      * intros Hn item [<-|Hin] Hname; [exact Hact|now apply Hn].
      * intros Hn item Hin. apply Hn. now right.
Qed.

Lemma find_active_first (n : string) (pre post : list FoodItem)
    (item : FoodItem) :
  none_active n pre -> name item = n -> is_active item = true ->
  find (fun x => (name x =? n)%string) (get_active_items (pre ++ item :: post))
  = Some item.
Proof.
  intros Hpre Hname Hact. unfold get_active_items.
  induction pre as [|x pre IH]; simpl.
  - rewrite Hact. simpl. now rewrite Hname, String.eqb_refl.
  - assert (IH' := IH (fun y Hy => Hpre y (or_intror Hy))).
    destruct (is_active x) eqn:Hx; simpl; [|exact IH'].
    destruct (String.eqb_spec (name x) n) as [E|E]; [|exact IH'].
    specialize (Hpre x (or_introl eq_refl) E). congruence.
Qed.

Lemma resolve_price_none (config : Config) (items : list FoodItem)
    (n : string) :
  resolve_price config items n = None <->
  none_active n items /\
  exists idx, index_of n (menu_items config) = Some idx /\
              (List.length (prices config) <= idx)%nat.
Proof.
  unfold resolve_price.
  destruct (find _ (get_active_items items)) as [item|] eqn:Hfind.
  - split; [discriminate|]. intros [Hn _]. apply find_active_none in Hn.
    congruence.
  - apply find_active_none in Hfind.
    destruct (index_of n (menu_items config)) as [idx|].
    + rewrite nth_error_None. split.
      * intros Hlen. split; [exact Hfind|]. now exists idx.
      * intros (_ & idx' & [= <-] & Hlen). exact Hlen.
    + split; [discriminate|]. intros (_ & idx & Hidx & _). discriminate.
Qed.

Lemma qmul_0_r (a : Q) : qmul a 0 = 0%Q.
Proof.
  unfold qmul. change 0%Q with (Qred 0) at 2. apply Qred_complete.
  apply Qmult_0_r.
Qed.

(** X20: [add_new_sales_record] fails only for an item that no active food
    item carries and that the configuration lists beyond the end of its
    prices; then neither the ledger nor the food items change.  Otherwise
    one record of the item, the date and the two quantities is appended,
    and the sale is passed on to [update_item_sales]. *)
Theorem add_new_sales_record_outcome (config : Config)
    (data : list SalesRecord) (items : list FoodItem) (d : instant)
    (n : string) (sold wasted : Z) :
  let '(ok, data', items') :=
    add_new_sales_record config data items d n sold wasted in
  (ok = false <->
   none_active n items /\
   exists idx, index_of n (menu_items config) = Some idx /\
               (List.length (prices config) <= idx)%nat) /\
  (ok = false -> data' = data /\ items' = items) /\
  (ok = true ->
   exists p, data' = data ++ [sales_record d n sold wasted p] /\
             items' = update_item_sales items n sold).
Proof.
  unfold add_new_sales_record.
  pose proof (resolve_price_none config items n) as Hnone.
  destruct (resolve_price config items n) as [p|].
  - cbv zeta. split; [|split].
    + split; [discriminate|]. intros H. apply Hnone in H. discriminate.
    + discriminate.
    + intros _. now exists p.
  - split; [|split].
    + split; [intros _; now apply Hnone|reflexivity].
    + now split.
    + discriminate.
Qed.

(** X21: The selling price of the first active food item of the name is the
    price of the record, whatever the configuration lists for the name, and
    the quantity sold is added to that food item. *)
Theorem food_item_price_comes_first (config : Config)
    (data : list SalesRecord) (pre post : list FoodItem) (item : FoodItem)
    (d : instant) (n : string) (sold wasted : Z) :
  none_active n pre -> name item = n -> is_active item = true ->
  add_new_sales_record config data (pre ++ item :: post) d n sold wasted =
  (true,
   data ++ [sales_record d n sold wasted (selling_price item)],
   pre ++ sold_more item sold :: post).
Proof.
  intros Hpre Hname Hact. unfold add_new_sales_record, resolve_price.
  rewrite (find_active_first n pre post item Hpre Hname Hact). cbv zeta.
  now rewrite (update_item_sales_first pre post item n sold Hpre Hname Hact).
Qed.

(** X22: For a name no active food item carries, the application records
    what the data manager records where the configuration lists the name;
    a name the configuration does not list either, which the data manager
    refuses, is recorded at the price 0, with no revenue and no waste cost.
    The food items stay as they are. *)
Theorem add_new_sales_record_without_food_item (config : Config)
    (data : list SalesRecord) (items : list FoodItem) (d : instant)
    (n : string) (sold wasted : Z) :
  none_active n items ->
  let '(ok, data', items') :=
    add_new_sales_record config data items d n sold wasted in
  items' = items /\
  (In n (menu_items config) ->
   (ok, data') = add_sales_record config data d n sold wasted) /\
  (~ In n (menu_items config) ->
   fst (add_sales_record config data d n sold wasted) = false /\
   ok = true /\
   exists r, data' = data ++ [r] /\ menu_item r = n /\
             quantity_sold r = sold /\ waste_quantity r = wasted /\
             price r = 0%Q /\ revenue r = 0%Q /\ waste_cost r = 0%Q).
Proof.
  intros Hn. unfold add_new_sales_record, resolve_price, add_sales_record.
  rewrite (proj2 (find_active_none n items) Hn).
  rewrite (update_item_sales_none items n sold Hn).
  destruct (index_of n (menu_items config)) as [idx|] eqn:Hidx.
  - destruct (nth_error (prices config) idx) as [p|]; cbv zeta.
    + split; [reflexivity|]. split; [reflexivity|].
      intros Hnot. destruct Hnot. apply index_of_In. now exists idx.
    + split; [reflexivity|]. split; [reflexivity|].
      intros Hnot. destruct Hnot. apply index_of_In. now exists idx.
  - cbv zeta. split; [reflexivity|]. split.
    + intros Hin. apply index_of_In in Hin as (i & Hi). congruence.
    + intros _. split; [reflexivity|]. split; [reflexivity|].
      eexists. split; [reflexivity|]. simpl.
      rewrite !qmul_0_r. repeat split; reflexivity.
Qed.

Lemma set_nth_app {A : Type} (pre post : list A) (x y : A) :
  set_nth (List.length pre) y (pre ++ x :: post) = pre ++ y :: post.
Proof. induction pre as [|z pre IH]; simpl; [reflexivity|now rewrite IH]. Qed.

Lemma no_active_user_cons (n : string) (user : User) (l : list User) :
  no_active_user n (user :: l) <->
  ((username user =? n)%string && u_is_active user = false) /\
  no_active_user n l.
Proof.
  unfold no_active_user. split.
  - intros Hn. split.
    + destruct (String.eqb_spec (username user) n) as [E|E]; [|reflexivity].
      simpl. apply Hn; [now left|exact E].
    + intros u Hu. apply Hn. now right.
  - intros [Hhead Hrest] u [<-|Hu] Hname.
    + rewrite Hname, String.eqb_refl in Hhead. exact Hhead.
    + now apply Hrest.
Qed.

(** The loop of [login], case by case *)
Lemma login_users_cases (now : instant) (a : SimpleAuth) (n p : string)
    (rest : list User) (i : nat) :
  (no_active_user n rest /\
   login_users now a n p rest i =
   (false, "Invalid username or password"%string, a)) \/
  (exists pre user post,
      rest = pre ++ user :: post /\ no_active_user n pre /\
      username user = n /\ u_is_active user = true /\
      ((password user = hash_password p /\
        login_users now a n p rest i =
        (true, ("Login successful as " ++ display_role (role user))%string,
         {| users := set_nth (i + List.length pre) (logged_in_at now user)
                             (users a);
            current_user := Some (i + List.length pre)%nat |})) \/
       (password user <> hash_password p /\
        login_users now a n p rest i =
        (false, "Invalid password"%string, a)))).
Proof.
  revert i. induction rest as [|user rest IH]; intros i.
  - left. split; [intros u []|reflexivity].
  - cbn [login_users].
    destruct ((username user =? n)%string && u_is_active user) eqn:Hmatch.
    + right. exists [], user, rest. apply andb_true_iff in Hmatch as [Hn Hact].
      apply String.eqb_eq in Hn. split; [reflexivity|].
      split; [intros u []|]. split; [exact Hn|]. split; [exact Hact|].
      simpl. rewrite Nat.add_0_r.
      destruct (String.eqb_spec (password user) (hash_password p)) as [E|E].
      * left. now split.
      * right. now split.
    + destruct (IH (S i)) as [[Hnone Heq]|(pre & u & post & -> & Hpre & Hn
                                           & Hact & Hcases)].
      * left. split; [|exact Heq]. apply no_active_user_cons. now split.
      * right. exists (user :: pre), u, post. split; [reflexivity|].
        split; [apply no_active_user_cons; now split|].
        split; [exact Hn|]. split; [exact Hact|].
        simpl List.length. rewrite Nat.add_succ_r. exact Hcases.
Qed.

Lemma first_active_unique (n : string) (pre pre' post post' : list User)
    (user user' : User) :
  pre ++ user :: post = pre' ++ user' :: post' ->
  no_active_user n pre -> username user = n -> u_is_active user = true ->
  no_active_user n pre' -> username user' = n -> u_is_active user' = true ->
  pre = pre' /\ user = user' /\ post = post'.
Proof.
  revert pre'. induction pre as [|x pre IH]; intros [|x' pre']; simpl;
    intros Heq Hpre Hn Hact Hpre' Hn' Hact'.
  - injection Heq as -> ->. now repeat split.
  - injection Heq as -> ->.
    specialize (Hpre' x' (or_introl eq_refl) Hn). congruence.
  - injection Heq as -> <-.
    specialize (Hpre user' (or_introl eq_refl) Hn'). congruence.
  - injection Heq as -> Heq.
    destruct (IH pre' Heq) as (-> & -> & ->); try assumption.
    + intros u Hu. apply Hpre. now right.
    + intros u Hu. apply Hpre'. now right.
    + now repeat split.
Qed.

Lemma nonempty_eqb (s : string) : s <> EmptyString -> (s =? EmptyString)%string = false.
Proof. intros H. now apply String.eqb_neq. Qed.

(** X23: [login] looks at the first active user of the name only: with the
    hash of the password stored there it makes that user the current one
    and sets the time of the login on it; with another hash it answers
    Invalid password, also where a later user of the name has the
    password.  A login that fails, for whatever reason, changes nothing:
    whoever was logged in stays logged in. *)
Theorem login_outcome (now : instant) (a : SimpleAuth) (n p : string) :
  (fst (fst (login now a n p)) = false -> snd (login now a n p) = a) /\
  (n = EmptyString \/ p = EmptyString ->
   login now a n p =
   (false, "Username and password are required"%string, a)) /\
  (n <> EmptyString -> p <> EmptyString ->
   (no_active_user n (users a) ->
    login now a n p = (false, "Invalid username or password"%string, a)) /\
   (forall pre user post,
       users a = pre ++ user :: post -> no_active_user n pre ->
       username user = n -> u_is_active user = true ->
       (password user = hash_password p ->
        login now a n p =
        (true, ("Login successful as " ++ display_role (role user))%string,
         {| users := pre ++ logged_in_at now user :: post;
            current_user := Some (List.length pre) |})) /\
       (password user <> hash_password p ->
        login now a n p = (false, "Invalid password"%string, a)))).
Proof.
  split; [|split].
  - unfold login.
    destruct ((n =? EmptyString)%string || (p =? EmptyString)%string);
      [reflexivity|].
    destruct (login_users_cases now a n p (users a) 0)
      as [[_ ->]|(pre & u & post & _ & _ & _ & _ & [[_ ->]|[_ ->]])];
      simpl; [reflexivity|discriminate|reflexivity].
  - unfold login. intros [->| ->]; simpl; [reflexivity|].
    now rewrite orb_true_r.
  - intros Hn Hp. unfold login.
    rewrite (nonempty_eqb n Hn), (nonempty_eqb p Hp). simpl.
    destruct (login_users_cases now a n p (users a) 0)
      as [[Hnone Heq]|(pre & u & post & Husers & Hpre & Hname & Hact & Hc)].
    + split; [intros _; exact Heq|].
      intros pre user post Husers _ Hname Hact.
      specialize (Hnone user). rewrite Husers in Hnone.
      rewrite Hnone in Hact; [discriminate| |exact Hname].
      apply in_or_app. right. now left.
    + split.
      * intros Hnone. specialize (Hnone u). rewrite Husers in Hnone.
        rewrite Hnone in Hact; [discriminate| |exact Hname].
        apply in_or_app. right. now left.
      * intros pre' user' post' Husers' Hpre' Hname' Hact'.
        rewrite Husers in Husers'.
        destruct (first_active_unique n pre pre' post post' u user' Husers'
                    Hpre Hname Hact Hpre' Hname' Hact') as (<- & <- & <-).
        destruct Hc as [[Hpw Heq]|[Hpw Heq]].
        -- split; [|intros Hne; contradiction]. intros _. rewrite Heq.
           simpl. now rewrite Husers, set_nth_app.
        -- split; [intros He; contradiction|]. intros _. exact Heq.
Qed.

(* ----------------------------------------------------------------- *)

Lemma existsb_username (n : string) (l : list User) :
  existsb (fun user => (username user =? n)%string) l = false <->
  ~ In n (map username l).
Proof.
  induction l as [|u l IH]; simpl; [tauto|].
  rewrite orb_false_iff, IH.
  destruct (String.eqb_spec (username u) n) as [E|E]; split.
  - intros [? _]. discriminate.
  - intros H. destruct H. now left.
  - intros [_ H] [E'|Hin]; [contradiction|]. now apply H.
  - intros H. split; [reflexivity|]. intros Hin. apply H. now right.
Qed.

(** X24: [add_user] adds a user exactly when the current user is an admin,
    the four required fields are not empty and no user, active or not, has
    the username; the new user comes last, active, with the next id and the
    hash of the password, and the current user stays.  A call that is
    refused changes nothing. *)
Theorem add_user_outcome (now : instant) (a : SimpleAuth)
    (n p r f e : string) :
  let '(ok, _, a') := add_user now a n p r f e in
  (ok = true <->
   is_admin a = true /\ n <> EmptyString /\ p <> EmptyString /\
   r <> EmptyString /\ f <> EmptyString /\ ~ In n (map username (users a))) /\
  (ok = false -> a' = a) /\
  (ok = true ->
   exists user,
     users a' = users a ++ [user] /\ current_user a' = current_user a /\
     user_id user = Z.of_nat (List.length (users a)) + 1 /\
     username user = n /\ password user = hash_password p /\
     role user = r /\ full_name user = f /\ email user = e /\
     u_is_active user = true /\ last_login user = None).
Proof.
  unfold add_user.
  destruct (is_admin a); simpl.
  2: { split; [|split]; [|reflexivity|discriminate].
       split; [discriminate|]. intros [H _]. discriminate. }
  destruct (String.eqb_spec n EmptyString) as [En|En]; simpl.
  { split; [|split]; [|reflexivity|discriminate].
    split; [discriminate|]. tauto. }
  destruct (String.eqb_spec p EmptyString) as [Ep|Ep]; simpl.
  { split; [|split]; [|reflexivity|discriminate].
    split; [discriminate|]. tauto. }
  destruct (String.eqb_spec r EmptyString) as [Er|Er]; simpl.
  { split; [|split]; [|reflexivity|discriminate].
    split; [discriminate|]. tauto. }
  destruct (String.eqb_spec f EmptyString) as [Ef|Ef]; simpl.
  { split; [|split]; [|reflexivity|discriminate].
    split; [discriminate|]. tauto. }
  destruct (existsb _ (users a)) eqn:Hex.
  - split; [|split]; [|reflexivity|discriminate].
    split; [discriminate|]. intros (_ & _ & _ & _ & _ & Hnot).
    apply existsb_username in Hnot. congruence.
  - apply existsb_username in Hex.
    split; [|split]; [|discriminate|].
    + split; [|reflexivity]. intros _. tauto.
    + intros _. eexists. repeat split.
Qed.

(* ----------------------------------------------------------------- *)

Lemma add_user_success (now : instant) (a : SimpleAuth) (n p r f e : string) :
  fst (fst (add_user now a n p r f e)) = true ->
  n <> EmptyString /\ p <> EmptyString /\
  ~ In n (map username (users a)) /\
  exists user,
    snd (add_user now a n p r f e) =
      {| users := users a ++ [user]; current_user := current_user a |} /\
    user_id user = Z.of_nat (List.length (users a)) + 1 /\
    username user = n /\ password user = hash_password p /\
    role user = r /\ full_name user = f /\ u_is_active user = true.
Proof.
  unfold add_user.
  destruct (is_admin a); simpl; [|discriminate].
  destruct (String.eqb_spec n EmptyString) as [En|En]; simpl; [discriminate|].
  destruct (String.eqb_spec p EmptyString) as [Ep|Ep]; simpl; [discriminate|].
  destruct ((r =? EmptyString)%string || (f =? EmptyString)%string);
    simpl; [discriminate|].
  destruct (existsb _ (users a)) eqn:Hex; simpl; [discriminate|].
  intros _. apply existsb_username in Hex.
  split; [exact En|]. split; [exact Ep|]. split; [exact Hex|].
  eexists. repeat split.
Qed.

Lemma no_active_user_absent (n : string) (l : list User) :
  ~ In n (map username l) -> no_active_user n l.
Proof.
  intros Hnot u Hu Hname. destruct Hnot. apply in_map_iff. now exists u.
Qed.

Lemma get_current_user_last (pre : list User) (user : User) :
  get_current_user {| users := pre ++ [user];
                      current_user := Some (List.length pre) |} = Some user.
Proof.
  unfold get_current_user. simpl.
  rewrite nth_error_app2, Nat.sub_diag by lia. reflexivity.
Qed.

(** X25: A user whom [add_user] has added can log in with the username and
    the password given there, and is then the current user, with the role
    and the name given: an admin exactly when the role is admin.  A
    password of another hash is refused as Invalid password. *)
Theorem add_user_then_login (now now' : instant) (a : SimpleAuth)
    (n p r f e : string) :
  fst (fst (add_user now a n p r f e)) = true ->
  let a' := snd (add_user now a n p r f e) in
  (let '(ok, _, a'') := login now' a' n p in
   ok = true /\
   (exists user,
       get_current_user a'' = Some user /\ username user = n /\
       role user = r /\ full_name user = f) /\
   (is_admin a'' = true <-> r = "admin"%string)) /\
  (forall p',
      p' <> EmptyString -> hash_password p' <> hash_password p ->
      login now' a' n p' = (false, "Invalid password"%string, a')).
Proof.
  intros Hok.
  destruct (add_user_success now a n p r f e Hok)
    as (Hn & Hp & Hnot & user & Ha' & Hid & Hname & Hpw & Hrole & Hfull & Hact).
  cbv zeta. rewrite Ha'.
  set (a' := {| users := users a ++ [user]; current_user := current_user a |}).
  assert (Hpre : no_active_user n (users a)) by now apply no_active_user_absent.
  split.
  - destruct (login_users_cases now' a' n p (users a') 0)
      as [[Hnone _]|(pre & u & post & Husers & Hpre' & Hname' & Hact' & Hc)].
    { specialize (Hnone user). simpl in Hnone.
      rewrite Hnone in Hact; [discriminate| |exact Hname].
      apply in_or_app. right. now left. }
    simpl in Husers.
    destruct (first_active_unique n (users a) pre [] post user u Husers
                Hpre Hname Hact Hpre' Hname' Hact') as (<- & <- & <-).
    unfold login. rewrite (nonempty_eqb n Hn), (nonempty_eqb p Hp). simpl.
    destruct Hc as [[_ Heq]|[Hne _]]; [|contradiction].
    fold a' in Heq. simpl in Heq. rewrite Heq. simpl.
    rewrite set_nth_app.
    pose proof (get_current_user_last (users a) (logged_in_at now' user))
      as Hcur.
    split; [reflexivity|]. split.
    + exists (logged_in_at now' user). now repeat split.
    + unfold is_admin. rewrite Hcur. simpl. rewrite Hrole.
      split; [apply String.eqb_eq|intros ->; reflexivity].
  - intros p' Hp' Hhash.
    destruct (login_users_cases now' a' n p' (users a') 0)
      as [[Hnone _]|(pre & u & post & Husers & Hpre' & Hname' & Hact' & Hc)].
    { specialize (Hnone user). simpl in Hnone.
      rewrite Hnone in Hact; [discriminate| |exact Hname].
      apply in_or_app. right. now left. }
    simpl in Husers.
    destruct (first_active_unique n (users a) pre [] post user u Husers
                Hpre Hname Hact Hpre' Hname' Hact') as (<- & <- & <-).
    unfold login. rewrite (nonempty_eqb n Hn), (nonempty_eqb p' Hp'). simpl.
    destruct Hc as [[He _]|[_ Heq]]; [congruence|exact Heq].
Qed.

(** What [login] leaves of the object *)
Lemma login_state (now : instant) (a : SimpleAuth) (n p : string) :
  (fst (fst (login now a n p)) = false /\ snd (login now a n p) = a) \/
  (exists pre user post,
      users a = pre ++ user :: post /\ no_active_user n pre /\
      username user = n /\ u_is_active user = true /\
      password user = hash_password p /\
      n <> EmptyString /\ p <> EmptyString /\
      fst (fst (login now a n p)) = true /\
      snd (login now a n p) =
      {| users := pre ++ logged_in_at now user :: post;
         current_user := Some (List.length pre) |}).
Proof.
  unfold login.
  destruct (String.eqb_spec n EmptyString) as [En|En]; simpl;
    [left; now split|].
  destruct (String.eqb_spec p EmptyString) as [Ep|Ep]; simpl;
    [left; now split|].
  destruct (login_users_cases now a n p (users a) 0)
    as [[_ ->]|(pre & u & post & Husers & Hpre & Hname & Hact
                & [[Hpw ->]|[_ ->]])]; simpl.
  - left. now split.
  - right. exists pre, u, post. rewrite Husers at 2. rewrite set_nth_app.
    now repeat split.
  - left. now split.
Qed.

Lemma add_user_state (now : instant) (a : SimpleAuth) (n p r f e : string) :
  snd (add_user now a n p r f e) = a \/
  fst (fst (add_user now a n p r f e)) = true.
Proof.
  unfold add_user.
  destruct (negb (is_admin a)); [now left|].
  destruct (_ || _ || _ || _); [now left|].
  destruct (existsb _ _); [now left|now right].
Qed.

Lemma reachable_auth_consistent (a : SimpleAuth) :
  reachable a -> auth_consistent a.
Proof.
  induction 1 as [now|now a n p _ IH|a _ IH|now a n p r f e _ IH].
  - unfold auth_consistent. simpl. repeat split.
    + constructor; [intros []|constructor].
    + repeat constructor.
    + intros i [=]. 
    + eexists _, []. repeat split.
  - destruct (login_state now a n p)
      as [[_ ->]|(pre & u & post & Husers & _ & _ & _ & _ & _ & _ & _ & ->)];
      [exact IH|].
    destruct IH as (Hids & Hnames & Hact & _ & (u0 & rest & Hfirst & Hadmin)).
    rewrite Husers in Hids, Hnames, Hact, Hfirst.
    unfold auth_consistent. simpl.
    rewrite !map_app, !length_app in *. simpl in *.
    split; [exact Hids|]. split; [exact Hnames|]. split.
    { apply Forall_app in Hact as [Hpre Hpost]. apply Forall_app.
      split; [exact Hpre|]. inversion Hpost; subst. now constructor. }
    split; [intros i [= <-]; lia|].
    destruct pre as [|x pre]; simpl in *.
    + injection Hfirst as -> ->. eexists _, _. split; [reflexivity|].
      exact Hadmin.
    + injection Hfirst as -> <-. eexists _, _. split; [reflexivity|].
      exact Hadmin.
  - destruct IH as (Hids & Hnames & Hact & _ & Hfirst).
    unfold auth_consistent. simpl. repeat split; try assumption.
    intros i [=].
  - destruct (add_user_state now a n p r f e) as [->|Hok]; [exact IH|].
    destruct (add_user_success now a n p r f e Hok)
      as (_ & _ & Hnot & u & -> & Hid & Hname & _ & _ & _ & Hactive).
    destruct IH as (Hids & Hnames & Hact & Hcur & (u0 & rest & Hfirst & Hadmin)).
    unfold auth_consistent. simpl.
    rewrite !map_app, !length_app. simpl.
    split. { rewrite Nat.add_1_r, ids_in_turn_S, Hids, Hid. reflexivity. }
    split.
    { apply (Permutation_NoDup (Permutation_cons_append _ _)).
      rewrite Hname. now constructor. }
    split.
    { apply Forall_app. split; [exact Hact|]. now constructor. }
    split; [intros i Hi; apply Hcur in Hi; lia|].
    rewrite Hfirst. eexists _, _. split; [reflexivity|]. exact Hadmin.
Qed.

(** X26: Whatever is done through [login], [logout] and [add_user] to an
    object that started with the default admin, its users carry the ids 1,
    2, ... in order and pairwise different usernames, all are active, the
    current user is one of them, and the first is the user admin, of the
    role admin, whose password is still admin. *)
Theorem reachable_accounts_consistent (a : SimpleAuth) :
  reachable a -> auth_consistent a.
Proof. apply reachable_auth_consistent. Qed.

(** X27: In such an object a login succeeds exactly when the username and
    the password are not empty and a user has the username and the hash of
    the password; so admin with the password admin can always log in, is
    then an admin, and [get_all_users] then hands out every user. *)
Theorem reachable_login (now : instant) (a : SimpleAuth) (n p : string) :
  reachable a ->
  (fst (fst (login now a n p)) = true <->
   n <> EmptyString /\ p <> EmptyString /\
   exists user, In user (users a) /\ username user = n /\
                password user = hash_password p) /\
  (let '(ok, _, a') := login now a "admin" "admin" in
   ok = true /\ is_admin a' = true /\ get_all_users a' = users a').
Proof.
  intros Hr. apply reachable_auth_consistent in Hr.
  destruct Hr as (_ & Hnames & Hact & _ & (u0 & rest & Hfirst & Hadmin)).
  split.
  - split.
    + intros Hok.
      destruct (login_state now a n p)
        as [[Hf _]|(pre & u & post & Husers & _ & Hname & _ & Hpw & Hn & Hp
                    & _)]; [congruence|].
      split; [exact Hn|]. split; [exact Hp|]. exists u. rewrite Husers.
      split; [|now split]. apply in_or_app. right. now left.
    + intros (Hn & Hp & u & Hin & Hname & Hpw).
      apply in_split in Hin as (pre & post & Husers).
      assert (Hpre : no_active_user n pre).
      { apply no_active_user_absent. rewrite Husers, map_app in Hnames.
        simpl in Hnames. apply NoDup_remove_2 in Hnames.
        intros Hin. apply Hnames. rewrite Hname. apply in_or_app. now left. }
      assert (Hu : u_is_active u = true).
      { rewrite Forall_forall in Hact. apply Hact. rewrite Husers.
        apply in_or_app. right. now left. }
      destruct (login_state now a n p)
        as [[Hf _]|(_ & _ & _ & _ & _ & _ & _ & _ & _ & _ & Hok & _)];
        [|exact Hok].
      exfalso. revert Hf. unfold login.
      rewrite (nonempty_eqb n Hn), (nonempty_eqb p Hp). simpl.
      destruct (login_users_cases now a n p (users a) 0)
        as [[Hnone _]|(pre' & u' & post' & Husers' & Hpre' & Hname' & Hact'
                       & Hc)].
      * specialize (Hnone u). rewrite Husers in Hnone.
        rewrite Hnone in Hu; [discriminate| |exact Hname].
        apply in_or_app. right. now left.
      * rewrite Husers in Husers'.
        destruct (first_active_unique n pre pre' post post' u u' Husers'
                    Hpre Hname Hu Hpre' Hname' Hact') as (<- & <- & <-).
        destruct Hc as [[_ ->]|[Hne _]]; [discriminate|contradiction].
  - destruct Hadmin as (Hname & Hrole & Hpw).
    unfold login. simpl. rewrite Hfirst. cbn [login_users].
    rewrite Hname, Hpw, !String.eqb_refl.
    assert (Hu : u_is_active u0 = true).
    { rewrite Forall_forall in Hact. apply Hact. rewrite Hfirst. now left. }
    rewrite Hu. simpl. split; [reflexivity|].
    unfold get_all_users, is_admin, get_current_user. simpl.
    rewrite Hfirst. simpl. rewrite Hrole. now split.
Qed.

(* ----------------------------------------------------------------- *)

Lemma sales_trends_shorter_period_witness :
  3 <= 7 /\
  get_sales_trends week_history 3 =
  filter (fun row => clock week_history 0 - timedelta_days 3 <=? st_date row)
         (get_sales_trends week_history 7).
Proof.
  assert (H : 3 <= 7) by lia.
  split; [exact H|]. exact (sales_trends_shorter_period week_history 3 7 H).
Defined.


Lemma waste_percentage_agrees_witness :
  In odd_price_row (get_menu_performance insertion_argsort odd_price) /\
  In odd_price_waste_row (get_waste_analysis insertion_argsort odd_price) /\
  mp_menu_item odd_price_row = ws_menu_item odd_price_waste_row /\
  mp_waste_percentage odd_price_row = ws_waste_percentage odd_price_waste_row.
Proof.
  assert (H1 : In odd_price_row
                 (get_menu_performance insertion_argsort odd_price))
    by (vm_compute; left; reflexivity).
  assert (H2 : In odd_price_waste_row
                 (get_waste_analysis insertion_argsort odd_price))
    by (vm_compute; left; reflexivity).
  assert (H3 : mp_menu_item odd_price_row = ws_menu_item odd_price_waste_row)
    by reflexivity.
  split; [exact H1|]. split; [exact H2|]. split; [exact H3|].
  exact (waste_percentage_agrees insertion_argsort odd_price odd_price_row
           odd_price_waste_row H1 H2 H3).
Defined.

Lemma best_item_never_informed_witness :
  In best_of_ten (get_menu_performance insertion_argsort ten_items) /\
  (forall r, In r (get_menu_performance insertion_argsort ten_items) ->
             (profitability r <= profitability best_of_ten)%Q) /\
  ~ informed_for (mp_menu_item best_of_ten)
      (generate_recommendations insertion_argsort ten_items).
Proof.
  assert (H1 : In best_of_ten
                 (get_menu_performance insertion_argsort ten_items))
    by (vm_compute; left; reflexivity).
  assert (H2 : forall r,
             In r (get_menu_performance insertion_argsort ten_items) ->
             (profitability r <= profitability best_of_ten)%Q).
  { intros r Hr. vm_compute in Hr.
    repeat (destruct Hr as [<-|Hr]; [vm_compute; discriminate|]).
    destruct Hr. }
  split; [exact H1|]. split; [exact H2|].
  exact (proj1 (best_item_never_informed insertion_argsort ten_items
                  best_of_ten H1 H2)).
Defined.

Lemma forecast_between_extremes_witness :
  forecast_demand week_history 7 =
    Ok (map (forecast_entry (monday + timedelta_days 7 + 43200000000) 40)
            (seq 0 7)) /\
  Forall (fun t => 10 <= t <= 70)
         (map snd (tail 7 (daily_totals (recent_sales week_history)))) /\
  Forall (fun row => 10 <= forecasted_demand row <= 70)
         (map (forecast_entry (monday + timedelta_days 7 + 43200000000) 40)
              (seq 0 7)).
Proof.
  assert (H1 : forecast_demand week_history 7 =
               Ok (map (forecast_entry
                          (monday + timedelta_days 7 + 43200000000) 40)
                       (seq 0 7))) by reflexivity.
  assert (H2 : Forall (fun t => 10 <= t <= 70)
                 (map snd (tail 7 (daily_totals (recent_sales week_history))))).
  { change (Forall (fun t => 10 <= t <= 70) [10; 20; 30; 40; 50; 60; 70]).
    repeat (constructor; [lia|]). constructor. }
  split; [exact H1|]. split; [exact H2|].
  exact (forecast_between_extremes week_history 7 10 70 _ H1 H2).
Defined.

Lemma add_sales_record_outcome_witness :
  (List.length (menu_items default_config)
   <= List.length (prices default_config))%nat /\
  add_sales_record default_config [] monday "Pizza" 3 1 = (false, []).
Proof.
  assert (H : (List.length (menu_items default_config)
               <= List.length (prices default_config))%nat) by (simpl; lia).
  assert (Hnot : ~ In "Pizza"%string (menu_items default_config)).
  { simpl. intros Hin.
    repeat (destruct Hin as [Hin|Hin]; [discriminate|]). destruct Hin. }
  split; [exact H|].
  exact (proj1 (add_sales_record_outcome default_config [] monday "Pizza"
                  3 1 H) Hnot).
Defined.

Lemma add_sales_record_consistent_witness :
  Forall (record_consistent default_config) (load_sales_data monday_only) /\
  Forall (record_consistent default_config)
         (snd (add_sales_record default_config (load_sales_data monday_only)
                 (monday + timedelta_days 5) "Samosa" 30 4)).
Proof.
  assert (H : Forall (record_consistent default_config)
                (load_sales_data monday_only)).
  { repeat (constructor;
            [eapply sales_record_consistent; reflexivity|]). constructor. }
  split; [exact H|].
  exact (add_sales_record_consistent default_config
           (load_sales_data monday_only) (monday + timedelta_days 5)
           "Samosa" 30 4 H).
Defined.

Lemma daily_patterns_of_weekday_labels_witness :
  argsort_spec insertion_argsort /\
  load_sales_data week_history <> [] /\
  weekday_labels (load_sales_data week_history) /\
  map dp_day_of_week (get_daily_patterns insertion_argsort week_history)
  = map Some (filter (present week_history) days_order).
Proof.
  assert (Hne : load_sales_data week_history <> []) by discriminate.
  assert (Hw : weekday_labels (load_sales_data week_history)).
  { unfold weekday_labels.
    repeat (constructor; [vm_compute; tauto|]). constructor. }
  split; [exact insertion_argsort_spec|]. split; [exact Hne|].
  split; [exact Hw|].
  exact (proj1 (daily_patterns_of_weekday_labels insertion_argsort
                  week_history insertion_argsort_spec Hne Hw)).
Defined.



Lemma summary_of_empty_range_witness :
  load_sales_data week_history <> [] /\
  monday < monday + timedelta_days 7 /\
  ss_average_daily_sales
    (get_sales_summary week_history (Some (monday + timedelta_days 7))
       (Some monday)) = NaN.
Proof.
  assert (Hne : load_sales_data week_history <> []) by discriminate.
  assert (Hlt : monday < monday + timedelta_days 7) by reflexivity.
  split; [exact Hne|]. split; [exact Hlt|].
  exact (f_equal ss_average_daily_sales
           (summary_of_empty_range week_history (monday + timedelta_days 7)
              monday Hne Hlt)).
Defined.

Lemma managed_food_items_invariant_witness :
  managed two_food_items /\
  map item_id two_food_items = [1; 2] /\
  Forall item_consistent two_food_items.
Proof.
  assert (H : managed two_food_items).
  { unfold two_food_items, pilau_added.
    apply managed_update, managed_add, managed_add, managed_empty. }
  split; [exact H|]. split.
  - exact (proj1 (managed_food_items_invariant two_food_items H)).
  - exact (proj2 (proj2 (managed_food_items_invariant two_food_items H))).
Defined.

Lemma deactivate_item_removes_one_witness :
  NoDup (map item_id two_food_items) /\
  get_active_items (deactivate_item two_food_items 1) =
  filter (fun item => negb (item_id item =? 1))
         (get_active_items two_food_items).
Proof.
  assert (H : NoDup (map item_id two_food_items)).
  { change (NoDup [1; 2]). constructor.
    - intros [E|[]]. discriminate.
    - constructor; [intros []|constructor]. }
  split; [exact H|].
  exact (proj1 (deactivate_item_removes_one two_food_items 1 H)).
Defined.

Lemma add_food_item_then_deactivate_witness :
  managed pilau_added /\
  get_active_items
    (deactivate_item
       (snd (add_food_item (monday + timedelta_days 1) pilau_added
               "Porridge" "breakfast" 30 (25 # 2) [] 10 []))
       (item_id (fst (add_food_item (monday + timedelta_days 1) pilau_added
                        "Porridge" "breakfast" 30 (25 # 2) [] 10 []))))
  = get_active_items pilau_added.
Proof.
  assert (H : managed pilau_added).
  { unfold pilau_added. apply managed_add, managed_empty. }
  split; [exact H|].
  exact (proj2 (proj2 (proj2
           (add_food_item_then_deactivate (monday + timedelta_days 1)
              pilau_added "Porridge" "breakfast" 30 (25 # 2) [] 10 [] H)))).
Defined.

Lemma food_item_price_comes_first_witness :
  none_active "Pilau" [old_pilau] /\
  name new_pilau = "Pilau"%string /\
  is_active new_pilau = true /\
  add_new_sales_record default_config [] [old_pilau; new_pilau] monday
    "Pilau" 7 1
  = (true, [sales_record monday "Pilau" 7 1 180],
     [old_pilau; sold_more new_pilau 7]).
Proof.
  assert (H1 : none_active "Pilau" [old_pilau]).
  { intros item [<-|[]] _. reflexivity. }
  assert (H2 : name new_pilau = "Pilau"%string) by reflexivity.
  assert (H3 : is_active new_pilau = true) by reflexivity.
  split; [exact H1|]. split; [exact H2|]. split; [exact H3|].
  exact (food_item_price_comes_first default_config [] [old_pilau] []
           new_pilau monday "Pilau" 7 1 H1 H2 H3).
Defined.

Lemma add_new_sales_record_without_food_item_witness :
  none_active "Pilau" [old_pilau] /\
  ~ In "Pilau"%string (menu_items default_config) /\
  fst (add_sales_record default_config [] monday "Pilau" 7 1) = false /\
  fst (fst (add_new_sales_record default_config [] [old_pilau] monday
              "Pilau" 7 1)) = true.
Proof.
  assert (H1 : none_active "Pilau" [old_pilau]).
  { intros item [<-|[]] _. reflexivity. }
  assert (Hnot : ~ In "Pilau"%string (menu_items default_config)).
  { simpl. intros Hin.
    repeat (destruct Hin as [Hin|Hin]; [discriminate|]). destruct Hin. }
  split; [exact H1|]. split; [exact Hnot|].
  pose proof (add_new_sales_record_without_food_item default_config []
                [old_pilau] monday "Pilau" 7 1 H1) as H.
  destruct (add_new_sales_record default_config [] [old_pilau] monday
              "Pilau" 7 1) as [[ok data'] items'].
  destruct H as (_ & _ & H). destruct (H Hnot) as (Hf & Hok & _).
  split; [exact Hf|exact Hok].
Defined.

Lemma add_user_then_login_witness :
  fst (fst (add_user (monday + 30000000000) admin_session
              "mary" "s3cret" "user" "Mary Wanjiru" "mary@canteen.com"))
  = true /\
  forall p',
    p' <> EmptyString -> hash_password p' <> hash_password "s3cret" ->
    login (monday + 40000000000) mary_added "mary" p'
    = (false, "Invalid password"%string, mary_added).
Proof.
  assert (H : fst (fst (add_user (monday + 30000000000) admin_session
                          "mary" "s3cret" "user" "Mary Wanjiru"
                          "mary@canteen.com")) = true) by (vm_compute; reflexivity).
  split; [exact H|].
  pose proof (add_user_then_login (monday + 30000000000)
                (monday + 40000000000) admin_session
                "mary" "s3cret" "user" "Mary Wanjiru" "mary@canteen.com" H)
    as T.
  cbv zeta in T. destruct T as [_ T].
  exact T.
Defined.

Lemma reachable_accounts_consistent_witness :
  reachable mary_added /\ auth_consistent mary_added.
Proof.
  assert (H : reachable mary_added).
  { unfold mary_added, admin_session.
    apply reach_add_user, reach_login, reach_new. }
  split; [exact H|]. exact (reachable_accounts_consistent mary_added H).
Defined.

Lemma reachable_login_witness :
  reachable (logout mary_added) /\
  (fst (fst (login (monday + 40000000000) (logout mary_added)
               "mary" "s3cret")) = true <->
   "mary"%string <> EmptyString /\ "s3cret"%string <> EmptyString /\
   exists user, In user (users (logout mary_added)) /\
                username user = "mary"%string /\
                password user = hash_password "s3cret").
Proof.
  assert (H : reachable (logout mary_added)).
  { unfold mary_added, admin_session.
    apply reach_logout, reach_add_user, reach_login,
      reach_new. }
  split; [exact H|].
  pose proof (reachable_login (monday + 40000000000) (logout mary_added)
                "mary" "s3cret" H) as T.
  destruct T as [T _].
  exact T.
Defined.

